(** * A shallow embedding of the Angular upgrade bridge

    The development follows the JavaScript sources of the package:

    - [esm5/static/src/angular1_providers.js], lines 12-42: the injector
      hand-off cell and the providers built on it; the same file continues
      with [util.js] of [src/common], lines 51-155: the directive names,
      the type names, the validation helper and the strict equality;
    - [unnamed/part_000] ([util.js] of [static/src/common]), lines 51-67:
      the [ngModel] glue;
    - [esm2015/static/src/static/downgrade_module.js], lines 107-163: the
      lazy module registrar;
    - [esm2015/src/common/angular1.js], lines 372-440: the AngularJS
      global and the entry points that go through it; lines 499-648 (the
      part that is [downgrade_component.js]): the directive factory and
      the synchronous [ParentInjectorPromise].

    JavaScript objects live in an explicit store ([World]); every function
    of the sources is a computation in a state-and-exception monad over
    that store.  Closures are represented by data: the variables they
    capture immutably are arguments of a constructor, the variables they
    mutate live in the store. *)

From Stdlib Require Import Ascii Floats.SpecFloat.
From stdpp Require Import base option list gmap strings pretty.

Open Scope string_scope.

(** ** Constants

    [common/constants.js] is not part of the sources at hand.  The names it
    exports are taken as parameters of the whole development. *)
Class Constants := {
  UPGRADE_MODULE_NAME : string;
  LAZY_MODULE_REF : string;
  INJECTOR_KEY : string;
  DOWNGRADED_MODULE_COUNT_KEY : string;
  UPGRADE_APP_TYPE_KEY : string;
}.

(** ** Values *)

(** Identity of an AngularJS injector object ([IInjectorService]). *)
Definition IInjectorService := nat.

(** Angular injectors.  The sources create them in three places. *)
Inductive Injector :=
  | ModuleInjector (m : nat)
      (* [ref.injector] of a bootstrapped [NgModuleRef] *)
  | NgAdapterInjector (modInjector : Injector)
      (* [new NgAdapterInjector(ref.injector)] *)
  | ComponentInjector (element : nat) (parent : Injector).
      (* [facade.getInjector()] *)

Global Instance Injector_eq_dec : EqDecision Injector.
Proof. solve_decision. Defined.

(** The JavaScript values that flow through the modelled functions. *)
Inductive Value :=
  | VUndefined
  | VNull
  | VNum (n : Z)
  | VFunction (f : nat)
  | VNg1Injector (i : IInjectorService)
  | VInjector (i : Injector)
  | VModuleRef (i : Injector)            (* an [NgModuleRef]; [i] is its [.injector] *)
  | VLazyModuleRef (r : nat)             (* a [LazyModuleRef] object of the store *)
  | VPromise (p : nat)                   (* a native promise of the store *)
  | VParentInjectorPromise (l : nat)     (* a [ParentInjectorPromise] of the store *)
  | VArray2 (a b : Value)                (* a two-element array *)
  | VObject (o : nat).                   (* any other object *)

Global Instance Value_eq_dec : EqDecision Value.
Proof. solve_decision. Defined.

(** [ToBoolean]. *)
Definition truthy (v : Value) : bool :=
  match v with
  | VUndefined | VNull => false
  | VNum n => negb (n =? 0)%Z
  | _ => true
  end.

(** [a || b]. *)
Definition js_or (a b : Value) : Value := if truthy a then a else b.

(** [a === b] for the values compared in the sources (numbers). *)
Definition js_strict_eq_num (a : Value) (n : Z) : bool :=
  match a with VNum m => (m =? n)%Z | _ => false end.

(** [a >= n] and [a > n]: a value that is not a number converts to [NaN]
    and every comparison with [NaN] is false. *)
Definition js_ge_num (a : Value) (n : Z) : bool :=
  match a with VNum m => (n <=? m)%Z | _ => false end.

Definition js_gt_num (a : Value) (n : Z) : bool :=
  match a with VNum m => (n <? m)%Z | _ => false end.

(** [a + 1]; on a number this is the successor, on anything else the result
    is not a number any more (a string or [NaN]), represented by [VObject 0]. *)
Definition js_plus_one (a : Value) : Value :=
  match a with VNum m => VNum (m + 1) | _ => VObject 0 end.

(** [typeof value === 'function'] *)
Definition isFunction (value : Value) : bool :=
  match value with VFunction _ => true | _ => false end.

(** A string is truthy when it is not empty. *)
Definition str_truthy (s : string) : bool :=
  match s with EmptyString => false | String _ _ => true end.

(** [s || ''] for an optional string property. *)
Definition str_or_empty (s : option string) : string :=
  match s with
  | Some s => if str_truthy s then s else ""
  | None => ""
  end.

Definition newline : string := String (Ascii.ascii_of_nat 10) EmptyString.

(** ** Exceptions *)
Inductive JsError :=
  | Error (message : string)
  | TypeError (message : string).

Global Instance JsError_eq_dec : EqDecision JsError.
Proof. solve_decision. Defined.

(** ** Closures of the sources, as data *)

(** How the promise returned by a bootstrap function behaves: it is
    already resolved with a module reference when it is returned, or it is
    still pending (and may be resolved by the embedding application on a
    later tick).  A promise that is rejected never runs a fulfilment
    handler; for the observations made here it behaves like one that stays
    pending. *)
Inductive BootstrapFn :=
  | ResolvesImmediately (moduleInjector : Injector)
  | ResolvesLater.

(** The argument of [downgradeModule]: a bootstrap function, or an
    [NgModuleFactory] to be bootstrapped by [platformBrowser]. *)
Inductive BootstrapSource :=
  | SrcFunction (id : nat) (fn : BootstrapFn)
  | SrcModuleFactory (bootstrapModuleFactory : BootstrapFn).

(** The service factories registered by [downgradeModule]. *)
Inductive FactoryFn :=
  | FIdentity (dep : string)
      (* [[dep, identity]] *)
  | FLazyInjector (lazyModuleName : string)
      (* [() => { if (!injector) throw ...; return injector; }] *)
  | FLazyModuleRef (lazyModuleName : string) (bootstrapFn : BootstrapFn).
      (* [[$INJECTOR, ($injector) => { setTempInjectorRef($injector); ... }]] *)

Inductive Provider :=
  | PConstant (v : Value)
  | PFactory (f : FactoryFn).

(** The configuration block registered by [downgradeModule]. *)
Inductive ConfigFn :=
  | CfgCountDowngradedModule.

(** An AngularJS module, as [angular.module(name, requires)] and the
    chained calls build it. *)
Record IModule := {
  m_name : string;
  m_requires : list string;
  m_invokeQueue : list (string * Provider);
  m_configBlocks : list ConfigFn;
}.

(** Fulfilment handlers given to [promise.then]. *)
Inductive Reaction :=
  | RBootstrapped (lazyModuleName : string) (result : nat)
      (* [ref => { injector = result.injector = new NgAdapterInjector(ref.injector); ... }] *)
  | RAllElement (all : nat) (index : nat)
      (* the resolve-element function of [Promise.all] *)
  | RDowngrade (frame : nat)
      (* [([pInjector, mInjector]) => downgradeFn(pInjector, mInjector)] *)
  | RResolve (p : nat).
      (* the resolving function of promise [p] *)

(** Callbacks given to [ParentInjectorPromise.then]: the resolving
    function of a native promise (this is what [Promise.all] passes), or
    any other function of the caller, of which only the calls are
    recorded. *)
Inductive Callback :=
  | CbResolve (p : nat)
  | CbOpaque (id : nat).

Inductive PromiseState :=
  | Pending (reactions : list (Reaction * nat))
      (* each handler with the promise that [then] returned for it *)
  | Fulfilled (v : Value).

(** Jobs of the microtask queue. *)
Inductive Job :=
  | JReaction (r : Reaction) (derived : nat) (v : Value)
  | JResolveThenable (p : nat) (thenable : Value).

(** ** Objects of the store *)

Record LazyModuleRef := {
  needsNgZone : bool;
  lmr_injector : option Injector;
  lmr_promise : option nat;
}.

Record ParentInjectorPromise := {
  pip_element : option nat;
  pip_injectorKey : string;
  pip_callbacks : list Callback;
  pip_injector : option Injector;
}.

Record ComponentType := {
  overriddenName : string;
  c_name : string;
  c_toString : string;
}.

(** The argument of [downgradeComponent]. *)
Record DowngradeInfo := {
  component : ComponentType;
  downgradedModule : option string;
  propagateDigest : option bool;
}.

(** The variables of one call of [directiveFactory]. *)
Record Directive := {
  d_info : DowngradeInfo;
  d_injector : IInjectorService;
  isNgUpgradeLite : bool;
  hasMultipleDowngradedModules : bool;
  ngZone : option Injector;       (* the zone of this injector; unset at first *)
}.

(** The variables of one call of [link]. *)
Record LinkFrame := {
  lf_directive : nat;
  lf_scope : nat;
  lf_element : nat;
  lf_attrs : nat;
  lf_ngModel : Value;
  ranAsync : bool;
}.

(** One AngularJS injector: the registered providers and the instances
    made so far. *)
Record Ng1Injector := {
  providers : gmap string Provider;
  instanceCache : gmap string Value;
}.

(** ** Observations

    Calls into collaborators that are outside the sources (the downgrade
    adapter, the scope, the zone, opaque callbacks) are recorded. *)
Inductive Event :=
  | EvCallback (callback : Callback) (arg : Injector)
  | EvBootstrap (lazyModuleName : string) (p : nat)
  | EvNewAdapter (element attrs scope : nat) (ngModel : Value)
                 (injector : Injector) (ng1 : IInjectorService)
                 (factoryOf : Injector) (c : ComponentType)
  | EvCompileContents (element : nat)
  | EvCreateComponent (element : nat)
  | EvSetupInputs (element : nat) (lite : bool) (propagateDigest : option bool)
  | EvSetupOutputs (element : nat)
  | EvRegisterCleanup (element : nat)
  | EvEvalAsync (scope : nat)
  | EvNgZoneRun (zoneOf : Injector)
  | EvRejected (p : nat) (e : JsError).

(** ** The store *)
Record World := {
  tempInjectorRef : option IInjectorService;
  moduleUid : N;
  lazyInjector : gmap string Injector;
  ng1Modules : gmap string IModule;
  injectors : gmap IInjectorService Ng1Injector;
  lazyModuleRefs : gmap nat LazyModuleRef;
  promises : gmap nat PromiseState;
  joins : gmap nat (option Value * option Value);
  parentInjectorPromises : gmap nat ParentInjectorPromise;
  elementData : gmap nat (gmap string Value);
  resolveComponentFactory : Injector → ComponentType → bool;
  directives : gmap nat Directive;
  frames : gmap nat LinkFrame;
  microtasks : list Job;
  inAngularZone : bool;
  log : list Event;
}.

(** Field updates. *)
Definition set_tempInjectorRef (x : option IInjectorService) (w : World) : World :=
  {| tempInjectorRef := x; moduleUid := moduleUid w; lazyInjector := lazyInjector w;
     ng1Modules := ng1Modules w; injectors := injectors w;
     lazyModuleRefs := lazyModuleRefs w; promises := promises w; joins := joins w;
     parentInjectorPromises := parentInjectorPromises w;
     elementData := elementData w;
     resolveComponentFactory := resolveComponentFactory w;
     directives := directives w; frames := frames w; microtasks := microtasks w;
     inAngularZone := inAngularZone w; log := log w |}.

Definition set_moduleUid (x : N) (w : World) : World :=
  {| tempInjectorRef := tempInjectorRef w; moduleUid := x;
     lazyInjector := lazyInjector w; ng1Modules := ng1Modules w;
     injectors := injectors w; lazyModuleRefs := lazyModuleRefs w;
     promises := promises w; joins := joins w;
     parentInjectorPromises := parentInjectorPromises w;
     elementData := elementData w;
     resolveComponentFactory := resolveComponentFactory w;
     directives := directives w; frames := frames w; microtasks := microtasks w;
     inAngularZone := inAngularZone w; log := log w |}.

Definition set_lazyInjector (x : gmap string Injector) (w : World) : World :=
  {| tempInjectorRef := tempInjectorRef w; moduleUid := moduleUid w; lazyInjector := x;
     ng1Modules := ng1Modules w; injectors := injectors w;
     lazyModuleRefs := lazyModuleRefs w; promises := promises w; joins := joins w;
     parentInjectorPromises := parentInjectorPromises w;
     elementData := elementData w;
     resolveComponentFactory := resolveComponentFactory w;
     directives := directives w; frames := frames w; microtasks := microtasks w;
     inAngularZone := inAngularZone w; log := log w |}.

Definition set_ng1Modules (x : gmap string IModule) (w : World) : World :=
  {| tempInjectorRef := tempInjectorRef w; moduleUid := moduleUid w;
     lazyInjector := lazyInjector w; ng1Modules := x; injectors := injectors w;
     lazyModuleRefs := lazyModuleRefs w; promises := promises w; joins := joins w;
     parentInjectorPromises := parentInjectorPromises w;
     elementData := elementData w;
     resolveComponentFactory := resolveComponentFactory w;
     directives := directives w; frames := frames w; microtasks := microtasks w;
     inAngularZone := inAngularZone w; log := log w |}.

Definition set_injectors (x : gmap IInjectorService Ng1Injector) (w : World) : World :=
  {| tempInjectorRef := tempInjectorRef w; moduleUid := moduleUid w;
     lazyInjector := lazyInjector w; ng1Modules := ng1Modules w; injectors := x;
     lazyModuleRefs := lazyModuleRefs w; promises := promises w; joins := joins w;
     parentInjectorPromises := parentInjectorPromises w;
     elementData := elementData w;
     resolveComponentFactory := resolveComponentFactory w;
     directives := directives w; frames := frames w; microtasks := microtasks w;
     inAngularZone := inAngularZone w; log := log w |}.

Definition set_lazyModuleRefs (x : gmap nat LazyModuleRef) (w : World) : World :=
  {| tempInjectorRef := tempInjectorRef w; moduleUid := moduleUid w;
     lazyInjector := lazyInjector w; ng1Modules := ng1Modules w;
     injectors := injectors w; lazyModuleRefs := x; promises := promises w;
     joins := joins w; parentInjectorPromises := parentInjectorPromises w;
     elementData := elementData w;
     resolveComponentFactory := resolveComponentFactory w;
     directives := directives w; frames := frames w; microtasks := microtasks w;
     inAngularZone := inAngularZone w; log := log w |}.

Definition set_promises (x : gmap nat PromiseState) (w : World) : World :=
  {| tempInjectorRef := tempInjectorRef w; moduleUid := moduleUid w;
     lazyInjector := lazyInjector w; ng1Modules := ng1Modules w;
     injectors := injectors w; lazyModuleRefs := lazyModuleRefs w; promises := x;
     joins := joins w; parentInjectorPromises := parentInjectorPromises w;
     elementData := elementData w;
     resolveComponentFactory := resolveComponentFactory w;
     directives := directives w; frames := frames w; microtasks := microtasks w;
     inAngularZone := inAngularZone w; log := log w |}.

Definition set_joins (x : gmap nat (option Value * option Value)) (w : World) : World :=
  {| tempInjectorRef := tempInjectorRef w; moduleUid := moduleUid w;
     lazyInjector := lazyInjector w; ng1Modules := ng1Modules w;
     injectors := injectors w; lazyModuleRefs := lazyModuleRefs w;
     promises := promises w; joins := x;
     parentInjectorPromises := parentInjectorPromises w;
     elementData := elementData w;
     resolveComponentFactory := resolveComponentFactory w;
     directives := directives w; frames := frames w; microtasks := microtasks w;
     inAngularZone := inAngularZone w; log := log w |}.

Definition set_parentInjectorPromises (x : gmap nat ParentInjectorPromise) (w : World) : World :=
  {| tempInjectorRef := tempInjectorRef w; moduleUid := moduleUid w;
     lazyInjector := lazyInjector w; ng1Modules := ng1Modules w;
     injectors := injectors w; lazyModuleRefs := lazyModuleRefs w;
     promises := promises w; joins := joins w; parentInjectorPromises := x;
     elementData := elementData w;
     resolveComponentFactory := resolveComponentFactory w;
     directives := directives w; frames := frames w; microtasks := microtasks w;
     inAngularZone := inAngularZone w; log := log w |}.

Definition set_elementData (x : gmap nat (gmap string Value)) (w : World) : World :=
  {| tempInjectorRef := tempInjectorRef w; moduleUid := moduleUid w;
     lazyInjector := lazyInjector w; ng1Modules := ng1Modules w;
     injectors := injectors w; lazyModuleRefs := lazyModuleRefs w;
     promises := promises w; joins := joins w;
     parentInjectorPromises := parentInjectorPromises w; elementData := x;
     resolveComponentFactory := resolveComponentFactory w;
     directives := directives w; frames := frames w; microtasks := microtasks w;
     inAngularZone := inAngularZone w; log := log w |}.

Definition set_directives (x : gmap nat Directive) (w : World) : World :=
  {| tempInjectorRef := tempInjectorRef w; moduleUid := moduleUid w;
     lazyInjector := lazyInjector w; ng1Modules := ng1Modules w;
     injectors := injectors w; lazyModuleRefs := lazyModuleRefs w;
     promises := promises w; joins := joins w;
     parentInjectorPromises := parentInjectorPromises w;
     elementData := elementData w;
     resolveComponentFactory := resolveComponentFactory w; directives := x;
     frames := frames w; microtasks := microtasks w;
     inAngularZone := inAngularZone w; log := log w |}.

Definition set_frames (x : gmap nat LinkFrame) (w : World) : World :=
  {| tempInjectorRef := tempInjectorRef w; moduleUid := moduleUid w;
     lazyInjector := lazyInjector w; ng1Modules := ng1Modules w;
     injectors := injectors w; lazyModuleRefs := lazyModuleRefs w;
     promises := promises w; joins := joins w;
     parentInjectorPromises := parentInjectorPromises w;
     elementData := elementData w;
     resolveComponentFactory := resolveComponentFactory w;
     directives := directives w; frames := x; microtasks := microtasks w;
     inAngularZone := inAngularZone w; log := log w |}.

Definition set_microtasks (x : list Job) (w : World) : World :=
  {| tempInjectorRef := tempInjectorRef w; moduleUid := moduleUid w;
     lazyInjector := lazyInjector w; ng1Modules := ng1Modules w;
     injectors := injectors w; lazyModuleRefs := lazyModuleRefs w;
     promises := promises w; joins := joins w;
     parentInjectorPromises := parentInjectorPromises w;
     elementData := elementData w;
     resolveComponentFactory := resolveComponentFactory w;
     directives := directives w; frames := frames w; microtasks := x;
     inAngularZone := inAngularZone w; log := log w |}.

Definition set_inAngularZone (x : bool) (w : World) : World :=
  {| tempInjectorRef := tempInjectorRef w; moduleUid := moduleUid w;
     lazyInjector := lazyInjector w; ng1Modules := ng1Modules w;
     injectors := injectors w; lazyModuleRefs := lazyModuleRefs w;
     promises := promises w; joins := joins w;
     parentInjectorPromises := parentInjectorPromises w;
     elementData := elementData w;
     resolveComponentFactory := resolveComponentFactory w;
     directives := directives w; frames := frames w; microtasks := microtasks w;
     inAngularZone := x; log := log w |}.

Definition set_log (x : list Event) (w : World) : World :=
  {| tempInjectorRef := tempInjectorRef w; moduleUid := moduleUid w;
     lazyInjector := lazyInjector w; ng1Modules := ng1Modules w;
     injectors := injectors w; lazyModuleRefs := lazyModuleRefs w;
     promises := promises w; joins := joins w;
     parentInjectorPromises := parentInjectorPromises w;
     elementData := elementData w;
     resolveComponentFactory := resolveComponentFactory w;
     directives := directives w; frames := frames w; microtasks := microtasks w;
     inAngularZone := inAngularZone w; log := x |}.

(** ** The monad of JavaScript computations

    An exception keeps the store as it was when it was thrown: the writes
    made before a [throw] are not undone. *)
Inductive Result (A : Type) :=
  | Ok (a : A) (w : World)
  | Throw (e : JsError) (w : World).
Arguments Ok {A} a w.
Arguments Throw {A} e w.

Definition M (A : Type) : Type := World → Result A.

Global Instance M_ret : MRet M := λ A a w, Ok a w.
Global Instance M_bind : MBind M := λ A B f m w,
  match m w with
  | Ok a w' => f a w'
  | Throw e w' => Throw e w'
  end.

Definition throw {A} (e : JsError) : M A := λ w, Throw e w.
Definition gets {A} (f : World → A) : M A := λ w, Ok (f w) w.
Definition modify (f : World → World) : M unit := λ w, Ok tt (f w).
Definition emit (e : Event) : M unit := modify (λ w, set_log (log w ++ [e]) w).

(** [for (x of l) f(x)] *)
Fixpoint for_each {A} (f : A → M unit) (l : list A) : M unit :=
  match l with
  | [] => mret tt
  | x :: l => f x ;; for_each f l
  end.

(** The store after a computation, whichever way it ended. *)
Definition world_of {A} (r : Result A) : World :=
  match r with Ok _ w => w | Throw _ w => w end.

(** ** [angular1_providers.js]: the injector hand-off cell *)

Definition setTempInjectorRef (injector : IInjectorService) : M unit :=
  modify (set_tempInjectorRef (Some injector)).

Definition injectorFactory : M IInjectorService := λ w,
  match tempInjectorRef w with
  | None =>
      Throw (Error "Trying to get the AngularJS injector before it being set.") w
  | Some injector => Ok injector (set_tempInjectorRef None w)
  end.

(** ** Native promises and the microtask queue

    The part of the ECMAScript promise semantics that the sources rely on:
    a handler given to [then] never runs in the call that registers it, it
    runs as a job of the microtask queue once the promise is fulfilled. *)

Definition enqueue (j : Job) : M unit :=
  modify (λ w, set_microtasks (microtasks w ++ [j]) w).

Definition set_promise (p : nat) (st : PromiseState) : M unit :=
  modify (λ w, set_promises (<[p := st]> (promises w)) w).

Definition new_promise (st : PromiseState) : M nat := λ w,
  let p := fresh (dom (promises w)) in
  Ok p (set_promises (<[p := st]> (promises w)) w).

(** [p.then(r)]; the result is the promise that [then] returns. *)
Definition promise_then (p : nat) (r : Reaction) : M nat :=
  derived ← new_promise (Pending []);
  st ← gets (λ w, promises w !! p);
  match st with
  | Some (Pending rs) => set_promise p (Pending (rs ++ [(r, derived)]))
  | Some (Fulfilled v) => enqueue (JReaction r derived v)
  | None => throw (TypeError "then is not a function")
  end;;
  mret derived.

Definition fulfill (p : nat) (v : Value) : M unit :=
  st ← gets (λ w, promises w !! p);
  match st with
  | Some (Pending rs) =>
      set_promise p (Fulfilled v);;
      for_each (λ rd, enqueue (JReaction rd.1 rd.2 v)) rs
  | _ => mret tt
  end.

(** [isFunction(obj.then)] on an object. *)
Definition has_then (v : Value) : bool :=
  match v with
  | VPromise _ | VParentInjectorPromise _ => true
  | _ => false
  end.

(** The resolving function of promise [p], applied to [v]. *)
Definition resolve_promise (p : nat) (v : Value) : M unit :=
  if has_then v then enqueue (JResolveThenable p v) else fulfill p v.

(** [Promise.resolve(v)] *)
Definition Promise_resolve (v : Value) : M nat :=
  match v with
  | VPromise q => mret q
  | _ => p ← new_promise (Pending []); resolve_promise p v;; mret p
  end.

(** The body of the loop of [Promise.all]:
    [Promise.resolve(nextValue).then(resolveElement)]. *)
Definition subscribe_element (all index : nat) (nextValue : Value) : M unit :=
  nextPromise ← Promise_resolve nextValue;
  _ ← promise_then nextPromise (RAllElement all index);
  mret tt.

(** [Promise.all([a, b])] *)
Definition Promise_all (a b : Value) : M nat :=
  all ← new_promise (Pending []);
  modify (λ w, set_joins (<[all := (None, None)]> (joins w)) w);;
  subscribe_element all 0 a;;
  subscribe_element all 1 b;;
  mret all.

(** The resolve-element function of [Promise.all] for position [index]. *)
Definition all_element (all index : nat) (v : Value) : M unit :=
  slots ← gets (λ w, joins w !! all);
  match slots with
  | None => mret tt
  | Some (a, b) =>
      let slots' :=
        match index with
        | 0 => (Some (default v a), b)
        | _ => (a, Some (default v b))
        end in
      modify (λ w, set_joins (<[all := slots']> (joins w)) w);;
      match index, a, b with
      | 0, None, Some vb => fulfill all (VArray2 v vb)
      | S _, Some va, None => fulfill all (VArray2 va v)
      | _, _, _ => mret tt
      end
  end.

(** ** [util.js]: directive names

    [directiveNormalize] works on the characters of a name.  Names are
    taken over the ASCII alphabet ([ascii_only] below), on which a
    character is one code unit, the line terminators are line feed and
    carriage return, and the case mapping is that of the Latin letters. *)

(** The class [[:\-_]]. *)
Definition is_special (c : ascii) : bool :=
  Ascii.eqb c ":"%char || Ascii.eqb c "-"%char || Ascii.eqb c "_"%char.

(** The characters that [.] does not match. *)
Definition is_line_terminator (c : ascii) : bool :=
  Ascii.eqb c (ascii_of_nat 10) || Ascii.eqb c (ascii_of_nat 13).

(** [letter.toUpperCase()] *)
Definition toUpperCase (c : ascii) : ascii :=
  let n := nat_of_ascii c in
  if ((97 <=? n) && (n <=? 122))%nat then ascii_of_nat (n - 32) else c.

(** A word of a pattern with flag [i], matched at the start of [s]: the
    text after the word.  Two characters match when they have the same
    upper case. *)
Fixpoint ignoreCase_prefix (word s : string) : option string :=
  match word, s with
  | EmptyString, _ => Some s
  | String a word, String c s =>
      if Ascii.eqb (toUpperCase c) (toUpperCase a)
      then ignoreCase_prefix word s else None
  | String _ _, EmptyString => None
  end.

(** [/^(?:x|data)[:\-_]/i], matched against [name]: the text after the
    match.  The alternatives are tried in order. *)
Definition DIRECTIVE_PREFIX_REGEXP (name : string) : option string :=
  let alternative word :=
    match ignoreCase_prefix word name with
    | Some (String c rest) => if is_special c then Some rest else None
    | _ => None
    end in
  match alternative "x" with
  | Some rest => Some rest
  | None => alternative "data"
  end.

(** [/[:\-_]+(.)/], matched at the start of [s]: the captured letter and
    the text after the match.  The run of special characters is as long as
    it can be; it gives characters back, one at a time, until [.] matches. *)
Fixpoint DIRECTIVE_SPECIAL_CHARS_REGEXP (s : string) : option (ascii * string) :=
  match s with
  | String c rest =>
      if is_special c then
        match DIRECTIVE_SPECIAL_CHARS_REGEXP rest with
        | Some m => Some m
        | None =>
            match rest with
            | String letter rest =>
                if is_line_terminator letter then None else Some (letter, rest)
            | EmptyString => None
            end
        end
      else None
  | EmptyString => None
  end.

(** [s.replace(DIRECTIVE_SPECIAL_CHARS_REGEXP, (_, letter) => letter.toUpperCase())]
    with flag [g]: every match, from left to right, the search going on
    after the match; where nothing matches the character is kept.  [fuel]
    bounds the number of steps. *)
Fixpoint replace_from (fuel : nat) (s : string) : string :=
  match fuel with
  | 0 => s
  | S fuel =>
      match DIRECTIVE_SPECIAL_CHARS_REGEXP s with
      | Some (letter, rest) =>
          String (toUpperCase letter) (replace_from fuel rest)
      | None =>
          match s with
          | String c rest => String c (replace_from fuel rest)
          | EmptyString => EmptyString
          end
      end
  end.

Definition replace_special_chars (s : string) : string :=
  replace_from (String.length s) s.

Definition directiveNormalize (name : string) : string :=
  (* [name.replace(DIRECTIVE_PREFIX_REGEXP, '')] *)
  replace_special_chars (default name (DIRECTIVE_PREFIX_REGEXP name)).

(** ** [util.js]: strict equality

    [strictEquals] compares any two values; numbers are IEEE 754 doubles. *)
Inductive JsValue :=
  | JsUndefined
  | JsNull
  | JsBoolean (b : bool)
  | JsNumber (x : spec_float)
  | JsBigInt (z : Z)
  | JsString (s : string)
  | JsSymbol (id : nat)
  | JsObject (ref : nat).

Definition NaN : JsValue := JsNumber S754_nan.

(** [x === y]: values of different types differ; numbers are compared as
    doubles ([NaN] differs from every number, the two zeros are equal);
    objects and symbols are compared by identity. *)
Definition strict_equality (x y : JsValue) : bool :=
  match x, y with
  | JsUndefined, JsUndefined => true
  | JsNull, JsNull => true
  | JsBoolean a, JsBoolean b => Bool.eqb a b
  | JsNumber a, JsNumber b => SFeqb a b
  | JsBigInt a, JsBigInt b => (a =? b)%Z
  | JsString a, JsString b => String.eqb a b
  | JsSymbol a, JsSymbol b => (a =? b)%nat
  | JsObject a, JsObject b => (a =? b)%nat
  | _, _ => false
  end.

Definition strictEquals (val1 val2 : JsValue) : bool :=
  strict_equality val1 val2
  || (negb (strict_equality val1 val1) && negb (strict_equality val2 val2)).

(** ** [angular1.js]: the AngularJS global *)

Module angular1.

(** What the variable [angular] may hold: the placeholder object of the
    file, an AngularJS library object (with its [version] property),
    [undefined] or [null]. *)
Inductive AngularJS :=
  | NoNg
  | Library (ng : nat) (version : Value)
  | Undefined
  | Null.

(** The functions of an AngularJS library object that the file calls. *)
Inductive Method :=
  | Bootstrap
  | Module_
  | Element
  | CleanData
  | ResumeBootstrap
  | GetTestability.

(** The variables [angular] and [version]; what the library objects
    answer, and the calls they have received. *)
Record State := {
  angular : AngularJS;
  version : Value;
  answers : nat → Method → list Value → Value;
  calls : list (nat * Method * list Value);
}.

Definition Outcome : Type := (JsError + Value) * State.

Definition noNg : JsError := Error "AngularJS v1.x is not loaded!".

(** The property of [angular] that a call of a method reads first. *)
Definition property (m : Method) : string :=
  match m with
  | Bootstrap => "bootstrap"
  | Module_ => "module"
  | Element | CleanData => "element"
  | ResumeBootstrap => "resumeBootstrap"
  | GetTestability => "getTestability"
  end.

(** [angular.m(args)], for the current value of [angular]: every function
    of the placeholder is [noNg]. *)
Definition call (m : Method) (args : list Value) (s : State) : Outcome :=
  match angular s with
  | NoNg => (inl noNg, s)
  | Library ng _ =>
      (inr (answers s ng m args),
       {| angular := angular s; version := version s; answers := answers s;
          calls := (calls s ++ [(ng, m, args)])%list |})
  | Undefined =>
      (inl (TypeError ("Cannot read property '" +:+ property m
                       +:+ "' of undefined")), s)
  | Null =>
      (inl (TypeError ("Cannot read property '" +:+ property m
                       +:+ "' of null")), s)
  end.

(** Where the file is evaluated: no [window] at all (CommonJS), or a
    [window] that may have an own property [angular]. *)
Inductive Host :=
  | NoWindow
  | Window (angular : option AngularJS).

(** The evaluation of the file (lines 375-390 and the last line). *)
Definition load (host : Host) (answers : nat → Method → list Value → Value)
    : JsError + State :=
  let angular :=
    match host with
    | Window (Some ng) => ng
    | Window None => NoNg
    | NoWindow => NoNg     (* the [ReferenceError] is caught *)
    end in
  (* [export let version = angular.version;] *)
  match angular with
  | NoNg => inr {| angular := angular; version := VUndefined;
                   answers := answers; calls := [] |}
  | Library _ v => inr {| angular := angular; version := v;
                          answers := answers; calls := [] |}
  | Undefined => inl (TypeError "Cannot read property 'version' of undefined")
  | Null => inl (TypeError "Cannot read property 'version' of null")
  end.

Definition setAngularJSGlobal (ng : AngularJS) (s : State) : State :=
  {| angular := ng;
     (* [version = ng && ng.version;] *)
     version := match ng with
                | NoNg => VUndefined
                | Library _ v => v
                | Undefined => VUndefined
                | Null => VNull
                end;
     answers := answers s; calls := calls s |}.

Definition getAngularJSGlobal (s : State) : AngularJS := angular s.

Definition setAngularLib (ng : AngularJS) (s : State) : State :=
  setAngularJSGlobal ng s.

Definition getAngularLib (s : State) : AngularJS := getAngularJSGlobal s.

Definition bootstrap (e modules config : Value) : State → Outcome :=
  call Bootstrap [e; modules; config].

Definition module (prefix dependencies : Value) : State → Outcome :=
  call Module_ [prefix; dependencies].

Definition element (e : Value) : State → Outcome := call Element [e].

(** [element.cleanData] *)
Definition element_cleanData (nodes : Value) : State → Outcome :=
  call CleanData [nodes].

Definition resumeBootstrap : State → Outcome := call ResumeBootstrap [].

Definition getTestability (e : Value) : State → Outcome :=
  call GetTestability [e].

End angular1.

Section Bridge.
Context `{Constants}.

(** ** The AngularJS injector ([$injector], [$provide], [angular.module])

    AngularJS itself is a collaborator outside the sources; this is the
    part of its dependency-injection container that the sources use:
    [has], [get] (a service is instantiated on first use and cached),
    [$provide.constant], and the loading of a module (its registrations,
    then its configuration blocks). *)

Definition empty_injector : Ng1Injector :=
  {| providers := ∅; instanceCache := ∅ |}.

Definition ng1 (w : World) (i : IInjectorService) : Ng1Injector :=
  default empty_injector (injectors w !! i).

Definition set_ng1 (i : IInjectorService) (inj : Ng1Injector) : M unit :=
  modify (λ w, set_injectors (<[i := inj]> (injectors w)) w).

Definition isSome {A} (o : option A) : bool :=
  match o with Some _ => true | None => false end.

(** [$injector.has(key)] *)
Definition injector_has (i : IInjectorService) (key : string) : M bool :=
  gets (λ w, isSome (providers (ng1 w i) !! key)
             || isSome (instanceCache (ng1 w i) !! key)).

(** [$provide.constant(key, v)] *)
Definition provide_constant (i : IInjectorService) (key : string) (v : Value)
    : M unit :=
  inj ← gets (λ w, ng1 w i);
  set_ng1 i {| providers := <[key := PConstant v]> (providers inj);
               instanceCache := <[key := v]> (instanceCache inj) |}.

(** [$provide.factory(key, f)] *)
Definition provide_factory (i : IInjectorService) (key : string) (f : FactoryFn)
    : M unit :=
  inj ← gets (λ w, ng1 w i);
  set_ng1 i {| providers := <[key := PFactory f]> (providers inj);
               instanceCache := instanceCache inj |}.

Definition cache_instance (i : IInjectorService) (key : string) (v : Value)
    : M unit :=
  inj ← gets (λ w, ng1 w i);
  set_ng1 i {| providers := providers inj;
               instanceCache := <[key := v]> (instanceCache inj) |}.

(** *** The closures of [downgrade_module.js] that AngularJS calls *)

(** [bootstrapFn(angular1Providers)]: the promise it returns. *)
Definition call_bootstrapFn (lazyModuleName : string) (bootstrapFn : BootstrapFn)
    : M nat :=
  p ← new_promise match bootstrapFn with
                  | ResolvesImmediately i => Fulfilled (VModuleRef i)
                  | ResolvesLater => Pending []
                  end;
  emit (EvBootstrap lazyModuleName p);;
  mret p.

(** The factory registered under [lazyInjectorKey] (lines 124-130). *)
Definition lazyInjectorFactory (lazyModuleName : string) : M Value := λ w,
  match lazyInjector w !! lazyModuleName with
  | None =>
      Throw (Error ("Trying to get the Angular injector before bootstrapping the corresponding "
                    +:+ "Angular module.")) w
  | Some injector => Ok (VInjector injector) w
  end.

(** The factory registered under [lazyModuleRefKey] (lines 134-146).  The
    handler given to [then] refers to [result], the object under
    construction. *)
Definition lazyModuleRefFactory (lazyModuleName : string)
    (bootstrapFn : BootstrapFn) (injector : IInjectorService) : M Value :=
  setTempInjectorRef injector;;
  result ← gets (λ w, fresh (dom (lazyModuleRefs w)));
  p ← call_bootstrapFn lazyModuleName bootstrapFn;
  promise ← promise_then p (RBootstrapped lazyModuleName result);
  modify (λ w, set_lazyModuleRefs
                 (<[result := {| needsNgZone := true;
                                 lmr_injector := None;
                                 lmr_promise := Some promise |}]>
                    (lazyModuleRefs w)) w);;
  mret (VLazyModuleRef result).

(** The handler [ref => { ... }] of lines 139-143. *)
Definition bootstrapped (lazyModuleName : string) (result : nat) (ref : Value)
    : M Value :=
  match ref with
  | VModuleRef refInjector =>
      let injector := NgAdapterInjector refInjector in
      modify (λ w, set_lazyModuleRefs
                     (alter (λ r, {| needsNgZone := needsNgZone r;
                                     lmr_injector := Some injector;
                                     lmr_promise := lmr_promise r |})
                            result (lazyModuleRefs w)) w);;
      modify (λ w, set_lazyInjector
                     (<[lazyModuleName := injector]> (lazyInjector w)) w);;
      (* [injector.get($INJECTOR)]: the provider of ['$injector'] in
         [angular1Providers] is [injectorFactory] *)
      _ ← injectorFactory;
      mret (VInjector injector)
  | _ => throw (TypeError "Cannot read property 'injector'")
  end.

(** *** [$injector.get(key)]

    [fuel] bounds the depth of the dependency chain; AngularJS reports a
    chain that comes back to a service under construction as a circular
    dependency. *)
Fixpoint instantiate (fuel : nat) (i : IInjectorService) (key : string)
    : M Value := λ w,
  match instanceCache (ng1 w i) !! key with
  | Some v => Ok v w
  | None =>
      match providers (ng1 w i) !! key with
      | None => Throw (Error ("[$injector:unpr] Unknown provider: " +:+ key)) w
      | Some (PConstant v) => Ok v w
      | Some (PFactory f) =>
          match fuel with
          | 0 => Throw (Error ("[$injector:cdep] Circular dependency found: " +:+ key)) w
          | S fuel =>
              (v ← match f with
                   | FIdentity dep => instantiate fuel i dep
                   | FLazyInjector lazyModuleName =>
                       lazyInjectorFactory lazyModuleName
                   | FLazyModuleRef lazyModuleName bootstrapFn =>
                       lazyModuleRefFactory lazyModuleName bootstrapFn i
                   end;
               cache_instance i key v;;
               mret v) w
          end
      end
  end.

Definition injector_get (i : IInjectorService) (key : string) : M Value := λ w,
  instantiate (size (providers (ng1 w i))) i key w.

(** ** [util.js] *)

Definition controllerKey (name : string) : string :=
  "$" +:+ name +:+ "Controller".

(** The first line of a text: [text.split('\n')[0]]. *)
Fixpoint first_line (text : string) : string :=
  match text with
  | EmptyString => EmptyString
  | String c rest =>
      if Ascii.eqb c (Ascii.ascii_of_nat 10) then EmptyString
      else String c (first_line rest)
  end.

Definition getTypeName (type : ComponentType) : string :=
  if str_truthy (overriddenName type) then overriddenName type
  else if str_truthy (c_name type) then c_name type
  else first_line (c_toString type).

Definition getDowngradedModuleCount (i : IInjectorService) : M Value :=
  h ← injector_has i DOWNGRADED_MODULE_COUNT_KEY;
  if h : bool then injector_get i DOWNGRADED_MODULE_COUNT_KEY else mret (VNum 0).

Definition getUpgradeAppType (i : IInjectorService) : M Value :=
  h ← injector_has i UPGRADE_APP_TYPE_KEY;
  if h : bool then injector_get i UPGRADE_APP_TYPE_KEY else mret (VNum 0 (* None *)).

Definition unexpectedly_specified (attemptedAction : string) : string :=
  "Error while " +:+ attemptedAction
  +:+ ": 'downgradedModule' unexpectedly specified." +:+ newline
  +:+ "You should not specify a value for 'downgradedModule', unless you are downgrading "
  +:+ "more than one Angular module (via 'downgradeModule()').".

Definition not_specified (attemptedAction : string) : string :=
  "Error while " +:+ attemptedAction
  +:+ ": 'downgradedModule' not specified." +:+ newline
  +:+ "This application contains more than one downgraded Angular module, thus you need to "
  +:+ "always specify 'downgradedModule' when downgrading components and injectables.".

Definition unable_to_find (attemptedAction : string) : string :=
  "Error while " +:+ attemptedAction
  +:+ ": Unable to find the specified downgraded module." +:+ newline
  +:+ "Did you forget to downgrade an Angular module or include it in the AngularJS "
  +:+ "application?".

Definition not_a_valid_application (attemptedAction : string) : string :=
  "Error while " +:+ attemptedAction
  +:+ ": Not a valid '@angular/upgrade' application." +:+ newline
  +:+ "Did you forget to downgrade an Angular module or include it in the AngularJS "
  +:+ "application?".

Definition validateInjectionKey (i : IInjectorService)
    (downgradedModule injectionKey attemptedAction : string) : M unit :=
  upgradeAppType ← getUpgradeAppType i;
  downgradedModuleCount ← getDowngradedModuleCount i;
  (* Check for common errors. *)
  match upgradeAppType with
  | VNum 1 (* Dynamic *)
  | VNum 2 (* Static *) =>
      if str_truthy downgradedModule
      then throw (Error (unexpectedly_specified attemptedAction))
      else mret tt
  | VNum 3 (* Lite *) =>
      if negb (str_truthy downgradedModule) && js_ge_num downgradedModuleCount 2
      then throw (Error (not_specified attemptedAction))
      else
        h ← injector_has i injectionKey;
        if negb (h : bool)
        then throw (Error (unable_to_find attemptedAction))
        else mret tt
  | _ => throw (Error (not_a_valid_application attemptedAction))
  end.

(** *** The [ngModel] glue ([static/src/common/util.js])

    The model controller may be absent ([null] or [undefined]); the
    component is an object whose three properties hold any value.  Calls of
    the component's methods are recorded on the component. *)

Inductive BoundMethod :=
  | SetViewValueOf (ngModel : nat)    (* [ngModel.$setViewValue.bind(ngModel)] *)
  | SetTouchedOf (ngModel : nat).     (* [ngModel.$setTouched.bind(ngModel)] *)

Inductive RenderFn :=
  | RenderOther (f : nat)
  | RenderWriteValue (component ngModel : nat).
      (* [function () { component.writeValue(ngModel.$viewValue); }] *)

Record INgModelController := {
  nm_id : nat;
  nm_render : RenderFn;       (* [$render] *)
}.

Inductive ComponentCall :=
  | RegisterOnChange (fn : BoundMethod)
  | RegisterOnTouched (fn : BoundMethod).

Record ComponentInstance := {
  ci_id : nat;
  writeValue : Value;
  registerOnChange : Value;
  registerOnTouched : Value;
  ci_calls : list ComponentCall;
}.

Definition call_component (c : ComponentInstance) (call : ComponentCall)
    : ComponentInstance :=
  {| ci_id := ci_id c; writeValue := writeValue c;
     registerOnChange := registerOnChange c;
     registerOnTouched := registerOnTouched c;
     ci_calls := ci_calls c ++ [call] |}.

Definition supportsNgModel (component : ComponentInstance) : bool :=
  isFunction (writeValue component) && isFunction (registerOnChange component).

Definition hookupNgModel (ngModel : option INgModelController)
    (component : ComponentInstance)
    : option INgModelController * ComponentInstance :=
  match ngModel with
  | Some m =>
      if supportsNgModel component then
        let m' := {| nm_id := nm_id m;
                     nm_render := RenderWriteValue (ci_id component) (nm_id m) |} in
        let component :=
          call_component component (RegisterOnChange (SetViewValueOf (nm_id m))) in
        let component :=
          if isFunction (registerOnTouched component)
          then call_component component (RegisterOnTouched (SetTouchedOf (nm_id m)))
          else component in
        (Some m', component)
      else (ngModel, component)
  | None => (ngModel, component)
  end.

(** ** [downgrade_module.js] *)

(** [`${UPGRADE_MODULE_NAME}.lazy${uid}`]; the counter is a natural
    number, printed in decimal (JavaScript numbers are exact integers up
    to 2^53, far beyond any number of calls). *)
Definition lazyModuleNameOf (uid : N) : string :=
  UPGRADE_MODULE_NAME +:+ ".lazy" +:+ pretty uid.

(** The chainable registration methods of an AngularJS module:
    [constant] goes to the front of the queue, [factory] to its end. *)
Definition mod_constant (key : string) (v : Value) (m : IModule) : IModule :=
  {| m_name := m_name m; m_requires := m_requires m;
     m_invokeQueue := (key, PConstant v) :: m_invokeQueue m;
     m_configBlocks := m_configBlocks m |}.

Definition mod_factory (key : string) (f : FactoryFn) (m : IModule) : IModule :=
  {| m_name := m_name m; m_requires := m_requires m;
     m_invokeQueue := m_invokeQueue m ++ [(key, PFactory f)];
     m_configBlocks := m_configBlocks m |}.

Definition mod_config (c : ConfigFn) (m : IModule) : IModule :=
  {| m_name := m_name m; m_requires := m_requires m;
     m_invokeQueue := m_invokeQueue m;
     m_configBlocks := m_configBlocks m ++ [c] |}.

(** [angular.module(name, requires)] followed by the chained calls [chain]. *)
Definition angular_module (name : string) (requires : list string)
    (chain : IModule → IModule) : M unit :=
  modify (λ w, set_ng1Modules
                 (<[name := chain {| m_name := name; m_requires := requires;
                                     m_invokeQueue := []; m_configBlocks := [] |}]>
                    (ng1Modules w)) w).

Definition downgradeModule (moduleFactoryOrBootstrapFn : BootstrapSource)
    : M string :=
  (* [++moduleUid] *)
  modify (λ w, set_moduleUid (N.succ (moduleUid w)) w);;
  uid ← gets moduleUid;
  let lazyModuleName := lazyModuleNameOf uid in
  let lazyModuleRefKey := LAZY_MODULE_REF +:+ lazyModuleName in
  let lazyInjectorKey := INJECTOR_KEY +:+ lazyModuleName in
  let bootstrapFn :=
    match moduleFactoryOrBootstrapFn with
    | SrcFunction _ fn => fn
    | SrcModuleFactory bootstrapModuleFactory => bootstrapModuleFactory
    end in
  (* [let injector;] *)
  modify (λ w, set_lazyInjector (delete lazyModuleName (lazyInjector w)) w);;
  (* Create an ng1 module to bootstrap. *)
  angular_module lazyModuleName []
    (mod_config CfgCountDowngradedModule
     ∘ mod_factory lazyModuleRefKey (FLazyModuleRef lazyModuleName bootstrapFn)
     ∘ mod_factory LAZY_MODULE_REF (FIdentity lazyModuleRefKey)
     ∘ mod_factory lazyInjectorKey (FLazyInjector lazyModuleName)
     ∘ mod_factory INJECTOR_KEY (FIdentity lazyInjectorKey)
     ∘ mod_constant UPGRADE_APP_TYPE_KEY (VNum 3 (* Lite *)));;
  mret lazyModuleName.

(** The configuration block of lines 148-153. *)
Definition run_config (i : IInjectorService) (c : ConfigFn) : M unit :=
  match c with
  | CfgCountDowngradedModule =>
      n ← getDowngradedModuleCount i;
      provide_constant i DOWNGRADED_MODULE_COUNT_KEY (js_plus_one n)
  end.

(** Loading of modules by AngularJS: for each module its registrations,
    then its configuration blocks. *)
Definition run_invoke (i : IInjectorService) (item : string * Provider) : M unit :=
  match item.2 with
  | PConstant v => provide_constant i item.1 v
  | PFactory f => provide_factory i item.1 f
  end.

Definition loadModule (i : IInjectorService) (m : IModule) : M unit :=
  for_each (run_invoke i) (m_invokeQueue m);;
  for_each (run_config i) (m_configBlocks m).

Definition loadModules (i : IInjectorService) (names : list string) : M unit :=
  for_each (λ name,
              m ← gets (λ w, ng1Modules w !! name);
              match m with
              | Some m => loadModule i m
              | None => throw (Error ("[$injector:nomod] Module '" +:+ name
                                      +:+ "' is not available!"))
              end) names.

(** [n] calls of [downgradeModule] in a row; the names they return. *)
Fixpoint downgradeModules (srcs : list BootstrapSource) : M (list string) :=
  match srcs with
  | [] => mret []
  | src :: srcs =>
      name ← downgradeModule src;
      names ← downgradeModules srcs;
      mret (name :: names)
  end.

(** ** [downgrade_component.js] *)

(** *** [ParentInjectorPromise] *)

(** [element.data(key, value)] *)
Definition element_data (element : nat) (key : string) (v : Value) : M unit :=
  modify (λ w, set_elementData
                 (<[element := <[key := v]> (default ∅ (elementData w !! element))]>
                    (elementData w)) w).

Definition set_pip (this : nat) (o : ParentInjectorPromise) : M unit :=
  modify (λ w, set_parentInjectorPromises
                 (<[this := o]> (parentInjectorPromises w)) w).

Definition get_pip (this : nat) : M ParentInjectorPromise :=
  o ← gets (λ w, parentInjectorPromises w !! this);
  match o with
  | Some o => mret o
  | None => throw (TypeError "not a ParentInjectorPromise")
  end.

(** [callback(injector)]; every call is recorded. *)
Definition invoke_callback (injector : Injector) (callback : Callback) : M unit :=
  emit (EvCallback callback injector);;
  match callback with
  | CbResolve p => resolve_promise p (VInjector injector)
  | CbOpaque _ => mret tt
  end.

(** [new ParentInjectorPromise(element)] *)
Definition ParentInjectorPromise_new (element : nat) : M nat :=
  this ← gets (λ w, fresh (dom (parentInjectorPromises w)));
  let injectorKey := controllerKey INJECTOR_KEY in
  set_pip this {| pip_element := Some element; pip_injectorKey := injectorKey;
                  pip_callbacks := []; pip_injector := None |};;
  (* Store the promise on the element. *)
  element_data element injectorKey (VParentInjectorPromise this);;
  mret this.

Definition ParentInjectorPromise_then (this : nat) (callback : Callback) : M unit :=
  self ← get_pip this;
  match pip_injector self with
  | Some injector => invoke_callback injector callback
  | None =>
      set_pip this {| pip_element := pip_element self;
                      pip_injectorKey := pip_injectorKey self;
                      pip_callbacks := pip_callbacks self ++ [callback];
                      pip_injector := pip_injector self |}
  end.

Definition ParentInjectorPromise_resolve (this : nat) (injector : Injector) : M unit :=
  self ← get_pip this;
  (* [this.injector = injector;] *)
  set_pip this {| pip_element := pip_element self;
                  pip_injectorKey := pip_injectorKey self;
                  pip_callbacks := pip_callbacks self;
                  pip_injector := Some injector |};;
  (* Store the real injector on the element. *)
  match pip_element self with
  | Some element => element_data element (pip_injectorKey self) (VInjector injector)
  | None => throw (TypeError "Cannot read property 'data' of null")
  end;;
  (* Release the element to prevent memory leaks. *)
  set_pip this {| pip_element := None;
                  pip_injectorKey := pip_injectorKey self;
                  pip_callbacks := pip_callbacks self;
                  pip_injector := Some injector |};;
  (* Run the queued callbacks. *)
  for_each (invoke_callback injector) (pip_callbacks self);;
  set_pip this {| pip_element := None;
                  pip_injectorKey := pip_injectorKey self;
                  pip_callbacks := [];
                  pip_injector := Some injector |}.

(** [isFunction(obj.then)]; reading a property of [undefined] or [null]
    throws. *)
Definition isThenable (obj : Value) : M bool :=
  match obj with
  | VUndefined | VNull => throw (TypeError "Cannot read property 'then'")
  | _ => mret (has_then obj)
  end.

(** *** The directive *)

Definition get_directive (d : nat) : M Directive :=
  o ← gets (λ w, directives w !! d);
  match o with
  | Some o => mret o
  | None => throw (TypeError "not a directive")
  end.

Definition get_frame (f : nat) : M LinkFrame :=
  o ← gets (λ w, frames w !! f);
  match o with
  | Some o => mret o
  | None => throw (TypeError "not a link frame")
  end.

(** [directiveFactory($compile, $injector, $parse)] up to the [return]:
    the variables that the returned directive closes over. *)
Definition directiveFactory (info : DowngradeInfo) (injector : IInjectorService)
    : M nat :=
  appType ← getUpgradeAppType injector;
  let isNgUpgradeLite := js_strict_eq_num appType 3 (* Lite *) in
  (* When downgrading multiple modules, special handling is needed wrt injectors. *)
  hasMultipleDowngradedModules ←
    (if isNgUpgradeLite
     then n ← getDowngradedModuleCount injector; mret (js_gt_num n 1)
     else mret false);
  d ← gets (λ w, fresh (dom (directives w)));
  modify (λ w, set_directives
                 (<[d := {| d_info := info; d_injector := injector;
                            isNgUpgradeLite := isNgUpgradeLite;
                            hasMultipleDowngradedModules := hasMultipleDowngradedModules;
                            ngZone := None |}]> (directives w)) w);;
  mret d.

(** [lazyModuleRef.injector || lazyModuleRef.promise] *)
Definition injector_or_promise (lazyModuleRef : Value) : M Value :=
  match lazyModuleRef with
  | VUndefined | VNull => throw (TypeError "Cannot read property 'injector'")
  | VLazyModuleRef r =>
      o ← gets (λ w, lazyModuleRefs w !! r);
      match o with
      | Some ref =>
          mret (js_or (from_option VInjector VUndefined (lmr_injector ref))
                      (from_option VPromise VUndefined (lmr_promise ref)))
      | None => mret VUndefined
      end
  | _ => mret VUndefined
  end.

(** Lines 526-533 of [link]: the module injector. *)
Definition moduleInjectorFor (d : Directive) (parentInjector : Value) : M Value :=
  if negb (truthy parentInjector) || hasMultipleDowngradedModules d then
    let downgradedModule := str_or_empty (downgradedModule (d_info d)) in
    let lazyModuleRefKey := LAZY_MODULE_REF +:+ downgradedModule in
    let attemptedAction :=
      "instantiating component '" +:+ getTypeName (component (d_info d)) +:+ "'" in
    validateInjectionKey (d_injector d) downgradedModule lazyModuleRefKey
                         attemptedAction;;
    lazyModuleRef ← injector_get (d_injector d) lazyModuleRefKey;
    injector_or_promise lazyModuleRef
  else mret VUndefined.

(** Lines 567-571 of [link]. *)
Definition finalParentInjector (parentInjector moduleInjector : Value) : Value :=
  js_or parentInjector moduleInjector.

Definition finalModuleInjector (parentInjector moduleInjector : Value) : Value :=
  js_or moduleInjector parentInjector.

(** Modelled from the spec: the downgrade adapter is not part of the
    sources at hand.  The directive calls its operations in a fixed order
    (section 4.6); each call is recorded, and [getInjector()] is the
    injector that owns the created component. *)
Definition adapter (frame : LinkFrame) (d : Directive) (injector moduleInjector : Injector)
    : M Injector :=
  let element := lf_element frame in
  emit (EvNewAdapter element (lf_attrs frame) (lf_scope frame) (lf_ngModel frame)
                     injector (d_injector d) moduleInjector (component (d_info d)));;
  emit (EvCompileContents element);;
  emit (EvCreateComponent element);;
  emit (EvSetupInputs element (isNgUpgradeLite d) (propagateDigest (d_info d)));;
  emit (EvSetupOutputs element);;
  emit (EvRegisterCleanup element);;
  mret (ComponentInjector element injector).

Definition doDowngrade (f : nat) (injector moduleInjector : Value) : M unit :=
  frame ← get_frame f;
  d ← get_directive (lf_directive frame);
  match moduleInjector with
  | VInjector m =>
      (* [moduleInjector.get(ComponentFactoryResolver)
            .resolveComponentFactory(info.component)] *)
      componentFactory ← gets (λ w, resolveComponentFactory w m (component (d_info d)));
      if negb (componentFactory : bool) then
        throw (Error ("Expecting ComponentFactory for: "
                      +:+ getTypeName (component (d_info d))))
      else
        injectorPromise ← ParentInjectorPromise_new (lf_element frame);
        match injector with
        | VInjector p =>
            facadeInjector ← adapter frame d p m;
            ParentInjectorPromise_resolve injectorPromise facadeInjector;;
            frame ← get_frame f;
            if ranAsync frame then
              (* If this is run async, it is possible that it is not run inside a
                 digest and initial input values will not be detected. *)
              emit (EvEvalAsync (lf_scope frame))
            else mret tt
        | _ => throw (TypeError "parent injector is not an Injector")
        end
  | _ => throw (TypeError "moduleInjector.get is not a function")
  end.

(** [ngZone.run(cb)]: the callback runs inside the Angular zone. *)
Definition ngZone_run (zone : Injector) (cb : M unit) : M unit := λ w,
  match cb (set_inAngularZone true (set_log (log w ++ [EvNgZoneRun zone]) w)) with
  | Ok a w' => Ok a (set_inAngularZone (inAngularZone w) w')
  | Throw e w' => Throw e (set_inAngularZone (inAngularZone w) w')
  end.

(** [wrapCallback(cb)()] *)
Definition wrapCallback (d : nat) (cb : M unit) : M unit :=
  dir ← get_directive d;
  if negb (isNgUpgradeLite dir) then cb
  else
    inZone ← gets inAngularZone;
    if inZone : bool then cb
    else match ngZone dir with
         | Some zone => ngZone_run zone cb
         | None => throw (TypeError "Cannot read property 'run' of undefined")
         end.

Definition with_ngZone (zone : Injector) (d : Directive) : Directive :=
  {| d_info := d_info d; d_injector := d_injector d;
     isNgUpgradeLite := isNgUpgradeLite d;
     hasMultipleDowngradedModules := hasMultipleDowngradedModules d;
     ngZone := Some zone |}.

Definition downgradeFn (f : nat) (pInjector mInjector : Value) : M unit :=
  frame ← get_frame f;
  d ← get_directive (lf_directive frame);
  if negb (isNgUpgradeLite d) then doDowngrade f pInjector mInjector
  else
    match ngZone d with
    | Some _ => mret tt
    | None =>
        (* [ngZone = pInjector.get(NgZone);] *)
        match pInjector with
        | VInjector p =>
            modify (λ w, set_directives
                           (<[lf_directive frame := with_ngZone p d]>
                              (directives w)) w)
        | _ => throw (TypeError "get is not a function")
        end
    end;;
    wrapCallback (lf_directive frame) (doDowngrade f pInjector mInjector).

(** Lines 600-606 of [link]: now, or when both injectors are there. *)
Definition link_dispatch (f : nat) (finalParentInjector finalModuleInjector : Value)
    : M unit :=
  thenable ← (t ← isThenable finalParentInjector;
              if t : bool then mret true else isThenable finalModuleInjector);
  if thenable : bool then
    all ← Promise_all finalParentInjector finalModuleInjector;
    _ ← promise_then all (RDowngrade f);
    mret tt
  else downgradeFn f finalParentInjector finalModuleInjector.

Definition new_frame (directive scope element attrs : nat) (ngModel : Value)
    (ranAsync : bool) : LinkFrame :=
  {| lf_directive := directive; lf_scope := scope; lf_element := element;
     lf_attrs := attrs; lf_ngModel := ngModel; ranAsync := ranAsync |}.

Definition link (directive scope element attrs : nat) (required : Value * Value)
    : M unit :=
  d ← get_directive directive;
  let ngModel := required.2 in
  let parentInjector := required.1 in
  (* [let moduleInjector = undefined; let ranAsync = false;] *)
  f ← gets (λ w, fresh (dom (frames w)));
  let frame := new_frame directive scope element attrs ngModel in
  modify (λ w, set_frames (<[f := frame false]> (frames w)) w);;
  moduleInjector ← moduleInjectorFor d parentInjector;
  link_dispatch f (finalParentInjector parentInjector moduleInjector)
                  (finalModuleInjector parentInjector moduleInjector);;
  (* [ranAsync = true;] *)
  modify (λ w, set_frames (<[f := frame true]> (frames w)) w).

(** ** Jobs of the microtask queue *)

(** The call of a fulfilment handler with the value of the promise. *)
Definition run_reaction (r : Reaction) (v : Value) : M Value :=
  match r with
  | RBootstrapped lazyModuleName result => bootstrapped lazyModuleName result v
  | RAllElement all index => all_element all index v;; mret VUndefined
  | RDowngrade f =>
      match v with
      | VArray2 pInjector mInjector =>
          downgradeFn f pInjector mInjector;; mret VUndefined
      | _ => throw (TypeError "undefined is not iterable")
      end
  | RResolve p => resolve_promise p v;; mret VUndefined
  end.

(** A handler that throws rejects the promise that [then] returned: that
    promise stays unfulfilled, and the rejection is recorded. *)
Definition run_job (j : Job) : M unit := λ w,
  match j with
  | JReaction r derived v =>
      match run_reaction r v w with
      | Ok res w' => resolve_promise derived res w'
      | Throw e w' => emit (EvRejected derived e) w'
      end
  | JResolveThenable p thenable =>
      match match thenable with
            | VPromise q => (_ ← promise_then q (RResolve p); mret tt) w
            | VParentInjectorPromise l =>
                ParentInjectorPromise_then l (CbResolve p) w
            | _ => Ok tt w
            end with
      | Ok _ w' => Ok tt w'
      | Throw e w' => emit (EvRejected p e) w'
      end
  end.

(** The microtask checkpoint: jobs run in order until the queue is empty
    (at most [fuel] of them). *)
Fixpoint run_microtasks (fuel : nat) : M unit := λ w,
  match fuel, microtasks w with
  | S fuel, j :: rest =>
      (run_job j;; run_microtasks fuel) (set_microtasks rest w)
  | _, _ => Ok tt w
  end.

(** ** [angular1_providers.js]: the providers given to the Angular module *)











End Bridge.

(** ** A concrete application

    The closed examples below use the names that the Angular sources give
    to the constants, one AngularJS injector (number 0) and one downgraded
    component. *)
Definition angular_constants : Constants :=
  {| UPGRADE_MODULE_NAME := "$$UpgradeModule";
     LAZY_MODULE_REF := "$$angularLazyModuleRef";
     INJECTOR_KEY := "$$angularInjector";
     DOWNGRADED_MODULE_COUNT_KEY := "$$angularDowngradedModuleCount";
     UPGRADE_APP_TYPE_KEY := "$$angularUpgradeAppType" |}.

Definition empty_world : World :=
  {| tempInjectorRef := None; moduleUid := 0; lazyInjector := ∅;
     ng1Modules := ∅; injectors := ∅; lazyModuleRefs := ∅; promises := ∅;
     joins := ∅; parentInjectorPromises := ∅; elementData := ∅;
     resolveComponentFactory := λ _ _, true;
     directives := ∅; frames := ∅; microtasks := [];
     inAngularZone := false; log := [] |}.

Section Scenario.
Local Existing Instance angular_constants.

Definition heroes : DowngradeInfo :=
  {| component := {| overriddenName := ""; c_name := "Heroes";
                     c_toString := "class Heroes {}" |};
     downgradedModule := None;
     propagateDigest := None |}.

(** One lazy module is registered and loaded; the directive of the
    component is created. *)
Definition one_module (fn : BootstrapFn) : M nat :=
  name ← downgradeModule (SrcFunction 0 fn);
  loadModules 0 [name];;
  directiveFactory heroes 0.

(** ... and the component is instantiated on element 2, in scope 1, with
    no ancestor injector and no model controller. *)
Definition first_link (fn : BootstrapFn) : M nat :=
  d ← one_module fn;
  link d 1 2 3 (VNull, VNull);;
  mret d.

(** Two lazy modules are registered and loaded. *)
Definition two_modules : M (list string) :=
  names ← downgradeModules [SrcFunction 0 ResolvesLater;
                            SrcModuleFactory ResolvesLater];
  loadModules 0 names;;
  mret names.

(** An application of [UpgradeModule]: the static mode. *)
Definition static_application : M unit :=
  provide_constant 0 UPGRADE_APP_TYPE_KEY (VNum 2).

(** The world in which the first component is linked, its directive and
    the frame of its [link]. *)
Definition linking_world (fn : BootstrapFn) : World :=
  world_of (one_module fn empty_world).

Definition heroes_directive : Directive :=
  {| d_info := heroes; d_injector := 0; isNgUpgradeLite := true;
     hasMultipleDowngradedModules := false; ngZone := None |}.




Definition resolved_fn : BootstrapFn := ResolvesImmediately (ModuleInjector 7).


(** The same world, but no module declares the component. *)
Definition undeclared_world : World :=
  let w := linking_world ResolvesLater in
  {| tempInjectorRef := tempInjectorRef w; moduleUid := moduleUid w;
     lazyInjector := lazyInjector w; ng1Modules := ng1Modules w;
     injectors := injectors w; lazyModuleRefs := lazyModuleRefs w;
     promises := promises w; joins := joins w;
     parentInjectorPromises := parentInjectorPromises w;
     elementData := elementData w;
     resolveComponentFactory := λ _ _, false;
     directives := directives w; frames := frames w;
     microtasks := microtasks w; inAngularZone := inAngularZone w;
     log := log w |}.

End Scenario.

(** ** The vocabulary of the properties *)

Section Vocabulary.
Context `{Constants}.

(** The messages of the two errors about injectors. *)
Definition before_set_message : string :=
  "Trying to get the AngularJS injector before it being set.".

(** The condition under which [hookupNgModel] does anything. *)
Definition wires (ngModel : option INgModelController)
    (component : ComponentInstance) : bool :=
  isSome ngModel && isFunction (writeValue component)
  && isFunction (registerOnChange component).

Definition before_bootstrap_message : string :=
  "Trying to get the Angular injector before bootstrapping the corresponding "
  +:+ "Angular module.".

(** The names returned by [n] calls made when the counter is [u]. *)
Definition names_from (u : N) (n : nat) : list string :=
  (λ k, lazyModuleNameOf (u + N.of_nat k)) <$> seq 1 n.

(** The shape of a module registered by [downgradeModule]. *)
Definition is_lazy_module (m : IModule) : Prop :=
  ∃ name fn,
    m_invokeQueue m
      = [ (UPGRADE_APP_TYPE_KEY, PConstant (VNum 3));
          (INJECTOR_KEY, PFactory (FIdentity (INJECTOR_KEY +:+ name)));
          (INJECTOR_KEY +:+ name, PFactory (FLazyInjector name));
          (LAZY_MODULE_REF, PFactory (FIdentity (LAZY_MODULE_REF +:+ name)));
          (LAZY_MODULE_REF +:+ name, PFactory (FLazyModuleRef name fn)) ]
    ∧ m_configBlocks m = [CfgCountDowngradedModule].

(** [name] is registered as such a module. *)
Definition registered_lazy (w : World) (name : string) : Prop :=
  ∃ m, ng1Modules w !! name = Some m ∧ is_lazy_module m.

(** The count key is not one of the other keys written by a lazy module. *)
Definition count_key_distinct : Prop :=
  DOWNGRADED_MODULE_COUNT_KEY ≠ UPGRADE_APP_TYPE_KEY
  ∧ DOWNGRADED_MODULE_COUNT_KEY ≠ INJECTOR_KEY
  ∧ DOWNGRADED_MODULE_COUNT_KEY ≠ LAZY_MODULE_REF
  ∧ (∀ s, DOWNGRADED_MODULE_COUNT_KEY ≠ INJECTOR_KEY +:+ s)
  ∧ (∀ s, DOWNGRADED_MODULE_COUNT_KEY ≠ LAZY_MODULE_REF +:+ s).

(** The container [i] records the count [c]; no record stands for zero. *)
Definition count_is (i : IInjectorService) (w : World) (c : Z) : Prop :=
  (c = 0%Z
   ∧ providers (ng1 w i) !! DOWNGRADED_MODULE_COUNT_KEY = None
   ∧ instanceCache (ng1 w i) !! DOWNGRADED_MODULE_COUNT_KEY = None)
  ∨ instanceCache (ng1 w i) !! DOWNGRADED_MODULE_COUNT_KEY = Some (VNum c).

(** Operations on native promises touch the promise store and the
    microtask queue only. *)
Definition quiet (w w' : World) : Prop :=
  log w' = log w
  ∧ parentInjectorPromises w' = parentInjectorPromises w
  ∧ elementData w' = elementData w
  ∧ frames w' = frames w
  ∧ directives w' = directives w
  ∧ joins w' = joins w
  ∧ inAngularZone w' = inAngularZone w
  ∧ resolveComponentFactory w' = resolveComponentFactory w.

(** The calls of the callbacks of a queue, in order. *)
Definition callback_events (injector : Injector) (callbacks : list Callback)
    : list Event :=
  (λ cb, EvCallback cb injector) <$> callbacks.

(** What a lookup in the AngularJS container leaves as it is. *)
Definition di_frame (w w' : World) : Prop :=
  directives w' = directives w
  ∧ frames w' = frames w
  ∧ parentInjectorPromises w' = parentInjectorPromises w
  ∧ elementData w' = elementData w
  ∧ joins w' = joins w
  ∧ inAngularZone w' = inAngularZone w
  ∧ resolveComponentFactory w' = resolveComponentFactory w.

(** A computation that stays within [di_frame]. *)
Definition preserves {A} (m : M A) : Prop :=
  ∀ w, di_frame w (world_of (m w)).

(** The calls that the adapter receives for one element, in order. *)
Definition adapter_events (frame : LinkFrame) (d : Directive)
    (injector moduleInjector : Injector) : list Event :=
  [ EvNewAdapter (lf_element frame) (lf_attrs frame) (lf_scope frame)
                 (lf_ngModel frame) injector (d_injector d) moduleInjector
                 (component (d_info d));
    EvCompileContents (lf_element frame);
    EvCreateComponent (lf_element frame);
    EvSetupInputs (lf_element frame) (isNgUpgradeLite d) (propagateDigest (d_info d));
    EvSetupOutputs (lf_element frame);
    EvRegisterCleanup (lf_element frame) ].

(** The deferred evaluation scheduled after the creation, if any. *)
Definition evalAsync_events (frame : LinkFrame) : list Event :=
  if ranAsync frame then [EvEvalAsync (lf_scope frame)] else [].

(** The entry into the Angular zone, if any. *)
Definition zone_events (d : Directive) (pInjector : Injector) (inZone : bool)
    : list Event :=
  if isNgUpgradeLite d && negb inZone
  then [EvNgZoneRun (default pInjector (ngZone d))]
  else [].

(** All that the creation of one component records. *)
Definition creation_events (frame : LinkFrame) (d : Directive)
    (pInjector mInjector : Injector) (inZone : bool) : list Event :=
  zone_events d pInjector inZone ++ adapter_events frame d pInjector mInjector
  ++ evalAsync_events frame.




(** The number of deferred evaluations scheduled on [scope]. *)
Fixpoint evalAsync_calls (scope : nat) (l : list Event) : nat :=
  match l with
  | [] => 0
  | EvEvalAsync s :: l =>
      (if decide (s = scope) then 1 else 0) + evalAsync_calls scope l
  | _ :: l => evalAsync_calls scope l
  end.

(** A computation that leaves the frames of [link] as they are. *)
Definition keeps_frames {A} (m : M A) : Prop :=
  ∀ w, frames (world_of (m w)) = frames w.

(** Every character of a text satisfies [P]. *)
Fixpoint string_forall (P : ascii → bool) (s : string) : bool :=
  match s with
  | EmptyString => true
  | String c s => P c && string_forall P s
  end.

Definition ascii_only (s : string) : bool :=
  string_forall (λ c, (nat_of_ascii c <? 128)%nat) s.

Fixpoint string_toUpperCase (s : string) : string :=
  match s with
  | EmptyString => EmptyString
  | String c s => String (toUpperCase c) (string_toUpperCase s)
  end.

(** The words [x] and [data], in any case. *)
Definition is_prefix_word (p : string) : Prop :=
  string_toUpperCase p = "X" ∨ string_toUpperCase p = "DATA".

(** A text that is empty or starts with a line terminator. *)
Definition ends_line (s : string) : bool :=
  match s with
  | EmptyString => true
  | String c _ => is_line_terminator c
  end.

(** The last character of [String c s]. *)
Fixpoint last_char (c : ascii) (s : string) : ascii :=
  match s with
  | EmptyString => c
  | String c s => last_char c s
  end.

(** Every special character of a text stands at the end of a line. *)
Fixpoint tidy (s : string) : bool :=
  match s with
  | EmptyString => true
  | String c rest => (if is_special c then ends_line rest else true) && tidy rest
  end.

(** Two doubles are the same number: [NaN] is no number, the two zeros are
    one. *)
Definition same_number (x y : spec_float) : Prop :=
  match x, y with
  | S754_zero _, S754_zero _ => True
  | S754_infinity s1, S754_infinity s2 => s1 = s2
  | S754_finite s1 m1 e1, S754_finite s2 m2 e2 => s1 = s2 ∧ m1 = m2 ∧ e1 = e2
  | _, _ => False
  end.

Definition same_value (x y : JsValue) : Prop :=
  match x, y with
  | JsNumber a, JsNumber b => same_number a b
  | JsNumber _, _ | _, JsNumber _ => False
  | _, _ => x = y
  end.

(** [f] is the entry point of [angular1.js] that calls method [m], applied
    to [args]. *)
Definition is_entry_point (f : angular1.State → angular1.Outcome)
    (m : angular1.Method) (args : list Value) : Prop :=
  match m, args with
  | angular1.Bootstrap, [e; modules; config] =>
      f = angular1.bootstrap e modules config
  | angular1.Module_, [prefix; dependencies] =>
      f = angular1.module prefix dependencies
  | angular1.Element, [e] => f = angular1.element e
  | angular1.CleanData, [nodes] => f = angular1.element_cleanData nodes
  | angular1.ResumeBootstrap, [] => f = angular1.resumeBootstrap
  | angular1.GetTestability, [e] => f = angular1.getTestability e
  | _, _ => False
  end.

(** What registering and loading modules leaves as it is: nothing is
    bootstrapped. *)
Definition no_bootstrap (w w' : World) : Prop :=
  log w' = log w
  ∧ promises w' = promises w
  ∧ lazyModuleRefs w' = lazyModuleRefs w
  ∧ microtasks w' = microtasks w
  ∧ tempInjectorRef w' = tempInjectorRef w
  ∧ directives w' = directives w.

(** The keys that lazy modules write are apart from each other. *)
Definition keys_apart : Prop :=
  count_key_distinct
  ∧ (∀ s, UPGRADE_APP_TYPE_KEY ≠ INJECTOR_KEY +:+ s)
  ∧ (∀ s, UPGRADE_APP_TYPE_KEY ≠ LAZY_MODULE_REF +:+ s)
  ∧ (∀ s s', INJECTOR_KEY +:+ s ≠ LAZY_MODULE_REF +:+ s').

(** The registrations of the lazy module [name] with bootstrap function
    [fn], in the order in which AngularJS runs them. *)
Definition lazy_invokeQueue (name : string) (fn : BootstrapFn)
    : list (string * Provider) :=
  [ (UPGRADE_APP_TYPE_KEY, PConstant (VNum 3));
    (INJECTOR_KEY, PFactory (FIdentity (INJECTOR_KEY +:+ name)));
    (INJECTOR_KEY +:+ name, PFactory (FLazyInjector name));
    (LAZY_MODULE_REF, PFactory (FIdentity (LAZY_MODULE_REF +:+ name)));
    (LAZY_MODULE_REF +:+ name, PFactory (FLazyModuleRef name fn)) ].

(** The directive after [downgradeFn]: in Lite mode its zone is the one
    it had, or the one of the parent injector when it had none. *)
Definition zoned (p : Injector) (d : Directive) : Directive :=
  if isNgUpgradeLite d then with_ngZone (default p (ngZone d)) d else d.

End Vocabulary.

(** * Properties *)

(** Unfolding of the monad. *)
Ltac munfold :=
  unfold mbind, M_bind, mret, M_ret, gets, modify, throw, emit in *.

Section Properties.
Context `{Constants}.

(** ** The hand-off cell *)

Lemma injectorFactory_empty w :
  tempInjectorRef w = None →
  injectorFactory w = Throw (Error before_set_message) w.
Proof. intros Hw. unfold injectorFactory. by rewrite Hw. Qed.

(** C5: [injectorFactory] throws exactly when the slot is empty; after
    [setTempInjectorRef(i)] a read returns [i] and empties the slot, so
    that the next read throws again. *)
Theorem handoff_cell_read_once (w : World) :
  (tempInjectorRef w = None ↔
     injectorFactory w = Throw (Error before_set_message) w)
  ∧ (∀ i, ∃ w1 w2,
       setTempInjectorRef i w = Ok tt w1
       ∧ injectorFactory w1 = Ok i w2
       ∧ tempInjectorRef w2 = None
       ∧ injectorFactory w2 = Throw (Error before_set_message) w2).
Proof.
  split.
  - split; [apply injectorFactory_empty|].
    unfold injectorFactory. by destruct (tempInjectorRef w).
  - intros i. eexists _, _. repeat split.
Qed.

(** ** The validation helper *)

(** The helper first reads the application type and the module count. *)
Lemma validateInjectionKey_reads i dm key action w t w1 n w2 :
  getUpgradeAppType i w = Ok t w1 →
  getDowngradedModuleCount i w1 = Ok n w2 →
  validateInjectionKey i dm key action w =
    match t with
    | VNum 1 | VNum 2 =>
        if str_truthy dm then Throw (Error (unexpectedly_specified action)) w2
        else Ok tt w2
    | VNum 3 =>
        if negb (str_truthy dm) && js_ge_num n 2
        then Throw (Error (not_specified action)) w2
        else if isSome (providers (ng1 w2 i) !! key)
                || isSome (instanceCache (ng1 w2 i) !! key)
        then Ok tt w2
        else Throw (Error (unable_to_find action)) w2
    | _ => Throw (Error (not_a_valid_application action)) w2
    end.
Proof.
  intros Ht Hn. unfold validateInjectionKey.
  unfold mbind at 1, M_bind at 1. rewrite Ht.
  unfold mbind at 1, M_bind at 1. rewrite Hn.
  destruct t as [| |[|[[?|?|]|[?|?|]|]|]| | | | | | | | |]; try reflexivity.
  - destruct (negb (str_truthy dm) && js_ge_num n 2); [reflexivity|].
    unfold mbind, M_bind, injector_has, gets.
    by destruct (_ || _).
  - destruct (str_truthy dm); reflexivity.
  - destruct (str_truthy dm); reflexivity.
Qed.

(** C6: in Lite mode (application type 3) the helper throws when no module
    name is given and at least two modules are counted; it throws when the
    container does not have the key; otherwise (a module name with an
    existing key, or no name, fewer than two modules and an existing key)
    it returns. *)
Theorem validateInjectionKey_lite i dm key action w w1 n w2
    (Htype : getUpgradeAppType i w = Ok (VNum 3) w1)
    (Hcount : getDowngradedModuleCount i w1 = Ok n w2) :
  let has := isSome (providers (ng1 w2 i) !! key)
             || isSome (instanceCache (ng1 w2 i) !! key) in
  (dm = "" → js_ge_num n 2 = true →
     validateInjectionKey i dm key action w
       = Throw (Error (not_specified action)) w2)
  ∧ (has = false →
       ∃ e, validateInjectionKey i dm key action w = Throw e w2)
  ∧ (has = false → (dm ≠ "" ∨ js_ge_num n 2 = false) →
       validateInjectionKey i dm key action w
         = Throw (Error (unable_to_find action)) w2)
  ∧ (has = true → (dm ≠ "" ∨ js_ge_num n 2 = false) →
       validateInjectionKey i dm key action w = Ok tt w2).
Proof.
  intros has.
  rewrite (validateInjectionKey_reads _ _ _ _ _ _ _ _ _ Htype Hcount).
  fold has.
  assert (Hdm : (dm ≠ "" ∨ js_ge_num n 2 = false) →
                negb (str_truthy dm) && js_ge_num n 2 = false).
  { intros [Hne|Hlt]; [|by rewrite Hlt, andb_false_r].
    destruct dm; [done|reflexivity]. }
  repeat split.
  - intros -> Hge. simpl. by rewrite Hge.
  - intros Hhas. rewrite Hhas.
    destruct (negb (str_truthy dm) && js_ge_num n 2); eauto.
  - intros Hhas Hc. by rewrite (Hdm Hc), Hhas.
  - intros Hhas Hc. by rewrite (Hdm Hc), Hhas.
Qed.

(** C7: in the Dynamic and Static modes (application types 1 and 2) the
    helper throws exactly when a module name is given; with the empty name
    it returns, whether or not the key exists. *)
Theorem validateInjectionKey_legacy i dm key action w t w1 n w2
    (Hmode : t = VNum 1 ∨ t = VNum 2)
    (Htype : getUpgradeAppType i w = Ok t w1)
    (Hcount : getDowngradedModuleCount i w1 = Ok n w2) :
  (dm ≠ "" ↔
     validateInjectionKey i dm key action w
       = Throw (Error (unexpectedly_specified action)) w2)
  ∧ (dm = "" ↔ validateInjectionKey i dm key action w = Ok tt w2).
Proof.
  rewrite (validateInjectionKey_reads _ _ _ _ _ _ _ _ _ Htype Hcount).
  destruct Hmode as [-> | ->]; destruct dm; simpl; repeat split;
    congruence.
Qed.

(** ** The [ngModel] glue *)

(** C10: [hookupNgModel] wires the controller exactly when the controller
    is present and the component has functions [writeValue] and
    [registerOnChange]: then [$render] is replaced, the change callback is
    registered, and the touched callback is registered only when
    [registerOnTouched] is a function.  In every other case both arguments
    come back as they were. *)
Theorem hookupNgModel_wires_exactly ngModel component :
  (wires ngModel component = true ↔
     ∃ m,
       ngModel = Some m
       ∧ (hookupNgModel ngModel component).1
           = Some {| nm_id := nm_id m;
                     nm_render := RenderWriteValue (ci_id component) (nm_id m) |}
       ∧ ci_calls (hookupNgModel ngModel component).2
           = (ci_calls component
              ++ RegisterOnChange (SetViewValueOf (nm_id m))
              :: (if isFunction (registerOnTouched component)
                  then [RegisterOnTouched (SetTouchedOf (nm_id m))]
                  else []))%list)
  ∧ (wires ngModel component = false ↔
       hookupNgModel ngModel component = (ngModel, component)).
Proof.
  unfold wires, hookupNgModel, supportsNgModel.
  destruct ngModel as [m|]; simpl.
  - destruct (isFunction (writeValue component)),
             (isFunction (registerOnChange component)); simpl.
    + split.
      * split; [intros _|done]. exists m. split; [done|].
        destruct (isFunction (registerOnTouched component)); simpl;
          (split; [done|]); by rewrite <- ?app_assoc.
      * split; [done|]. intros Heq.
        apply (f_equal (λ x, length (ci_calls x.2))) in Heq. revert Heq.
        destruct (isFunction (registerOnTouched component)); simpl;
          rewrite ?length_app; simpl; lia.
    + split; [|done]. split; [done|]. intros (? & _ & _ & Heq).
      apply (f_equal length) in Heq. rewrite length_app in Heq.
      simpl in Heq. lia.
    + split; [|done]. split; [done|]. intros (? & _ & _ & Heq).
      apply (f_equal length) in Heq. rewrite length_app in Heq.
      simpl in Heq. lia.
    + split; [|done]. split; [done|]. intros (? & _ & _ & Heq).
      apply (f_equal length) in Heq. rewrite length_app in Heq.
      simpl in Heq. lia.
  - split; [|done]. split; [done|]. by intros (? & ? & _).
Qed.

(** ** The lazy module registrar *)

Lemma lazyInjectorFactory_unset name w :
  lazyInjector w !! name = None →
  lazyInjectorFactory name w = Throw (Error before_bootstrap_message) w.
Proof. intros Hw. unfold lazyInjectorFactory. by rewrite Hw. Qed.

Lemma lazyInjectorFactory_set name w injector :
  lazyInjector w !! name = Some injector →
  lazyInjectorFactory name w = Ok (VInjector injector) w.
Proof. intros Hw. unfold lazyInjectorFactory. by rewrite Hw. Qed.

(** The handler of the bootstrap promise stores the injector before it
    does anything that may throw. *)
Lemma bootstrapped_stores name result refInjector w :
  lazyInjector (world_of (bootstrapped name result (VModuleRef refInjector) w))
    !! name = Some (NgAdapterInjector refInjector).
Proof.
  unfold bootstrapped. munfold. unfold injectorFactory. simpl.
  destruct (tempInjectorRef w); simpl; apply lookup_insert_eq.
Qed.

Lemma downgradeModule_ok src w :
  ∃ w', downgradeModule src w
          = Ok (lazyModuleNameOf (N.succ (moduleUid w))) w'
        ∧ moduleUid w' = N.succ (moduleUid w)
        ∧ lazyInjector w'
            = delete (lazyModuleNameOf (N.succ (moduleUid w))) (lazyInjector w)
        ∧ ∃ m, ng1Modules w'
                 = <[lazyModuleNameOf (N.succ (moduleUid w)) := m]> (ng1Modules w)
               ∧ m_invokeQueue m
                 = [ (UPGRADE_APP_TYPE_KEY, PConstant (VNum 3));
                     (INJECTOR_KEY,
                      PFactory (FIdentity
                        (INJECTOR_KEY +:+ lazyModuleNameOf (N.succ (moduleUid w)))));
                     (INJECTOR_KEY +:+ lazyModuleNameOf (N.succ (moduleUid w)),
                      PFactory (FLazyInjector
                        (lazyModuleNameOf (N.succ (moduleUid w)))));
                     (LAZY_MODULE_REF,
                      PFactory (FIdentity
                        (LAZY_MODULE_REF +:+ lazyModuleNameOf (N.succ (moduleUid w)))));
                     (LAZY_MODULE_REF +:+ lazyModuleNameOf (N.succ (moduleUid w)),
                      PFactory (FLazyModuleRef
                        (lazyModuleNameOf (N.succ (moduleUid w)))
                        match src with
                        | SrcFunction _ fn => fn
                        | SrcModuleFactory fn => fn
                        end)) ]
               ∧ m_configBlocks m = [CfgCountDowngradedModule]
               ∧ injectors w' = injectors w.
Proof.
  unfold downgradeModule, angular_module. munfold. simpl.
  eexists. split; [reflexivity|]. simpl. repeat split.
  eexists. repeat split.
Qed.

(** C9: the factory registered under the per-module injector key throws
    as long as the bootstrap handler has not stored the injector (as is
    the case right after [downgradeModule]), and once the handler has run
    it returns the stored injector, leaving the store as it is, so that
    every later call returns it as well. *)
Theorem lazy_injector_factory_contract :
  (∀ name w,
     lazyInjector w !! name = None ↔
     lazyInjectorFactory name w = Throw (Error before_bootstrap_message) w)
  ∧ (∀ src w,
       let name := lazyModuleNameOf (N.succ (moduleUid w)) in
       let w' := world_of (downgradeModule src w) in
       (∃ m, ng1Modules w' !! name = Some m
             ∧ (INJECTOR_KEY +:+ name, PFactory (FLazyInjector name))
                 ∈ m_invokeQueue m)
       ∧ lazyInjectorFactory name w' = Throw (Error before_bootstrap_message) w')
  ∧ (∀ name result refInjector w,
       let w' := world_of (bootstrapped name result (VModuleRef refInjector) w) in
       lazyInjectorFactory name w'
         = Ok (VInjector (NgAdapterInjector refInjector)) w').
Proof.
  repeat split.
  - apply lazyInjectorFactory_unset.
  - unfold lazyInjectorFactory. by destruct (lazyInjector w !! name).
  - destruct (downgradeModule_ok src w) as (w1 & Hrun & _ & _ & m & Hm & Hq & _).
    rewrite Hrun; simpl. exists m. rewrite Hm, lookup_insert_eq. split; [done|].
    rewrite Hq. set_solver.
  - destruct (downgradeModule_ok src w) as (w1 & Hrun & _ & Hl & _).
    rewrite Hrun; simpl. apply lazyInjectorFactory_unset.
    rewrite Hl. apply lookup_delete_eq.
  - intros name result refInjector w. simpl.
    apply lazyInjectorFactory_set, bootstrapped_stores.
Qed.

(** *** Module names *)

Global Instance lazyModuleNameOf_inj : Inj (=) (=) lazyModuleNameOf.
Proof.
  intros x y Heq. unfold lazyModuleNameOf in Heq.
  apply String.app_inj, String.app_inj in Heq.
  by apply (inj pretty) in Heq.
Qed.

Lemma names_from_S u n :
  names_from u (S n) = lazyModuleNameOf (N.succ u) :: names_from (N.succ u) n.
Proof.
  unfold names_from. simpl. f_equal; [f_equal; lia|].
  rewrite <- (fmap_S_seq 1), <- list_fmap_compose.
  apply list_fmap_ext. intros _ k _. simpl. f_equal. lia.
Qed.

Lemma names_from_NoDup u n : NoDup (names_from u n).
Proof.
  unfold names_from. apply NoDup_fmap_2_strong; [|apply NoDup_seq].
  intros x y _ _ Heq. apply (inj lazyModuleNameOf) in Heq. lia.
Qed.

Lemma downgradeModule_registered src w name :
  registered_lazy w name ∨ name = lazyModuleNameOf (N.succ (moduleUid w)) →
  registered_lazy (world_of (downgradeModule src w)) name.
Proof.
  destruct (downgradeModule_ok src w)
    as (w1 & Hrun & _ & _ & m & Hm & Hq & Hc & _).
  rewrite Hrun; simpl. unfold registered_lazy. rewrite Hm.
  intros Hname.
  destruct (decide (name = lazyModuleNameOf (N.succ (moduleUid w)))) as [->|Hne].
  - exists m. rewrite lookup_insert_eq. split; [done|]. by eexists _, _.
  - rewrite lookup_insert_ne by done. by destruct Hname.
Qed.

Lemma downgradeModules_ok srcs w :
  ∃ w', downgradeModules srcs w = Ok (names_from (moduleUid w) (length srcs)) w'
        ∧ moduleUid w' = (moduleUid w + N.of_nat (length srcs))%N
        ∧ injectors w' = injectors w
        ∧ (∀ name, registered_lazy w name
                   ∨ name ∈ names_from (moduleUid w) (length srcs) →
                   registered_lazy w' name).
Proof.
  revert w. induction srcs as [|src srcs IH]; intros w.
  - exists w. simpl. repeat split; [lia|].
    intros name [Hr|Hin]; [done|]. by apply elem_of_nil in Hin.
  - pose proof (downgradeModule_registered src w) as Hreg.
    destruct (downgradeModule_ok src w) as (w1 & Hrun & Huid & _ & _ & _ & _ & _ & Hinj).
    rewrite Hrun in Hreg; simpl in Hreg.
    destruct (IH w1) as (w2 & Hrun2 & Huid2 & Hinj2 & Hreg2).
    exists w2. simpl length. rewrite names_from_S.
    split.
    { simpl. unfold mbind, M_bind. rewrite Hrun.
      fold (@mbind M _). unfold mbind, M_bind. rewrite Huid in Hrun2.
      by rewrite Hrun2. }
    split; [lia|]. split; [congruence|].
    intros name Hname. apply Hreg2. rewrite Huid.
    destruct Hname as [Hr|Hin]; [left; apply Hreg; by left|].
    apply elem_of_cons in Hin as [->|Hin]; [left; apply Hreg; by right|by right].
Qed.

(** *** The module count *)

Lemma instantiate_cached fuel i key w v :
  instanceCache (ng1 w i) !! key = Some v →
  instantiate fuel i key w = Ok v w.
Proof. intros Hc. destruct fuel; simpl; by rewrite Hc. Qed.

Lemma getDowngradedModuleCount_count_is i w c :
  count_is i w c → getDowngradedModuleCount i w = Ok (VNum c) w.
Proof.
  unfold getDowngradedModuleCount, injector_has, injector_get. munfold.
  intros [(-> & -> & ->)|Hc]; [done|].
  rewrite Hc, orb_true_r. by apply instantiate_cached.
Qed.

Lemma ng1_set_injectors i inj m w :
  ng1 (set_injectors (<[i := inj]> m) w) i = inj.
Proof. unfold ng1. simpl. by rewrite lookup_insert_eq. Qed.

Lemma loadModule_lazy i m w c :
  count_key_distinct → is_lazy_module m → count_is i w c →
  ∃ w', loadModule i m w = Ok tt w'
        ∧ count_is i w' (c + 1)
        ∧ ng1Modules w' = ng1Modules w.
Proof.
  intros (Hk1 & Hk2 & Hk3 & Hk4 & Hk5) (name & fn & Hq & Hcfg) Hc.
  unfold loadModule. rewrite Hq, Hcfg.
  unfold for_each, run_invoke, run_config, provide_constant, provide_factory,
    set_ng1.
  munfold. simpl.
  rewrite !ng1_set_injectors. simpl.
  match goal with
  | |- context [getDowngradedModuleCount i ?w1] =>
      assert (Hc1 : count_is i w1 c)
  end.
  { unfold count_is. rewrite ng1_set_injectors. simpl.
    rewrite !lookup_insert_ne by done. exact Hc. }
  rewrite (getDowngradedModuleCount_count_is _ _ _ Hc1).
  rewrite !ng1_set_injectors. simpl.
  eexists. split; [reflexivity|]. split; [|done].
  right. rewrite ng1_set_injectors. simpl. by rewrite lookup_insert_eq.
Qed.

Lemma loadModules_lazy i names w c :
  count_key_distinct → Forall (registered_lazy w) names → count_is i w c →
  ∃ w', loadModules i names w = Ok tt w'
        ∧ count_is i w' (c + Z.of_nat (length names)).
Proof.
  intros Hk. revert w c. induction names as [|name names IH]; intros w c Hreg Hc.
  - exists w. split; [done|]. simpl. by rewrite Z.add_0_r.
  - apply Forall_cons in Hreg as [(m & Hm & Hlazy) Hreg].
    destruct (loadModule_lazy i m w c Hk Hlazy Hc) as (w1 & Hrun & Hc1 & Hmods).
    destruct (IH w1 (c + 1)%Z) as (w2 & Hrun2 & Hc2); [|done|].
    { eapply Forall_impl; [exact Hreg|]. unfold registered_lazy.
      intros ?. by rewrite Hmods. }
    exists w2. split.
    + unfold loadModules in *. simpl. munfold. rewrite Hm, Hrun. exact Hrun2.
    + replace (c + Z.of_nat (length (name :: names)))%Z
        with (c + 1 + Z.of_nat (length names))%Z by (simpl length; lia).
      done.
Qed.

(** C8: [n] calls of [downgradeModule] return the names built from the
    counter values [u+1], ..., [u+n], where [u] is the counter before the
    first call: the names are pairwise distinct and the counter values
    they carry increase strictly with the position of the call.  When the
    [n] modules are loaded into a container that records no count yet,
    the recorded count is [n]. *)
Theorem downgradeModule_names_and_count (srcs : list BootstrapSource) (w : World) :
  let n := length srcs in
  let u := moduleUid w in
  ∃ names w',
    downgradeModules srcs w = Ok names w'
    ∧ length names = n
    ∧ moduleUid w' = (u + N.of_nat n)%N
    ∧ (∀ k, k < n → names !! k = Some (lazyModuleNameOf (u + N.of_nat (S k))))
    ∧ NoDup names
    ∧ (∀ j k uj uk,
         names !! j = Some (lazyModuleNameOf uj) →
         names !! k = Some (lazyModuleNameOf uk) →
         j < k → (uj < uk)%N)
    ∧ (∀ i, count_key_distinct → count_is i w' 0 →
         ∃ w'', loadModules i names w' = Ok tt w''
                ∧ getDowngradedModuleCount i w'' = Ok (VNum (Z.of_nat n)) w'').
Proof.
  intros n u.
  destruct (downgradeModules_ok srcs w) as (w' & Hrun & Huid & _ & Hreg).
  assert (Hlookup : ∀ k, k < n →
            names_from u n !! k = Some (lazyModuleNameOf (u + N.of_nat (S k)))).
  { intros k Hk. unfold names_from. rewrite list_lookup_fmap.
    rewrite lookup_seq_lt by done. done. }
  assert (Hlen : length (names_from u n) = n).
  { unfold names_from. by rewrite length_fmap, length_seq. }
  exists (names_from u n), w'. repeat split; try done.
  - apply names_from_NoDup.
  - intros j k uj uk Hj Hk Hjk.
    assert (k < n) as Hkn by (apply lookup_lt_Some in Hk; lia).
    rewrite Hlookup in Hj by lia. rewrite Hlookup in Hk by lia.
    injection Hj as Hj. injection Hk as Hk.
    apply (inj lazyModuleNameOf) in Hj, Hk. lia.
  - intros i Hdistinct Hcount.
    destruct (loadModules_lazy i (names_from u n) w' 0 Hdistinct) as (w'' & Hload & Hc);
      [|done|].
    { apply Forall_forall. intros name Hin. apply Hreg. by right. }
    exists w''. split; [done|].
    rewrite Hlen in Hc. by apply getDowngradedModuleCount_count_is.
Qed.

(** ** Promises: what they leave alone *)

Lemma quiet_trans w1 w2 w3 : quiet w1 w2 → quiet w2 w3 → quiet w1 w3.
Proof.
  unfold quiet. intros (?&?&?&?&?&?&?&?) (?&?&?&?&?&?&?&?).
  repeat split; congruence.
Qed.

Lemma enqueue_all_quiet (rs : list (Reaction * nat)) v w :
  ∃ w', for_each (λ rd, enqueue (JReaction rd.1 rd.2 v)) rs w = Ok tt w'
        ∧ quiet w w'
        ∧ promises w' = promises w.
Proof.
  revert w. induction rs as [|r rs IH]; intros w.
  - exists w. by repeat split.
  - simpl. unfold enqueue at 1. munfold.
    destruct (IH (set_microtasks (microtasks w ++ [JReaction r.1 r.2 v]) w))
      as (w' & Hrun & Hq & Hp).
    exists w'. split; [done|]. split; [|done].
    eapply quiet_trans; [|exact Hq]. by repeat split.
Qed.

Lemma fulfill_quiet p v w :
  ∃ w', fulfill p v w = Ok tt w' ∧ quiet w w'.
Proof.
  unfold fulfill, set_promise. munfold.
  destruct (promises w !! p) as [[rs|v']|]; try (exists w; by repeat split).
  destruct (enqueue_all_quiet rs v (set_promises (<[p:=Fulfilled v]> (promises w)) w))
    as (w' & Hrun & Hq & _).
  exists w'. split; [done|].
  eapply quiet_trans; [|exact Hq]. by repeat split.
Qed.

Lemma resolve_promise_quiet p v w :
  ∃ w', resolve_promise p v w = Ok tt w' ∧ quiet w w'.
Proof.
  unfold resolve_promise. destruct (has_then v); [|apply fulfill_quiet].
  unfold enqueue. munfold. eexists. split; [done|]. by repeat split.
Qed.

(** ** [ParentInjectorPromise] *)

Lemma invoke_callback_spec injector cb w :
  ∃ w', invoke_callback injector cb w = Ok tt w'
        ∧ log w' = (log w ++ [EvCallback cb injector])%list
        ∧ parentInjectorPromises w' = parentInjectorPromises w
        ∧ elementData w' = elementData w
        ∧ frames w' = frames w
        ∧ directives w' = directives w.
Proof.
  unfold invoke_callback. munfold. destruct cb as [p|id].
  - destruct (resolve_promise_quiet p (VInjector injector)
                (set_log (log w ++ [EvCallback (CbResolve p) injector]) w))
      as (w' & Hrun & Hl & Hp & He & Hf & Hd & _).
    exists w'. by repeat split.
  - eexists. by repeat split.
Qed.

Lemma invoke_callbacks_spec injector cbs w :
  ∃ w', for_each (invoke_callback injector) cbs w = Ok tt w'
        ∧ log w' = (log w ++ callback_events injector cbs)%list
        ∧ parentInjectorPromises w' = parentInjectorPromises w
        ∧ elementData w' = elementData w
        ∧ frames w' = frames w
        ∧ directives w' = directives w.
Proof.
  revert w. induction cbs as [|cb cbs IH]; intros w.
  - exists w. simpl. rewrite app_nil_r. by repeat split.
  - destruct (invoke_callback_spec injector cb w)
      as (w1 & Hrun & Hl & Hp & He & Hf & Hd).
    destruct (IH w1) as (w2 & Hrun2 & Hl2 & Hp2 & He2 & Hf2 & Hd2).
    exists w2. split.
    { simpl. unfold mbind, M_bind. by rewrite Hrun. }
    rewrite Hl2, Hl. simpl. rewrite <- app_assoc.
    repeat split; congruence.
Qed.

(** [then] before [resolve]: the callback goes to the end of the queue
    and nothing else happens. *)
Lemma then_unresolved this self cb w :
  parentInjectorPromises w !! this = Some self →
  pip_injector self = None →
  ParentInjectorPromise_then this cb w =
    Ok tt (set_parentInjectorPromises
             (<[this := {| pip_element := pip_element self;
                           pip_injectorKey := pip_injectorKey self;
                           pip_callbacks := pip_callbacks self ++ [cb];
                           pip_injector := None |}]>
                (parentInjectorPromises w)) w).
Proof.
  intros Hthis Hinj. unfold ParentInjectorPromise_then, get_pip, set_pip.
  munfold. rewrite Hthis. simpl. by rewrite Hinj.
Qed.

(** [then] after [resolve]: the callback is called at once. *)
Lemma then_resolved this self injector cb w :
  parentInjectorPromises w !! this = Some self →
  pip_injector self = Some injector →
  ParentInjectorPromise_then this cb w = invoke_callback injector cb w.
Proof.
  intros Hthis Hinj. unfold ParentInjectorPromise_then, get_pip.
  munfold. rewrite Hthis. simpl. by rewrite Hinj.
Qed.

Lemma resolve_spec this self element injector w :
  parentInjectorPromises w !! this = Some self →
  pip_element self = Some element →
  ∃ w', ParentInjectorPromise_resolve this injector w = Ok tt w'
        ∧ log w' = (log w ++ callback_events injector (pip_callbacks self))%list
        ∧ elementData w'
            = <[element := <[pip_injectorKey self := VInjector injector]>
                             (default ∅ (elementData w !! element))]>
                (elementData w)
        ∧ parentInjectorPromises w'
            = <[this := {| pip_element := None;
                           pip_injectorKey := pip_injectorKey self;
                           pip_callbacks := [];
                           pip_injector := Some injector |}]>
                (parentInjectorPromises w)
        ∧ frames w' = frames w
        ∧ directives w' = directives w.
Proof.
  intros Hthis Helem.
  unfold ParentInjectorPromise_resolve, get_pip, set_pip, element_data.
  munfold. rewrite Hthis. simpl. rewrite Helem. simpl.
  match goal with
  | |- context [for_each _ _ ?w1] =>
      destruct (invoke_callbacks_spec injector (pip_callbacks self) w1)
        as (w2 & Hrun & Hl & Hp & He & Hf & Hd)
  end.
  rewrite Hrun. eexists. split; [reflexivity|]. simpl.
  rewrite Hl, Hp, He, Hf, Hd. simpl.
  repeat split. by rewrite !insert_insert_eq.
Qed.

Lemma new_spec element w :
  let this := fresh (dom (parentInjectorPromises w)) in
  ParentInjectorPromise_new element w =
    Ok this
       (set_elementData
          (<[element := <[controllerKey INJECTOR_KEY := VParentInjectorPromise this]>
                          (default ∅ (elementData w !! element))]> (elementData w))
          (set_parentInjectorPromises
             (<[this := {| pip_element := Some element;
                           pip_injectorKey := controllerKey INJECTOR_KEY;
                           pip_callbacks := [];
                           pip_injector := None |}]>
                (parentInjectorPromises w)) w)).
Proof. reflexivity. Qed.

Lemma thens_unresolved this cbs : ∀ self w,
  parentInjectorPromises w !! this = Some self →
  pip_injector self = None →
  ∃ w', for_each (ParentInjectorPromise_then this) cbs w = Ok tt w'
        ∧ log w' = log w
        ∧ elementData w' = elementData w
        ∧ parentInjectorPromises w' !! this
            = Some {| pip_element := pip_element self;
                      pip_injectorKey := pip_injectorKey self;
                      pip_callbacks := pip_callbacks self ++ cbs;
                      pip_injector := None |}.
Proof.
  induction cbs as [|cb cbs IH]; intros self w Hthis Hinj.
  - exists w. simpl. rewrite app_nil_r, Hthis. repeat split.
    destruct self; simpl in *; by subst.
  - simpl. unfold mbind, M_bind.
    rewrite (then_unresolved _ _ _ _ Hthis Hinj).
    set (self' := {| pip_element := pip_element self;
                     pip_injectorKey := pip_injectorKey self;
                     pip_callbacks := pip_callbacks self ++ [cb];
                     pip_injector := None |}).
    destruct (IH self' (set_parentInjectorPromises
                          (<[this := self']> (parentInjectorPromises w)) w))
      as (w' & Hrun & Hl & He & Hp); [apply lookup_insert_eq|done|].
    exists w'. split; [exact Hrun|]. simpl in *.
    by rewrite <- app_assoc in Hp.
Qed.

Lemma thens_resolved this self injector cbs : ∀ w,
  parentInjectorPromises w !! this = Some self →
  pip_injector self = Some injector →
  ∃ w', for_each (ParentInjectorPromise_then this) cbs w = Ok tt w'
        ∧ log w' = (log w ++ callback_events injector cbs)%list
        ∧ parentInjectorPromises w' = parentInjectorPromises w.
Proof.
  induction cbs as [|cb cbs IH]; intros w Hthis Hinj.
  - exists w. simpl. by rewrite app_nil_r.
  - simpl. unfold mbind, M_bind.
    rewrite (then_resolved _ _ _ _ _ Hthis Hinj).
    destruct (invoke_callback_spec injector cb w) as (w1 & -> & Hl & Hp & _).
    destruct (IH w1) as (w2 & Hrun & Hl2 & Hp2); [by rewrite Hp|done|].
    exists w2. split; [done|]. rewrite Hl2, Hl, <- app_assoc.
    split; [done|congruence].
Qed.

(** C4: on a promise that is not resolved yet, [then] only appends the
    callback to the queue; [resolve(injector)] then calls the queued
    callbacks, each once and in the order of their registration, with the
    injector, stores the injector itself in the data of the element under
    the injector key, drops the reference to the element and empties the
    queue; on a resolved promise [then] calls the callback at once and
    queues nothing. *)
Theorem parent_injector_promise_contract :
  (* the constructor: unresolved, attached to the element *)
  (∀ element w,
     ∃ this w',
       ParentInjectorPromise_new element w = Ok this w'
       ∧ parentInjectorPromises w' !! this
           = Some {| pip_element := Some element;
                     pip_injectorKey := controllerKey INJECTOR_KEY;
                     pip_callbacks := []; pip_injector := None |}
       ∧ (elementData w' !! element) ≫= (.!! controllerKey INJECTOR_KEY)
           = Some (VParentInjectorPromise this))
  (* [then] before [resolve] *)
  ∧ (∀ this self cb w,
       parentInjectorPromises w !! this = Some self →
       pip_injector self = None →
       ∃ w',
         ParentInjectorPromise_then this cb w = Ok tt w'
         ∧ log w' = log w
         ∧ microtasks w' = microtasks w
         ∧ parentInjectorPromises w' !! this
             = Some {| pip_element := pip_element self;
                       pip_injectorKey := pip_injectorKey self;
                       pip_callbacks := pip_callbacks self ++ [cb];
                       pip_injector := None |})
  (* [resolve] *)
  ∧ (∀ this self element injector w,
       parentInjectorPromises w !! this = Some self →
       pip_injector self = None →
       pip_element self = Some element →
       ∃ w',
         ParentInjectorPromise_resolve this injector w = Ok tt w'
         ∧ log w' = (log w ++ callback_events injector (pip_callbacks self))%list
         ∧ (elementData w' !! element) ≫= (.!! pip_injectorKey self)
             = Some (VInjector injector)
         ∧ parentInjectorPromises w' !! this
             = Some {| pip_element := None;
                       pip_injectorKey := pip_injectorKey self;
                       pip_callbacks := [];
                       pip_injector := Some injector |})
  (* [then] after [resolve] *)
  ∧ (∀ this self injector cb w,
       parentInjectorPromises w !! this = Some self →
       pip_injector self = Some injector →
       ∃ w',
         ParentInjectorPromise_then this cb w = Ok tt w'
         ∧ log w' = (log w ++ [EvCallback cb injector])%list
         ∧ parentInjectorPromises w' = parentInjectorPromises w)
  (* a whole life: each callback is called exactly once *)
  ∧ (∀ element before injector after w,
       ∃ this w1 w2 w3 w4,
         ParentInjectorPromise_new element w = Ok this w1
         ∧ for_each (ParentInjectorPromise_then this) before w1 = Ok tt w2
         ∧ log w2 = log w
         ∧ ParentInjectorPromise_resolve this injector w2 = Ok tt w3
         ∧ log w3 = (log w ++ callback_events injector before)%list
         ∧ for_each (ParentInjectorPromise_then this) after w3 = Ok tt w4
         ∧ log w4 = (log w ++ callback_events injector (before ++ after))%list).
Proof.
  split; [|split; [|split; [|split]]]; cycle 4.
  { intros element before injector after w.
    eexists _, _. rewrite new_spec.
    set (this := fresh (dom (parentInjectorPromises w))).
    set (self := {| pip_element := Some element;
                    pip_injectorKey := controllerKey INJECTOR_KEY;
                    pip_callbacks := []; pip_injector := None |}).
    match goal with |- ∃ _ _ _, Ok _ ?w1 = _ ∧ _ =>
      destruct (thens_unresolved this before self w1)
        as (w2 & Hrun2 & Hl2 & He2 & Hp2); [apply lookup_insert_eq|done|]
    end.
    destruct (resolve_spec this _ element injector w2 Hp2)
      as (w3 & Hrun3 & Hl3 & He3 & Hp3 & _); [done|].
    destruct (thens_resolved this
                {| pip_element := None;
                   pip_injectorKey := controllerKey INJECTOR_KEY;
                   pip_callbacks := []; pip_injector := Some injector |}
                injector after w3) as (w4 & Hrun4 & Hl4 & _);
      [rewrite Hp3; apply lookup_insert_eq|reflexivity|].
    exists w2, w3, w4. simpl in *.
    rewrite Hl4, Hl3, Hl2. unfold callback_events.
    by rewrite fmap_app, app_assoc. }
  - intros element w. eexists _, _. split; [apply new_spec|]. simpl.
    rewrite !lookup_insert_eq. simpl. by rewrite lookup_insert_eq.
  - intros this self cb w Hthis Hinj. eexists.
    split; [by apply then_unresolved|]. simpl. by rewrite lookup_insert_eq.
  - intros this self element injector w Hthis _ Helem.
    destruct (resolve_spec this self element injector w Hthis Helem)
      as (w' & Hrun & Hl & He & Hp & _).
    exists w'. repeat split; [done..| |].
    + rewrite He, lookup_insert_eq. simpl. by rewrite lookup_insert_eq.
    + by rewrite Hp, lookup_insert_eq.
  - intros this self injector cb w Hthis Hinj.
    rewrite (then_resolved _ _ _ _ _ Hthis Hinj).
    destruct (invoke_callback_spec injector cb w) as (w' & Hrun & Hl & Hp & _).
    by exists w'.
Qed.

(** ** What the container leaves alone

    Looking something up in the AngularJS container may instantiate
    services, and with them start a bootstrap, but it never touches the
    directives, the frames of [link], the elements or the parent-injector
    promises. *)

Lemma di_frame_refl w : di_frame w w.
Proof. by repeat split. Qed.

Lemma di_frame_trans w1 w2 w3 : di_frame w1 w2 → di_frame w2 w3 → di_frame w1 w3.
Proof.
  unfold di_frame. intros (?&?&?&?&?&?&?) (?&?&?&?&?&?&?).
  repeat split; congruence.
Qed.

Lemma preserves_ret {A} (a : A) : preserves (mret a).
Proof. intros w. apply di_frame_refl. Qed.

Lemma preserves_throw {A} e : preserves (@throw A e).
Proof. intros w. apply di_frame_refl. Qed.

Lemma preserves_gets {A} (f : World → A) : preserves (gets f).
Proof. intros w. apply di_frame_refl. Qed.

Lemma preserves_bind {A B} (m : M A) (k : A → M B) :
  preserves m → (∀ a, preserves (k a)) → preserves (m ≫= k).
Proof.
  intros Hm Hk w. unfold mbind, M_bind. specialize (Hm w).
  destruct (m w) as [a w1|e w1]; simpl in *; [|done].
  eapply di_frame_trans; [exact Hm|apply Hk].
Qed.

Lemma preserves_modify (f : World → World) :
  (∀ w, di_frame w (f w)) → preserves (modify f).
Proof. intros Hf w. apply Hf. Qed.

Ltac preserves_step :=
  first
    [ apply preserves_ret | apply preserves_throw | apply preserves_gets
    | apply preserves_bind; [|intros ?]
    | apply preserves_modify; intros ?; by repeat split ].


Lemma preserves_enqueue j : preserves (enqueue j).
Proof. unfold enqueue. preserves_step. Qed.

Lemma preserves_new_promise st : preserves (new_promise st).
Proof. intros w. by repeat split. Qed.

Lemma preserves_set_promise p st : preserves (set_promise p st).
Proof. unfold set_promise. preserves_step. Qed.

Lemma preserves_promise_then p r : preserves (promise_then p r).
Proof.
  unfold promise_then.
  preserves_step; [apply preserves_new_promise|].
  preserves_step; [preserves_step|].
  preserves_step; [|preserves_step].
  destruct a0 as [[rs|v]|];
    [apply preserves_set_promise|apply preserves_enqueue|preserves_step].
Qed.


Lemma preserves_injectorFactory : preserves injectorFactory.
Proof.
  intros w. unfold injectorFactory.
  destruct (tempInjectorRef w); by repeat split.
Qed.













(** ** The creation of the component *)

Lemma doDowngrade_spec f frame d p m w :
  frames w !! f = Some frame →
  directives w !! lf_directive frame = Some d →
  resolveComponentFactory w m (component (d_info d)) = true →
  ∃ w', doDowngrade f (VInjector p) (VInjector m) w = Ok tt w'
        ∧ log w' = (log w ++ adapter_events frame d p m ++ evalAsync_events frame)%list
        ∧ frames w' = frames w
        ∧ directives w' = directives w
        ∧ microtasks w' = microtasks w
        ∧ promises w' = promises w
        ∧ inAngularZone w' = inAngularZone w
        ∧ (elementData w' !! lf_element frame) ≫= (.!! controllerKey INJECTOR_KEY)
            = Some (VInjector (ComponentInjector (lf_element frame) p)).
Proof.
  intros Hf Hd Hcf.
  unfold doDowngrade, get_frame, get_directive. munfold.
  rewrite Hf. simpl. rewrite Hd. simpl. rewrite Hcf. simpl.
  unfold ParentInjectorPromise_resolve, get_pip, set_pip, element_data.
  munfold. simpl. rewrite lookup_insert_eq. simpl. rewrite Hf. simpl.
  unfold evalAsync_events.
  destruct (ranAsync frame); simpl; eexists; (split; [reflexivity|]); simpl;
    rewrite ?lookup_insert_eq; simpl; rewrite ?lookup_insert_eq;
    rewrite <- ?app_assoc; repeat split; reflexivity.
Qed.

Lemma doDowngrade_no_factory f frame d p m w :
  frames w !! f = Some frame →
  directives w !! lf_directive frame = Some d →
  resolveComponentFactory w m (component (d_info d)) = false →
  doDowngrade f p (VInjector m) w
    = Throw (Error ("Expecting ComponentFactory for: "
                    +:+ getTypeName (component (d_info d)))) w.
Proof.
  intros Hf Hd Hcf.
  unfold doDowngrade, get_frame, get_directive. munfold.
  rewrite Hf. simpl. rewrite Hd. simpl. by rewrite Hcf.
Qed.

Lemma downgradeFn_spec f frame d p m w :
  frames w !! f = Some frame →
  directives w !! lf_directive frame = Some d →
  resolveComponentFactory w m (component (d_info d)) = true →
  ∃ w', downgradeFn f (VInjector p) (VInjector m) w = Ok tt w'
        ∧ log w' = (log w ++ creation_events frame d p m (inAngularZone w))%list
        ∧ frames w' = frames w
        ∧ microtasks w' = microtasks w
        ∧ promises w' = promises w
        ∧ inAngularZone w' = inAngularZone w
        ∧ (elementData w' !! lf_element frame) ≫= (.!! controllerKey INJECTOR_KEY)
            = Some (VInjector (ComponentInjector (lf_element frame) p)).
Proof.
  intros Hf Hd Hcf.
  unfold downgradeFn, get_frame, get_directive. munfold.
  rewrite Hf. simpl. rewrite Hd. simpl.
  unfold creation_events, zone_events.
  destruct (isNgUpgradeLite d) eqn:Hlite; simpl.
  { (* ngUpgrade lite: the zone is fetched once, the call goes through it *)
    destruct (ngZone d) as [z|] eqn:Hz; simpl;
      unfold wrapCallback, get_directive; munfold; simpl;
      rewrite ?lookup_insert_eq, ?Hd; simpl; rewrite ?Hlite; simpl;
      destruct (inAngularZone w) eqn:Hin; simpl; rewrite ?Hz;
      unfold ngZone_run; simpl.
    1,2: match goal with
         | |- context [doDowngrade _ _ _ ?w2] =>
             destruct (doDowngrade_spec f frame d p m w2)
               as (w3 & -> & Hl3 & Hf3 & Hd3 & Hm3 & Hp3 & Hz3 & He3);
               [done..|]
         end.
    3,4: match goal with
         | |- context [doDowngrade _ _ _ ?w2] =>
             destruct (doDowngrade_spec f frame (with_ngZone p d) p m w2)
               as (w3 & -> & Hl3 & Hf3 & Hd3 & Hm3 & Hp3 & Hz3 & He3);
               [simpl; rewrite ?lookup_insert_eq; done..|]
         end.
    all: eexists; (split; [reflexivity|]); simpl.
    all: rewrite Hl3, Hf3, Hm3, Hp3, ?Hz3; simpl; rewrite ?Hlite.
    all: rewrite <- ?app_assoc; repeat split; try reflexivity; try assumption. }
  destruct (doDowngrade_spec f frame d p m w Hf Hd Hcf)
    as (w3 & -> & Hl3 & Hf3 & Hd3 & Hm3 & Hp3 & Hz3 & He3).
  exists w3. by repeat split.
Qed.

(** ** The join of [Promise.all] *)

Lemma fresh_promise_ne (m : gmap nat PromiseState) q :
  is_Some (m !! q) → fresh (dom m) ≠ q.
Proof.
  intros Hq Heq. apply (is_fresh (dom m)). rewrite Heq. by apply elem_of_dom.
Qed.




Lemma link_dispatch_plain f p m w :
  link_dispatch f (VInjector p) (VInjector m) w
    = downgradeFn f (VInjector p) (VInjector m) w.
Proof. reflexivity. Qed.

Lemma link_dispatch_thenable f fp fm w :
  has_then fp = true ∨ has_then fm = true →
  truthy fp = true → truthy fm = true →
  link_dispatch f fp fm w
    = (all ← Promise_all fp fm; _ ← promise_then all (RDowngrade f); mret tt) w.
Proof.
  intros Hthen Hfp Hfm. unfold link_dispatch, isThenable.
  destruct fp; try discriminate Hfp; simpl in *;
    try reflexivity;
    (destruct Hthen as [Hthen|Hthen]; [discriminate Hthen|]);
    destruct fm; try discriminate Hthen; reflexivity.
Qed.

(** [link], cut after the lookup of the module injector. *)
Lemma link_unfold directive scope element attrs parentInjector ngModel d w :
  directives w !! directive = Some d →
  let f := fresh (dom (frames w)) in
  let frame := new_frame directive scope element attrs ngModel in
  link directive scope element attrs (parentInjector, ngModel) w =
    match moduleInjectorFor d parentInjector
            (set_frames (<[f := frame false]> (frames w)) w) with
    | Throw e w1 => Throw e w1
    | Ok moduleInjector w1 =>
        match link_dispatch f
                (finalParentInjector parentInjector moduleInjector)
                (finalModuleInjector parentInjector moduleInjector) w1 with
        | Throw e w2 => Throw e w2
        | Ok _ w2 => Ok tt (set_frames (<[f := frame true]> (frames w2)) w2)
        end
    end.
Proof.
  intros Hd f frame. unfold link, get_directive. munfold. rewrite Hd. simpl.
  fold f. fold frame.
  destruct (moduleInjectorFor _ _ _) as [mi w1|e w1]; [|done].
  by destruct (link_dispatch _ _ _ _).
Qed.





(** ** The frames of [link] stay as they are

    No job of the microtask queue writes the variables of a call of
    [link]: once [ranAsync] is set, it is set whenever the deferred
    creation runs. *)

Lemma keeps_ret {A} (a : A) : keeps_frames (mret a).
Proof. done. Qed.

Lemma keeps_throw {A} e : keeps_frames (@throw A e).
Proof. done. Qed.

Lemma keeps_gets {A} (f : World → A) : keeps_frames (gets f).
Proof. done. Qed.

Lemma keeps_bind {A B} (m : M A) (k : A → M B) :
  keeps_frames m → (∀ a, keeps_frames (k a)) → keeps_frames (m ≫= k).
Proof.
  intros Hm Hk w. unfold mbind, M_bind. specialize (Hm w).
  destruct (m w) as [a w1|e w1]; simpl in *; [|done].
  by rewrite Hk.
Qed.

Lemma keeps_modify (f : World → World) :
  (∀ w, frames (f w) = frames w) → keeps_frames (modify f).
Proof. intros Hf w. apply Hf. Qed.

Lemma keeps_preserves {A} (m : M A) : preserves m → keeps_frames m.
Proof. intros Hm w. by destruct (Hm w) as (_ & ? & _). Qed.

Lemma keeps_for_each {A} (f : A → M unit) l :
  (∀ a, keeps_frames (f a)) → keeps_frames (for_each f l).
Proof.
  intros Hf. induction l as [|a l IH]; simpl; [apply keeps_ret|].
  apply keeps_bind; [apply Hf|by intros _].
Qed.

Create HintDb keeps discriminated.

Lemma keeps_new_promise st : keeps_frames (new_promise st).
Proof. apply keeps_preserves, preserves_new_promise. Qed.

Lemma keeps_promise_then p r : keeps_frames (promise_then p r).
Proof. apply keeps_preserves, preserves_promise_then. Qed.

Lemma keeps_injectorFactory : keeps_frames injectorFactory.
Proof. apply keeps_preserves, preserves_injectorFactory. Qed.

Local Hint Resolve keeps_new_promise keeps_promise_then keeps_injectorFactory
  : keeps.

(** One step at a time: a known operation, a sequence, a case. *)
Ltac keeps_auto :=
  repeat first
    [ solve [eauto 1 with keeps]
    | apply keeps_ret | apply keeps_throw | apply keeps_gets
    | apply keeps_modify; intros ?; reflexivity
    | apply keeps_for_each; intros ?
    | apply keeps_bind; [|intros ?]
    | match goal with
      | |- keeps_frames (match ?x with _ => _ end) => destruct x
      end ].

Lemma keeps_resolve_promise p v : keeps_frames (resolve_promise p v).
Proof. unfold resolve_promise, fulfill, enqueue, set_promise. keeps_auto. Qed.

Local Hint Resolve keeps_resolve_promise : keeps.


Lemma keeps_all_element all index v : keeps_frames (all_element all index v).
Proof. unfold all_element, fulfill, set_promise, enqueue. keeps_auto. Qed.

Lemma keeps_invoke_callback injector cb : keeps_frames (invoke_callback injector cb).
Proof. unfold invoke_callback, emit. keeps_auto. Qed.

Local Hint Resolve keeps_all_element keeps_invoke_callback : keeps.

Lemma keeps_ParentInjectorPromise_then this cb :
  keeps_frames (ParentInjectorPromise_then this cb).
Proof. unfold ParentInjectorPromise_then, get_pip, set_pip. keeps_auto. Qed.

Lemma keeps_ParentInjectorPromise_resolve this injector :
  keeps_frames (ParentInjectorPromise_resolve this injector).
Proof.
  unfold ParentInjectorPromise_resolve, get_pip, set_pip, element_data.
  keeps_auto.
Qed.

Local Hint Resolve keeps_ParentInjectorPromise_resolve : keeps.

Lemma keeps_doDowngrade f injector moduleInjector :
  keeps_frames (doDowngrade f injector moduleInjector).
Proof.
  unfold doDowngrade, get_frame, get_directive, ParentInjectorPromise_new,
    adapter, set_pip, element_data, emit.
  keeps_auto.
Qed.

Local Hint Resolve keeps_doDowngrade : keeps.

Lemma keeps_ngZone_run zone (cb : M unit) :
  keeps_frames cb → keeps_frames (ngZone_run zone cb).
Proof.
  intros Hcb w. unfold ngZone_run.
  specialize (Hcb (set_inAngularZone true (set_log (log w ++ [EvNgZoneRun zone]) w))).
  by destruct (cb _).
Qed.

Lemma keeps_downgradeFn f pInjector mInjector :
  keeps_frames (downgradeFn f pInjector mInjector).
Proof.
  unfold downgradeFn, wrapCallback, get_frame, get_directive.
  keeps_auto; apply keeps_ngZone_run; keeps_auto.
Qed.

Lemma keeps_bootstrapped name result ref : keeps_frames (bootstrapped name result ref).
Proof. unfold bootstrapped. keeps_auto. Qed.

Local Hint Resolve keeps_downgradeFn keeps_bootstrapped : keeps.

Lemma keeps_run_reaction r v : keeps_frames (run_reaction r v).
Proof. unfold run_reaction. keeps_auto. Qed.

Lemma run_job_frames j w : frames (world_of (run_job j w)) = frames w.
Proof.
  unfold run_job. destruct j as [r derived v|p thenable].
  - pose proof (keeps_run_reaction r v w) as Hr.
    destruct (run_reaction r v w) as [res w1|e w1]; simpl in Hr.
    + by rewrite keeps_resolve_promise.
    + done.
  - destruct thenable; try done.
    + pose proof (keeps_promise_then p0 (RResolve p) w) as Hk.
      unfold mbind, M_bind, mret, M_ret.
      by destruct (promise_then _ _ _).
    + pose proof (keeps_ParentInjectorPromise_then l (CbResolve p) w) as Hk.
      by destruct (ParentInjectorPromise_then _ _ _).
Qed.

Lemma run_microtasks_frames fuel w :
  frames (world_of (run_microtasks fuel w)) = frames w.
Proof.
  revert w. induction fuel as [|fuel IH]; intros w; simpl; [by destruct (microtasks w)|].
  destruct (microtasks w) as [|j rest]; [done|].
  unfold mbind, M_bind.
  pose proof (run_job_frames j (set_microtasks rest w)) as Hj.
  destruct (run_job j _) as [[] w1|e w1]; simpl in *; [|done].
  by rewrite IH.
Qed.



(** ** The injectors chosen by [link] *)

Lemma directiveFactory_spec info i w dId w' :
  directiveFactory info i w = Ok dId w' →
  ∃ t w1 dir,
    getUpgradeAppType i w = Ok t w1
    ∧ directives w' !! dId = Some dir
    ∧ d_info dir = info
    ∧ d_injector dir = i
    ∧ ngZone dir = None
    ∧ isNgUpgradeLite dir = js_strict_eq_num t 3
    ∧ (hasMultipleDowngradedModules dir = true ↔
         js_strict_eq_num t 3 = true
         ∧ ∃ n w2, getDowngradedModuleCount i w1 = Ok n w2
                   ∧ js_gt_num n 1 = true).
Proof.
  unfold directiveFactory. munfold.
  destruct (getUpgradeAppType i w) as [t w1|e w1]; [|done].
  destruct (js_strict_eq_num t 3) eqn:Hlite.
  - destruct (getDowngradedModuleCount i w1) as [n w2|e w2] eqn:Hn; [|done].
    simpl. intros [= <- <-]. eexists t, w1, _. simpl.
    rewrite lookup_insert_eq. repeat split; try done.
    + eauto.
    + rewrite Hn. by intros (_ & n' & w2' & [= <- <-] & Hgt).
  - simpl. intros [= <- <-]. eexists t, w1, _. simpl.
    rewrite lookup_insert_eq. repeat split; try done.
    intros [? _]. congruence.
Qed.

Lemma injector_or_promise_spec r ref w :
  lazyModuleRefs w !! r = Some ref →
  injector_or_promise (VLazyModuleRef r) w =
    Ok match lmr_injector ref, lmr_promise ref with
       | Some injector, _ => VInjector injector
       | None, Some promise => VPromise promise
       | None, None => VUndefined
       end w.
Proof.
  intros Hr. unfold injector_or_promise. munfold. rewrite Hr.
  by destruct (lmr_injector ref), (lmr_promise ref).
Qed.

Lemma moduleInjectorFor_lookup d parentInjector w w1 r w2 ref :
  negb (truthy parentInjector) || hasMultipleDowngradedModules d = true →
  validateInjectionKey (d_injector d)
    (str_or_empty (downgradedModule (d_info d)))
    (LAZY_MODULE_REF +:+ str_or_empty (downgradedModule (d_info d)))
    ("instantiating component '" +:+ getTypeName (component (d_info d)) +:+ "'")
    w = Ok tt w1 →
  injector_get (d_injector d)
    (LAZY_MODULE_REF +:+ str_or_empty (downgradedModule (d_info d))) w1
    = Ok (VLazyModuleRef r) w2 →
  lazyModuleRefs w2 !! r = Some ref →
  moduleInjectorFor d parentInjector w =
    Ok match lmr_injector ref, lmr_promise ref with
       | Some injector, _ => VInjector injector
       | None, Some promise => VPromise promise
       | None, None => VUndefined
       end w2.
Proof.
  intros Hcond Hv Hg Hr. unfold moduleInjectorFor. rewrite Hcond.
  unfold mbind, M_bind. rewrite Hv, Hg. by apply injector_or_promise_spec.
Qed.

(** C1: the module injector is looked up (after validation, under the
    lazy-module-reference key) exactly when there is no ancestor injector
    or the directive was created in Lite mode with more than one module
    counted; the parent injector used is the ancestor injector if there is
    one and the module injector otherwise, the module injector used is the
    looked-up one if there is one and the ancestor injector otherwise. *)
Theorem link_injector_selection (d : Directive) (parentInjector : Value) (w : World) :
  let dm := str_or_empty (downgradedModule (d_info d)) in
  let key := LAZY_MODULE_REF +:+ dm in
  let action :=
    "instantiating component '" +:+ getTypeName (component (d_info d)) +:+ "'" in
  (* no lookup *)
  (truthy parentInjector = true ∧ hasMultipleDowngradedModules d = false →
     moduleInjectorFor d parentInjector w = Ok VUndefined w)
  (* validated lookup *)
  ∧ (truthy parentInjector = false ∨ hasMultipleDowngradedModules d = true →
       (∀ e w1,
          validateInjectionKey (d_injector d) dm key action w = Throw e w1 →
          moduleInjectorFor d parentInjector w = Throw e w1)
       ∧ (∀ w1 r w2 ref,
            validateInjectionKey (d_injector d) dm key action w = Ok tt w1 →
            injector_get (d_injector d) key w1 = Ok (VLazyModuleRef r) w2 →
            lazyModuleRefs w2 !! r = Some ref →
            moduleInjectorFor d parentInjector w =
              Ok match lmr_injector ref, lmr_promise ref with
                 | Some injector, _ => VInjector injector
                 | None, Some promise => VPromise promise
                 | None, None => VUndefined
                 end w2))
  (* the two injectors that are used *)
  ∧ (∀ moduleInjector,
       finalParentInjector parentInjector moduleInjector
         = (if truthy parentInjector then parentInjector else moduleInjector)
       ∧ finalModuleInjector parentInjector moduleInjector
         = (if truthy moduleInjector then moduleInjector else parentInjector))
  (* [link] hands exactly these two to the creation of the component *)
  ∧ (∀ directive scope element attrs ngModel,
       directives w !! directive = Some d →
       let f := fresh (dom (frames w)) in
       let frame := new_frame directive scope element attrs ngModel in
       ∀ moduleInjector w1,
         moduleInjectorFor d parentInjector
           (set_frames (<[f := frame false]> (frames w)) w)
           = Ok moduleInjector w1 →
         link directive scope element attrs (parentInjector, ngModel) w =
           (link_dispatch f
              (if truthy parentInjector then parentInjector else moduleInjector)
              (if truthy moduleInjector then moduleInjector else parentInjector);;
            modify (λ w, set_frames (<[f := frame true]> (frames w)) w)) w1)
  (* the flag of the directive: Lite mode and more than one module *)
  ∧ (∀ info i w0 dId w',
       directiveFactory info i w0 = Ok dId w' →
       ∃ t w1 dir,
         getUpgradeAppType i w0 = Ok t w1
         ∧ directives w' !! dId = Some dir
         ∧ (hasMultipleDowngradedModules dir = true ↔
              js_strict_eq_num t 3 = true
              ∧ ∃ n w2, getDowngradedModuleCount i w1 = Ok n w2
                        ∧ js_gt_num n 1 = true)).
Proof.
  intros dm key action. split; [|split; [|split; [|split]]].
  - intros [Hp Hm]. unfold moduleInjectorFor. by rewrite Hp, Hm.
  - intros Hcond.
    assert (Hc : negb (truthy parentInjector) || hasMultipleDowngradedModules d = true).
    { destruct Hcond as [-> | ->]; [done|apply orb_true_r]. }
    split.
    + intros e w1 Hv. unfold moduleInjectorFor. rewrite Hc.
      unfold mbind, M_bind. fold dm. fold key. fold action. by rewrite Hv.
    + intros w1 r w2 ref Hv Hg Hr. by eapply moduleInjectorFor_lookup.
  - done.
  - intros directive scope element attrs ngModel Hd f frame mi w1 Hmi.
    rewrite (link_unfold _ _ _ _ _ _ _ _ Hd). fold f. fold frame.
    rewrite Hmi. unfold mbind, M_bind, modify, finalParentInjector,
      finalModuleInjector, js_or.
    by destruct (link_dispatch _ _ _ _).
  - intros info i w0 dId w' Hrun.
    destruct (directiveFactory_spec _ _ _ _ _ Hrun)
      as (t & w1 & dir & Ht & Hdir & _ & _ & _ & _ & Hmulti).
    by exists t, w1, dir.
Qed.

(** ** Creation now or later *)



Section Link.
Context (directive scope element attrs : nat) (parentInjector ngModel : Value)
        (d : Directive) (w : World).
Context (Hd : directives w !! directive = Some d).

Let f := fresh (dom (frames w)).
Let frame := new_frame directive scope element attrs ngModel.
Let w0 := set_frames (<[f := frame false]> (frames w)) w.



End Link.


(** ** A lazy module and its first component *)




End Properties.

(** * Further properties *)

(** ** Directive names *)

Section Names.

Lemma string_app_nil_r (s : string) : s +:+ "" = s.
Proof.
  induction s as [|c s IH]; [done|].
  change (String c s +:+ "") with (String c (s +:+ "")). by rewrite IH.
Qed.

Lemma string_forall_app P s t :
  string_forall P (s +:+ t) = string_forall P s && string_forall P t.
Proof.
  induction s as [|c s IH]; [done|].
  change (String c s +:+ t) with (String c (s +:+ t)). simpl.
  by rewrite IH, andb_assoc.
Qed.

Lemma toUpperCase_special c : is_special c = true → toUpperCase c = c.
Proof. destruct c as [[] [] [] [] [] [] [] []]; done. Qed.

Lemma toUpperCase_is_special c : is_special (toUpperCase c) = is_special c.
Proof. destruct c as [[] [] [] [] [] [] [] []]; done. Qed.

Lemma line_terminator_not_special c :
  is_line_terminator c = true → is_special c = false.
Proof. destruct c as [[] [] [] [] [] [] [] []]; done. Qed.

(** *** The search for special characters *)

Lemma regexp_cons c rest :
  DIRECTIVE_SPECIAL_CHARS_REGEXP (String c rest) =
    if is_special c then
      match DIRECTIVE_SPECIAL_CHARS_REGEXP rest with
      | Some m => Some m
      | None =>
          match rest with
          | String letter rest =>
              if is_line_terminator letter then None else Some (letter, rest)
          | EmptyString => None
          end
      end
    else None.
Proof. reflexivity. Qed.

Lemma regexp_shorter s letter rest :
  DIRECTIVE_SPECIAL_CHARS_REGEXP s = Some (letter, rest) →
  (String.length rest < String.length s)%nat.
Proof.
  revert letter rest. induction s as [|c s IH]; intros letter rest; [done|].
  rewrite regexp_cons. destruct (is_special c); [|done].
  destruct (DIRECTIVE_SPECIAL_CHARS_REGEXP s) as [[l r]|] eqn:Hs.
  - intros [= <- <-]. specialize (IH _ _ eq_refl). simpl. lia.
  - destruct s as [|l r]; [done|]. destruct (is_line_terminator l); [done|].
    intros [= <- <-]. simpl. lia.
Qed.

(** Enough fuel: the length of the text. *)
Lemma replace_from_enough fuel : ∀ s,
  (String.length s ≤ fuel)%nat →
  replace_from fuel s = replace_special_chars s.
Proof.
  unfold replace_special_chars.
  induction fuel as [fuel IH] using lt_wf_ind. intros s Hs.
  destruct fuel as [|fuel].
  { destruct s; [done|simpl in Hs; lia]. }
  destruct s as [|c s]; [done|].
  cbn [String.length replace_from].
  destruct (DIRECTIVE_SPECIAL_CHARS_REGEXP (String c s)) as [[l r]|] eqn:Hm.
  - apply regexp_shorter in Hm. simpl in Hm, Hs.
    rewrite (IH fuel) by lia. by rewrite (IH (String.length s)) by lia.
  - simpl in Hs. by rewrite (IH fuel) by lia.
Qed.

Lemma replace_special_chars_eq s :
  replace_special_chars s =
    match DIRECTIVE_SPECIAL_CHARS_REGEXP s with
    | Some (letter, rest) => String (toUpperCase letter) (replace_special_chars rest)
    | None =>
        match s with
        | String c rest => String c (replace_special_chars rest)
        | EmptyString => EmptyString
        end
    end.
Proof.
  destruct s as [|c s]; [done|].
  unfold replace_special_chars at 1. cbn [String.length replace_from].
  destruct (DIRECTIVE_SPECIAL_CHARS_REGEXP (String c s)) as [[l r]|] eqn:Hm.
  - apply regexp_shorter in Hm. simpl in Hm.
    by rewrite replace_from_enough by lia.
  - by rewrite replace_from_enough by lia.
Qed.

Lemma regexp_run seps c s :
  seps ≠ "" → string_forall is_special seps = true →
  is_special c = false → is_line_terminator c = false →
  DIRECTIVE_SPECIAL_CHARS_REGEXP (seps +:+ String c s) = Some (c, s).
Proof.
  intros Hne Hall Hc Hlt. induction seps as [|a seps IH]; [done|].
  simpl in Hall. apply andb_prop in Hall as [Ha Hall].
  change (String a seps +:+ String c s) with (String a (seps +:+ String c s)).
  rewrite regexp_cons, Ha.
  destruct seps as [|b seps].
  - change ("" +:+ String c s) with (String c s).
    by rewrite regexp_cons, Hc, Hlt.
  - by rewrite IH.
Qed.

Lemma ends_line_regexp next :
  ends_line next = true → DIRECTIVE_SPECIAL_CHARS_REGEXP next = None.
Proof.
  destruct next as [|l r]; [done|]. simpl. intros Hl.
  by rewrite (line_terminator_not_special _ Hl).
Qed.

Lemma regexp_run_end seps : ∀ a next,
  is_special a = true → string_forall is_special seps = true →
  ends_line next = true →
  DIRECTIVE_SPECIAL_CHARS_REGEXP (String a (seps +:+ next))
    = match seps with
      | EmptyString => None
      | String _ _ => Some (last_char a seps, next)
      end.
Proof.
  induction seps as [|b seps IH]; intros a next Ha Hall Hnext.
  - change ("" +:+ next) with next.
    rewrite regexp_cons, Ha, (ends_line_regexp _ Hnext).
    destruct next as [|l r]; [done|]. simpl in Hnext. by rewrite Hnext.
  - simpl in Hall. apply andb_prop in Hall as [Hb Hall].
    change (String b seps +:+ next) with (String b (seps +:+ next)).
    rewrite regexp_cons, Ha, (IH b next Hb Hall Hnext).
    destruct seps as [|c seps]; [|done].
    change ("" +:+ next) with next. simpl.
    destruct (is_line_terminator b) eqn:Hlt; [|done].
    apply line_terminator_not_special in Hlt. congruence.
Qed.

Lemma regexp_letter s letter rest :
  DIRECTIVE_SPECIAL_CHARS_REGEXP s = Some (letter, rest) →
  is_special letter = true → ends_line rest = true.
Proof.
  revert letter rest. induction s as [|c s IH]; intros letter rest; [done|].
  rewrite regexp_cons. destruct (is_special c) eqn:Hc; [|done].
  destruct (DIRECTIVE_SPECIAL_CHARS_REGEXP s) as [[l r]|] eqn:Hs.
  - intros [= <- <-]. by apply IH.
  - destruct s as [|l r]; [done|].
    destruct (is_line_terminator l) eqn:Hl; [done|]. intros [= <- <-] Hsp.
    rewrite regexp_cons, Hsp in Hs.
    destruct (DIRECTIVE_SPECIAL_CHARS_REGEXP r); [done|].
    destruct r as [|l' r']; [done|]. simpl.
    by destruct (is_line_terminator l').
Qed.

Lemma regexp_none_special c s :
  DIRECTIVE_SPECIAL_CHARS_REGEXP (String c s) = None →
  is_special c = true → ends_line s = true.
Proof.
  rewrite regexp_cons. intros Hm Hc. rewrite Hc in Hm.
  destruct (DIRECTIVE_SPECIAL_CHARS_REGEXP s); [done|].
  destruct s as [|l r]; [done|]. simpl. by destruct (is_line_terminator l).
Qed.

(** *** The replacement *)

Lemma replace_keeps w : ∀ s,
  string_forall (λ c, negb (is_special c)) w = true →
  replace_special_chars (w +:+ s) = w +:+ replace_special_chars s.
Proof.
  induction w as [|c w IH]; intros s Hw; [done|].
  simpl in Hw. apply andb_prop in Hw as [Hc Hw].
  apply negb_true_iff in Hc.
  change (String c w +:+ s) with (String c (w +:+ s)).
  rewrite replace_special_chars_eq, regexp_cons, Hc.
  by rewrite IH.
Qed.

Lemma replace_run seps c s :
  seps ≠ "" → string_forall is_special seps = true →
  is_special c = false → is_line_terminator c = false →
  replace_special_chars (seps +:+ String c s)
    = String (toUpperCase c) (replace_special_chars s).
Proof.
  intros. by rewrite replace_special_chars_eq, regexp_run.
Qed.

Lemma replace_ends_line next :
  ends_line next = true →
  ends_line (replace_special_chars next) = true.
Proof.
  intros Hn. rewrite replace_special_chars_eq, (ends_line_regexp _ Hn).
  by destruct next.
Qed.

Lemma last_char_special seps : ∀ a,
  is_special a = true → string_forall is_special seps = true →
  is_special (last_char a seps) = true.
Proof.
  induction seps as [|b seps IH]; intros a Ha Hall; [done|].
  simpl in Hall. apply andb_prop in Hall as [Hb Hall]. by apply IH.
Qed.

Lemma replace_run_end a seps next :
  is_special a = true → string_forall is_special seps = true →
  ends_line next = true →
  replace_special_chars (String a (seps +:+ next))
    = String (last_char a seps) (replace_special_chars next).
Proof.
  intros Ha Hall Hnext.
  rewrite replace_special_chars_eq, regexp_run_end by done.
  destruct seps as [|b seps]; [done|].
  by rewrite toUpperCase_special by by apply last_char_special.
Qed.

Lemma replace_tidy s : tidy (replace_special_chars s) = true.
Proof.
  remember (String.length s) as n eqn:Hn. revert s Hn.
  induction n as [n IH] using lt_wf_ind. intros s ->.
  rewrite replace_special_chars_eq.
  destruct (DIRECTIVE_SPECIAL_CHARS_REGEXP s) as [[l r]|] eqn:Hm.
  - pose proof (regexp_shorter _ _ _ Hm) as Hlen.
    cbn [tidy]. rewrite (IH _ Hlen r eq_refl), andb_true_r.
    rewrite toUpperCase_is_special.
    destruct (is_special l) eqn:Hl; [|done].
    apply replace_ends_line. by eapply regexp_letter.
  - destruct s as [|c s]; [done|].
    cbn [tidy]. rewrite (IH (String.length s)) by (simpl; lia || done).
    rewrite andb_true_r. destruct (is_special c) eqn:Hc; [|done].
    apply replace_ends_line. by eapply regexp_none_special.
Qed.

Lemma tidy_spec s : tidy s = true →
  ∀ a c rest, s = a +:+ String c rest → is_special c = true →
  ends_line rest = true.
Proof.
  intros Ht a. revert s Ht. induction a as [|x a IH]; intros s Ht c rest -> Hc.
  - simpl in Ht. rewrite Hc in Ht. by apply andb_prop in Ht as [? _].
  - simpl in Ht. apply andb_prop in Ht as [_ Ht]. by eapply IH.
Qed.

(** *** The prefix *)

Lemma ignoreCase_prefix_app word : ∀ p rest,
  string_toUpperCase p = string_toUpperCase word →
  ignoreCase_prefix word (p +:+ rest) = Some rest.
Proof.
  induction word as [|a word IH]; intros [|c p] rest Hp; try done.
  simpl in Hp. injection Hp as Hc Hp.
  change (String c p +:+ rest) with (String c (p +:+ rest)).
  cbn [ignoreCase_prefix]. rewrite Hc, Ascii.eqb_refl. by apply IH.
Qed.

Lemma ignoreCase_prefix_inv word : ∀ name rest,
  ignoreCase_prefix word name = Some rest →
  ∃ p, name = p +:+ rest ∧ string_toUpperCase p = string_toUpperCase word.
Proof.
  induction word as [|a word IH]; intros name rest.
  - intros [= ->]. by exists "".
  - destruct name as [|c name]; [done|]. cbn [ignoreCase_prefix].
    destruct (Ascii.eqb (toUpperCase c) (toUpperCase a)) eqn:Hc; [|done].
    intros Hm. destruct (IH _ _ Hm) as (p & -> & Hp).
    exists (String c p). split; [done|]. simpl.
    apply Ascii.eqb_eq in Hc. by rewrite Hc, Hp.
Qed.

Lemma prefix_regexp_match p sep rest :
  is_prefix_word p → is_special sep = true →
  DIRECTIVE_PREFIX_REGEXP (p +:+ String sep rest) = Some rest.
Proof.
  intros [Hp|Hp] Hsep; unfold DIRECTIVE_PREFIX_REGEXP.
  - by rewrite (ignoreCase_prefix_app "x" p _ Hp), Hsep.
  - rewrite (ignoreCase_prefix_app "data" p _ Hp), Hsep.
    destruct p as [|c p]; [done|]. simpl in Hp. injection Hp as Hc _.
    change (String c p +:+ String sep rest) with (String c (p +:+ String sep rest)).
    cbn [ignoreCase_prefix]. by rewrite Hc.
Qed.

Lemma prefix_regexp_inv name rest :
  DIRECTIVE_PREFIX_REGEXP name = Some rest →
  ∃ p sep, name = p +:+ String sep rest ∧ is_prefix_word p
           ∧ is_special sep = true.
Proof.
  unfold DIRECTIVE_PREFIX_REGEXP.
  assert (Halt : ∀ word,
    match ignoreCase_prefix word name with
    | Some (String c rest) => if is_special c then Some rest else None
    | _ => None
    end = Some rest →
    ∃ p sep, name = p +:+ String sep rest
             ∧ string_toUpperCase p = string_toUpperCase word
             ∧ is_special sep = true).
  { intros word. destruct (ignoreCase_prefix word name) as [[|c r]|] eqn:Hm; try done.
    destruct (is_special c) eqn:Hc; [|done]. intros [= ->].
    destruct (ignoreCase_prefix_inv _ _ _ Hm) as (p & -> & Hp). by exists p, c. }
  destruct (match ignoreCase_prefix "x" name with
            | Some (String c rest) => if is_special c then Some rest else None
            | _ => None
            end) as [r|] eqn:Hx.
  - intros [= ->]. destruct (Halt "x" Hx) as (p & sep & -> & Hp & Hsep).
    exists p, sep. split; [done|]. split; [by left|done].
  - intros Hd. destruct (Halt "data" Hd) as (p & sep & -> & Hp & Hsep).
    exists p, sep. split; [done|]. split; [by right|done].
Qed.

(** X1: for an ASCII name, [directiveNormalize] removes one leading [x] or
    [data] (in any case) together with the special character that
    follows it, and camel-cases what is left, even when that starts with
    such a prefix again; a name that does not start this way is
    camel-cased as a whole. *)
Theorem directiveNormalize_prefix (name : string) :
  ascii_only name = true →
  (∀ p sep rest,
     name = p +:+ String sep rest → is_prefix_word p → is_special sep = true →
     directiveNormalize name = replace_special_chars rest)
  ∧ ((∀ p sep rest,
        name = p +:+ String sep rest → is_prefix_word p → is_special sep = false) →
      directiveNormalize name = replace_special_chars name).
Proof.
  intros _. split.
  - intros p sep rest -> Hp Hsep. unfold directiveNormalize.
    by rewrite prefix_regexp_match.
  - intros Hno. unfold directiveNormalize.
    destruct (DIRECTIVE_PREFIX_REGEXP name) as [rest|] eqn:Hm; [|done].
    destruct (prefix_regexp_inv _ _ Hm) as (p & sep & Hname & Hp & Hsep).
    rewrite (Hno _ _ _ Hname Hp) in Hsep. discriminate.
Qed.

(** X2: a name without [:], [-] and [_] is left as it is. *)
Theorem directiveNormalize_plain (name : string) :
  string_forall (λ c, negb (is_special c)) name = true →
  directiveNormalize name = name.
Proof.
  intros Hplain. unfold directiveNormalize.
  destruct (DIRECTIVE_PREFIX_REGEXP name) as [rest|] eqn:Hm.
  - destruct (prefix_regexp_inv _ _ Hm) as (p & sep & -> & _ & Hsep).
    rewrite string_forall_app in Hplain. simpl in Hplain. rewrite Hsep in Hplain.
    simpl in Hplain. by rewrite andb_false_r in Hplain.
  - simpl. rewrite <- (string_app_nil_r name) at 1.
    rewrite replace_keeps by done. by rewrite string_app_nil_r.
Qed.

(** X3: the camel-casing of an ASCII text that starts with a stretch [w]
    without special characters followed by a run of special characters:
    [w] is kept; when a character that is not a line terminator follows
    the run, the run and that character are replaced by its upper case and
    the camel-casing goes on after it; when the run stands at the end of a
    line, it is replaced by its last character. *)
Theorem directiveNormalize_camelCase (w : string) (a : ascii) (seps s : string) :
  ascii_only (w +:+ String a seps +:+ s) = true →
  string_forall (λ c, negb (is_special c)) w = true →
  is_special a = true → string_forall is_special seps = true →
  (∀ c rest,
     s = String c rest → is_special c = false → is_line_terminator c = false →
     replace_special_chars (w +:+ String a seps +:+ s)
       = w +:+ String (toUpperCase c) (replace_special_chars rest))
  ∧ (ends_line s = true →
     replace_special_chars (w +:+ String a seps +:+ s)
       = w +:+ String (last_char a seps) (replace_special_chars s)).
Proof.
  intros _ Hw Ha Hseps. split.
  - intros c rest -> Hc Hlt. rewrite replace_keeps by done. f_equal.
    apply replace_run; try done. simpl. by rewrite Ha.
  - intros Hs. rewrite replace_keeps by done. f_equal.
    change (String a seps +:+ s) with (String a (seps +:+ s)).
    by apply replace_run_end.
Qed.

(** X4: in the result of [directiveNormalize] on an ASCII name, a special
    character is never followed by anything but a line terminator. *)
Theorem directiveNormalize_separators (name : string) :
  ascii_only name = true →
  ∀ a c rest,
    directiveNormalize name = a +:+ String c rest →
    is_special c = true → ends_line rest = true.
Proof.
  intros _ a c rest Hname Hc.
  eapply tidy_spec; [|exact Hname|exact Hc]. apply replace_tidy.
Qed.

End Names.

(** ** Strict equality *)

Section Equality.

Lemma SFeqb_same_number x y : SFeqb x y = true ↔ same_number x y.
Proof.
  unfold SFeqb, SFcompare, same_number.
  destruct x as [s1|s1| |s1 m1 e1], y as [s2|s2| |s2 m2 e2];
    try (split; [done|intros []]); try done;
    try (destruct s1; done); try (destruct s2; done).
  - by destruct s1, s2.
  - fold (Pos.compare m1 m2).
    destruct s1, s2; try (split; [done|by intros (? & _)]).
    all: destruct (Z.compare_spec e1 e2) as [->| |];
      try (split; [done|intros (_ & _ & ?); lia]).
    all: destruct (Pos.compare_spec m1 m2) as [->| |];
      try (split; [done|intros (_ & ? & _); lia]).
    all: done.
Qed.

Lemma strict_equality_spec x y : strict_equality x y = true ↔ same_value x y.
Proof.
  destruct x, y; simpl; try (split; done); try apply SFeqb_same_number.
  all: rewrite ?Bool.eqb_true_iff, ?Z.eqb_eq, ?String.eqb_eq, ?Nat.eqb_eq;
    split; congruence.
Qed.

(** Only [NaN] differs from itself. *)
Lemma strict_equality_refl x : strict_equality x x = false ↔ x = NaN.
Proof.
  split.
  - intros Hx. destruct x as [| |b|a|z|s|i|r]; simpl in Hx;
      try done.
    + by destruct b.
    + destruct a as [s|s| |s m e]; try done; exfalso.
      * by destruct s.
      * apply not_true_iff_false in Hx. apply Hx, SFeqb_same_number. done.
    + by rewrite Z.eqb_refl in Hx.
    + by rewrite String.eqb_refl in Hx.
    + by rewrite Nat.eqb_refl in Hx.
    + by rewrite Nat.eqb_refl in Hx.
  - by intros ->.
Qed.

Lemma strictEquals_spec x y :
  strictEquals x y = true ↔ same_value x y ∨ (x = NaN ∧ y = NaN).
Proof.
  unfold strictEquals.
  rewrite orb_true_iff, andb_true_iff, !negb_true_iff, !strict_equality_refl.
  by rewrite strict_equality_spec.
Qed.

Lemma same_value_NaN_r x : ¬ same_value x NaN.
Proof. unfold NaN. destruct x as [| |?|[]|?|?|?|?]; simpl; tauto. Qed.

Lemma same_value_NaN_l x : ¬ same_value NaN x.
Proof. unfold NaN. destruct x as [| |?|[]|?|?|?|?]; simpl; tauto. Qed.

Lemma same_value_sym x y : same_value x y → same_value y x.
Proof.
  destruct x as [| |?|fa|?|?|?|?], y as [| |?|fb|?|?|?|?]; simpl; try done.
  destruct fa, fb; simpl; try done. by intros (-> & -> & ->).
Qed.

Lemma same_value_trans x y z : same_value x y → same_value y z → same_value x z.
Proof.
  destruct x as [| |?|fa|?|?|?|?], y as [| |?|fb|?|?|?|?]; simpl; try done;
    destruct z as [| |?|fc|?|?|?|?]; simpl; try done; try congruence.
  destruct fa, fb; simpl; try done; destruct fc; simpl; try done; try congruence.
  by intros (-> & -> & ->).
Qed.

(** X5: [strictEquals] is an equivalence on the values: every value equals
    itself (which [===] does not give for [NaN]), the order of the
    arguments does not matter, and the relation is transitive. *)
Theorem strictEquals_equivalence :
  (∀ x, strictEquals x x = true)
  ∧ (∀ x y, strictEquals x y = strictEquals y x)
  ∧ (∀ x y z, strictEquals x y = true → strictEquals y z = true →
              strictEquals x z = true).
Proof.
  split; [|split].
  - intros x. unfold strictEquals. destruct (strict_equality x x); done.
  - assert (Hsym : ∀ x y, strictEquals x y = true → strictEquals y x = true).
    { intros x y Hxy. apply strictEquals_spec in Hxy. apply strictEquals_spec.
      destruct Hxy as [Hxy|[-> ->]]; [left|by right]. by apply same_value_sym. }
    intros x y. apply eq_true_iff_eq. split; apply Hsym.
  - intros x y z Hxy Hyz. apply strictEquals_spec in Hxy, Hyz.
    apply strictEquals_spec.
    destruct Hxy as [Hxy|[-> ->]]; destruct Hyz as [Hyz|[Hy ->]]; try subst y.
    + left. by eapply same_value_trans.
    + by apply same_value_NaN_r in Hxy.
    + by apply same_value_NaN_l in Hyz.
    + by right.
Qed.

(** X6: [strictEquals] holds exactly when [===] holds or both values are
    [NaN]; it agrees with [===] as soon as one of the values is not
    [NaN]; like [===] it takes the two zeros for equal. *)
Theorem strictEquals_except_NaN :
  (∀ x y, strictEquals x y = true ↔
          strict_equality x y = true ∨ (x = NaN ∧ y = NaN))
  ∧ strict_equality NaN NaN = false
  ∧ (∀ x y, x ≠ NaN ∨ y ≠ NaN → strictEquals x y = strict_equality x y)
  ∧ strictEquals (JsNumber (S754_zero false)) (JsNumber (S754_zero true)) = true.
Proof.
  split; [|split; [|split]]; [| done | | done].
  - intros x y. pose proof (strictEquals_spec x y).
    pose proof (strict_equality_spec x y). tauto.
  - intros x y Hne. unfold strictEquals.
    destruct (strict_equality x y); [done|]. simpl.
    destruct (strict_equality x x) eqn:Hx; [done|].
    destruct (strict_equality y y) eqn:Hy; [by rewrite andb_false_r|].
    apply strict_equality_refl in Hx, Hy. by destruct Hne as [[]|[]].
Qed.

End Equality.

(** ** The AngularJS global *)

Section AngularJSGlobal.

Lemma entry_point_call f m args :
  is_entry_point f m args → f = angular1.call m args.
Proof.
  destruct m, args as [|a [|b [|c [|? ?]]]]; simpl; try done.
Qed.

(** X7: when the file is evaluated where there is no [window], or where
    [window] has no property [angular], [angular] is the placeholder,
    [version] is [undefined], and every entry point throws the error that
    AngularJS is not loaded, calling nothing. *)
Theorem angular1_not_loaded host answers f m args :
  host = angular1.NoWindow ∨ host = angular1.Window None →
  is_entry_point f m args →
  ∃ s, angular1.load host answers = inr s
       ∧ angular1.version s = VUndefined
       ∧ angular1.getAngularJSGlobal s = angular1.NoNg
       ∧ f s = (inl (Error "AngularJS v1.x is not loaded!"), s).
Proof.
  intros Hhost Hf. apply entry_point_call in Hf as ->.
  destruct Hhost as [-> | ->]; eexists; repeat split.
Qed.

(** X8: after [setAngularJSGlobal(ng)], whatever was set before (by
    either setter), both getters return [ng]; an entry point called from
    then on goes to [ng]: a library object receives the call with the
    arguments and its answer is returned, and [version] is its version;
    the placeholder throws the not-loaded error; [undefined] and [null]
    make the entry point throw a [TypeError], and [version] is that
    value. *)
Theorem angular1_global_last_set f m args (s : angular1.State)
    (earlier ng : angular1.AngularJS) :
  is_entry_point f m args →
  let s' := angular1.setAngularJSGlobal ng (angular1.setAngularLib earlier s) in
  angular1.getAngularJSGlobal s' = ng
  ∧ angular1.getAngularLib s' = ng
  ∧ match ng with
    | angular1.Library id v =>
        angular1.version s' = v
        ∧ ∃ s'', f s' = (inr (angular1.answers s id m args), s'')
                 ∧ angular1.calls s'' = (angular1.calls s ++ [(id, m, args)])%list
                 ∧ angular1.getAngularJSGlobal s'' = ng
    | angular1.NoNg =>
        angular1.version s' = VUndefined
        ∧ f s' = (inl (Error "AngularJS v1.x is not loaded!"), s')
    | angular1.Undefined =>
        angular1.version s' = VUndefined
        ∧ ∃ message, f s' = (inl (TypeError message), s')
    | angular1.Null =>
        angular1.version s' = VNull
        ∧ ∃ message, f s' = (inl (TypeError message), s')
    end.
Proof.
  intros Hf. apply entry_point_call in Hf as ->. simpl.
  split; [done|]. split; [done|].
  destruct ng; simpl; unfold angular1.call; simpl; eauto.
Qed.

End AngularJSGlobal.

(** ** Lazy modules, directives and their errors *)

Section Modules.
Context `{Constants}.




(** X9: [getTypeName] returns the overridden name when there is one,
    otherwise the name when there is one, otherwise the first line of the
    text of the type: a text without line feed that is the whole text or
    is followed by a line feed in it. *)
Theorem getTypeName_choice (type : ComponentType) :
  (overriddenName type ≠ "" → getTypeName type = overriddenName type)
  ∧ (overriddenName type = "" → c_name type ≠ "" →
       getTypeName type = c_name type)
  ∧ (overriddenName type = "" → c_name type = "" →
       (∀ a rest, getTypeName type ≠ a +:+ newline +:+ rest)
       ∧ (c_toString type = getTypeName type
          ∨ ∃ rest, c_toString type = getTypeName type +:+ newline +:+ rest)).
Proof.
  unfold getTypeName. split; [|split].
  - intros Hne. by destruct (overriddenName type).
  - intros -> Hne. simpl. by destruct (c_name type).
  - intros -> ->. simpl. generalize (c_toString type). clear type. intros text.
    split.
    + induction text as [|c text IH]; intros a rest.
      * by destruct a.
      * simpl. destruct (Ascii.eqb c (Ascii.ascii_of_nat 10)) eqn:Hc.
        { by destruct a. }
        destruct a as [|c' a]; simpl.
        { intros [= -> _]. by rewrite Ascii.eqb_refl in Hc. }
        intros [= _ Heq]. by eapply IH.
    + induction text as [|c text IH]; [by left|].
      simpl. destruct (Ascii.eqb c (Ascii.ascii_of_nat 10)) eqn:Hc.
      * right. exists text. apply Ascii.eqb_eq in Hc. by subst c.
      * destruct IH as [IH|[rest IH]]; [left|right; exists rest].
        { by f_equal. }
        change (String c text = String c (first_line text +:+ newline +:+ rest)).
        by f_equal.
Qed.


Lemma no_bootstrap_refl w : no_bootstrap w w.
Proof. by repeat split. Qed.

Lemma no_bootstrap_trans w1 w2 w3 :
  no_bootstrap w1 w2 → no_bootstrap w2 w3 → no_bootstrap w1 w3.
Proof.
  intros (?&?&?&?&?&?) (?&?&?&?&?&?). repeat split; congruence.
Qed.

Lemma downgradeModule_no_bootstrap src w :
  no_bootstrap w (world_of (downgradeModule src w)).
Proof. by repeat split. Qed.

Lemma downgradeModules_no_bootstrap srcs w :
  no_bootstrap w (world_of (downgradeModules srcs w)).
Proof.
  revert w. induction srcs as [|src srcs IH]; intros w; [apply no_bootstrap_refl|].
  destruct (downgradeModule_ok src w) as (w1 & Hrun & _).
  destruct (downgradeModules_ok srcs w1) as (w2 & Hrun2 & _).
  pose proof (downgradeModule_no_bootstrap src w) as H1.
  pose proof (IH w1) as H2. rewrite Hrun in H1. rewrite Hrun2 in H2.
  simpl. unfold mbind, M_bind. rewrite Hrun.
  fold (@mbind M _). unfold mbind, M_bind. rewrite Hrun2. simpl.
  by eapply no_bootstrap_trans.
Qed.

Lemma loadModule_lazy_state i m w c :
  count_key_distinct → is_lazy_module m → count_is i w c →
  ∃ w', loadModule i m w = Ok tt w'
        ∧ count_is i w' (c + 1)
        ∧ ng1Modules w' = ng1Modules w
        ∧ no_bootstrap w w'
        ∧ instanceCache (ng1 w' i) !! UPGRADE_APP_TYPE_KEY = Some (VNum 3).
Proof.
  intros (Hk1 & Hk2 & Hk3 & Hk4 & Hk5) (name & fn & Hq & Hcfg) Hc.
  unfold loadModule. rewrite Hq, Hcfg.
  unfold for_each, run_invoke, run_config, provide_constant, provide_factory,
    set_ng1.
  munfold. simpl.
  rewrite !ng1_set_injectors. simpl.
  match goal with
  | |- context [getDowngradedModuleCount i ?w1] =>
      assert (Hc1 : count_is i w1 c)
  end.
  { unfold count_is. rewrite ng1_set_injectors. simpl.
    rewrite !lookup_insert_ne by done. exact Hc. }
  rewrite (getDowngradedModuleCount_count_is _ _ _ Hc1).
  rewrite !ng1_set_injectors. simpl.
  eexists. split; [reflexivity|]. split; [|split; [done|split; [by repeat split|]]].
  - right. rewrite ng1_set_injectors. simpl. by rewrite lookup_insert_eq.
  - rewrite ng1_set_injectors. simpl.
    rewrite lookup_insert_ne by done. by rewrite lookup_insert_eq.
Qed.

Lemma loadModules_lazy_state i names w c :
  count_key_distinct → Forall (registered_lazy w) names → count_is i w c →
  ∃ w', loadModules i names w = Ok tt w'
        ∧ count_is i w' (c + Z.of_nat (length names))
        ∧ no_bootstrap w w'
        ∧ (names ≠ [] →
           instanceCache (ng1 w' i) !! UPGRADE_APP_TYPE_KEY = Some (VNum 3)).
Proof.
  intros Hk. revert w c. induction names as [|name names IH]; intros w c Hreg Hc.
  - exists w. split; [done|]. simpl. rewrite Z.add_0_r.
    split; [done|]. split; [apply no_bootstrap_refl|done].
  - apply Forall_cons in Hreg as [(m & Hm & Hlazy) Hreg].
    destruct (loadModule_lazy_state i m w c Hk Hlazy Hc)
      as (w1 & Hrun & Hc1 & Hmods & Hnb & Ht).
    destruct (IH w1 (c + 1)%Z) as (w2 & Hrun2 & Hc2 & Hnb2 & Ht2); [|done|].
    { eapply Forall_impl; [exact Hreg|]. unfold registered_lazy.
      intros ?. by rewrite Hmods. }
    exists w2. split; [|split; [|split]].
    + unfold loadModules in *. simpl. munfold. rewrite Hm, Hrun. exact Hrun2.
    + replace (c + Z.of_nat (length (name :: names)))%Z
        with (c + 1 + Z.of_nat (length names))%Z by (simpl length; lia).
      done.
    + by eapply no_bootstrap_trans.
    + intros _. destruct names as [|name' names]; [|by apply Ht2].
      unfold loadModules in Hrun2. simpl in Hrun2. by injection Hrun2 as <-.
Qed.

(** X14: registering any number of lazy modules and loading them into an
    AngularJS injector calls no bootstrap function: no call is recorded,
    no promise and no lazy module reference is made, no job is queued and
    the hand-off cell is left as it is. *)
Theorem registration_bootstraps_nothing (srcs : list BootstrapSource)
    (i : IInjectorService) (w : World) (c : Z) :
  count_key_distinct → count_is i w c →
  ∃ names w1 w2,
    downgradeModules srcs w = Ok names w1
    ∧ loadModules i names w1 = Ok tt w2
    ∧ log w2 = log w
    ∧ promises w2 = promises w
    ∧ lazyModuleRefs w2 = lazyModuleRefs w
    ∧ microtasks w2 = microtasks w
    ∧ tempInjectorRef w2 = tempInjectorRef w.
Proof.
  intros Hk Hc.
  destruct (downgradeModules_ok srcs w) as (w1 & Hrun & _ & Hinj & Hreg).
  pose proof (downgradeModules_no_bootstrap srcs w) as Hnb1.
  rewrite Hrun in Hnb1. simpl in Hnb1.
  destruct (loadModules_lazy_state i (names_from (moduleUid w) (length srcs)) w1 c Hk)
    as (w2 & Hload & _ & Hnb2 & _).
  { apply Forall_forall. intros name Hin. apply Hreg. by right. }
  { unfold count_is, ng1 in *. by rewrite Hinj. }
  destruct (no_bootstrap_trans _ _ _ Hnb1 Hnb2) as (?&?&?&?&?&?).
  by eexists _, w1, w2.
Qed.


(** ** The flags of a directive *)

Lemma getUpgradeAppType_cached i w t :
  instanceCache (ng1 w i) !! UPGRADE_APP_TYPE_KEY = Some t →
  getUpgradeAppType i w = Ok t w.
Proof.
  intros Ht. unfold getUpgradeAppType, injector_has, injector_get. munfold.
  rewrite Ht, orb_true_r. by apply instantiate_cached.
Qed.

Lemma getUpgradeAppType_absent i w :
  providers (ng1 w i) !! UPGRADE_APP_TYPE_KEY = None →
  instanceCache (ng1 w i) !! UPGRADE_APP_TYPE_KEY = None →
  getUpgradeAppType i w = Ok (VNum 0) w.
Proof.
  intros Hp Hc. unfold getUpgradeAppType, injector_has. munfold.
  by rewrite Hp, Hc.
Qed.

(** X15: in an injector into which [n >= 1] lazy modules (and nothing
    else that counts) have been loaded, [directiveFactory] makes a
    directive in Lite mode, with [hasMultipleDowngradedModules] exactly
    when [n > 1], and without zone. *)
Theorem directive_flags_after_loading (srcs : list BootstrapSource)
    (i : IInjectorService) (w : World) (info : DowngradeInfo) :
  count_key_distinct → count_is i w 0 → srcs ≠ [] →
  ∃ names w1 w2 d w3,
    downgradeModules srcs w = Ok names w1
    ∧ loadModules i names w1 = Ok tt w2
    ∧ directiveFactory info i w2 = Ok d w3
    ∧ directives w3 !! d
        = Some {| d_info := info; d_injector := i; isNgUpgradeLite := true;
                  hasMultipleDowngradedModules := bool_decide (1 < length srcs);
                  ngZone := None |}.
Proof.
  intros Hk Hc Hne.
  destruct (downgradeModules_ok srcs w) as (w1 & Hrun & _ & Hinj & Hreg).
  destruct (loadModules_lazy_state i (names_from (moduleUid w) (length srcs)) w1 0 Hk)
    as (w2 & Hload & Hc2 & _ & Ht).
  { apply Forall_forall. intros name Hin. apply Hreg. by right. }
  { unfold count_is, ng1 in *. by rewrite Hinj. }
  assert (Hlen : length (names_from (moduleUid w) (length srcs)) = length srcs).
  { unfold names_from. by rewrite length_fmap, length_seq. }
  rewrite Hlen in Hc2.
  assert (Hnames : names_from (moduleUid w) (length srcs) ≠ []).
  { intros Hnil. rewrite Hnil in Hlen. by destruct srcs. }
  specialize (Ht Hnames).
  eexists _, w1, w2, _, _. split; [exact Hrun|]. split; [exact Hload|].
  unfold directiveFactory. unfold mbind at 1, M_bind at 1.
  rewrite (getUpgradeAppType_cached _ _ _ Ht). simpl.
  unfold mbind at 1, M_bind at 1. unfold mbind at 1, M_bind at 1.
  rewrite (getDowngradedModuleCount_count_is _ _ _ Hc2).
  munfold. simpl. split; [reflexivity|]. simpl.
  rewrite lookup_insert_eq. do 2 f_equal.
  rewrite Z.add_0_l.
  destruct (Z.ltb_spec 1 (Z.of_nat (length srcs))).
  - by rewrite bool_decide_eq_true_2 by lia.
  - by rewrite bool_decide_eq_false_2 by lia.
Qed.

(** ** Outside an upgrade application *)

Lemma validateInjectionKey_default i dm key action w t w1 n w2 :
  getUpgradeAppType i w = Ok t w1 →
  getDowngradedModuleCount i w1 = Ok n w2 →
  t ≠ VNum 1 → t ≠ VNum 2 → t ≠ VNum 3 →
  validateInjectionKey i dm key action w
    = Throw (Error (not_a_valid_application action)) w2.
Proof.
  intros Ht Hn H1 H2 H3.
  rewrite (validateInjectionKey_reads _ _ _ _ _ _ _ _ _ Ht Hn).
  by destruct t as [| |[|[[?|?|]|[?|?|]|]|]| | | | | | | | |].
Qed.

Lemma validateInjectionKey_absent i dm key action w c :
  providers (ng1 w i) !! UPGRADE_APP_TYPE_KEY = None →
  instanceCache (ng1 w i) !! UPGRADE_APP_TYPE_KEY = None →
  count_is i w c →
  validateInjectionKey i dm key action w
    = Throw (Error (not_a_valid_application action)) w.
Proof.
  intros Hp Hc Hcount.
  by apply (validateInjectionKey_default i dm key action w (VNum 0) w (VNum c) w);
    [apply getUpgradeAppType_absent|apply getDowngradedModuleCount_count_is|..].
Qed.

(** X11: when the application type is none of Dynamic, Static and Lite,
    [validateInjectionKey] throws the not-a-valid-application error,
    whatever the module name and the key; this is so in a container that
    has no application type key. *)
Theorem validateInjectionKey_other_application (i : IInjectorService)
    (dm key action : string) (w : World) :
  (∀ t w1 n w2,
     getUpgradeAppType i w = Ok t w1 →
     getDowngradedModuleCount i w1 = Ok n w2 →
     t ≠ VNum 1 → t ≠ VNum 2 → t ≠ VNum 3 →
     validateInjectionKey i dm key action w
       = Throw (Error (not_a_valid_application action)) w2)
  ∧ (∀ c,
       providers (ng1 w i) !! UPGRADE_APP_TYPE_KEY = None →
       instanceCache (ng1 w i) !! UPGRADE_APP_TYPE_KEY = None →
       count_is i w c →
       validateInjectionKey i dm key action w
         = Throw (Error (not_a_valid_application action)) w).
Proof.
  split.
  - intros t w1 n w2. apply validateInjectionKey_default.
  - intros c. apply validateInjectionKey_absent.
Qed.

(** X12: in a container without application type key, [link] without
    ancestor injector throws the not-a-valid-application error for the
    component, before anything is created or bootstrapped. *)
Theorem link_outside_upgrade_application (directive scope element attrs : nat)
    (parentInjector ngModel : Value) (d : Directive) (w : World) (c : Z) :
  directives w !! directive = Some d →
  truthy parentInjector = false →
  providers (ng1 w (d_injector d)) !! UPGRADE_APP_TYPE_KEY = None →
  instanceCache (ng1 w (d_injector d)) !! UPGRADE_APP_TYPE_KEY = None →
  count_is (d_injector d) w c →
  ∃ w',
    link directive scope element attrs (parentInjector, ngModel) w
      = Throw (Error (not_a_valid_application
                 ("instantiating component '"
                  +:+ getTypeName (component (d_info d)) +:+ "'"))) w'
    ∧ log w' = log w
    ∧ elementData w' = elementData w
    ∧ parentInjectorPromises w' = parentInjectorPromises w
    ∧ promises w' = promises w
    ∧ microtasks w' = microtasks w.
Proof.
  intros Hd Hp Hpr Hca Hcount.
  rewrite (link_unfold _ _ _ _ _ _ _ _ Hd).
  unfold moduleInjectorFor. rewrite Hp. simpl.
  unfold mbind at 1, M_bind at 1.
  match goal with
  | |- context [validateInjectionKey ?i ?dm ?key ?action ?w0] =>
      rewrite (validateInjectionKey_absent i dm key action w0 c) by done
  end.
  eexists. by repeat split.
Qed.

(** ** The lazy module reference *)

Lemma lazyModuleRefFactory_log name fn i w :
  ∃ result p promise w',
    lazyModuleRefFactory name fn i w = Ok (VLazyModuleRef result) w'
    ∧ log w' = (log w ++ [EvBootstrap name p])%list
    ∧ lazyModuleRefs w' !! result
        = Some {| needsNgZone := true; lmr_injector := None;
                  lmr_promise := Some promise |}
    ∧ tempInjectorRef w' = Some i
    ∧ injectors w' = injectors w.
Proof.
  unfold lazyModuleRefFactory, call_bootstrapFn, setTempInjectorRef,
    promise_then, new_promise, set_promise, enqueue.
  munfold. simpl.
  set (p := fresh (dom (promises w))).
  assert (Hne : ∀ st, fresh (dom (<[p := st]> (promises w))) ≠ p).
  { intros st. apply fresh_promise_ne. by rewrite lookup_insert_eq. }
  rewrite lookup_insert_ne by apply Hne. rewrite lookup_insert_eq.
  destruct fn; simpl; eexists _, p, _, _; (split; [reflexivity|]); simpl;
    rewrite lookup_insert_eq; done.
Qed.

Lemma size_providers_pos (m : gmap string Provider) key p :
  m !! key = Some p → ∃ n, size m = S n.
Proof.
  intros Hkey. destruct (size m) as [|n] eqn:Hs; [|by eexists].
  apply map_size_empty_iff in Hs. by rewrite Hs in Hkey.
Qed.

Lemma size_providers_two (m : gmap string Provider) k1 k2 p1 p2 :
  k1 ≠ k2 → m !! k1 = Some p1 → m !! k2 = Some p2 → ∃ n, size m = S (S n).
Proof.
  intros Hne H1 H2.
  assert (delete k1 m !! k2 = Some p2) as Hd by by rewrite lookup_delete_ne.
  destruct (size_providers_pos _ _ _ Hd) as [n Hn].
  rewrite map_size_delete_Some in Hn by eauto.
  exists n. destruct (size_providers_pos _ _ _ H1) as [n' Hn'].
  rewrite Hn' in Hn |- *. simpl in Hn. by rewrite Hn.
Qed.

(** The first use of a factory of kind [FLazyModuleRef]. *)
Lemma instantiate_lazy_ref fuel i name fn key w :
  providers (ng1 w i) !! key = Some (PFactory (FLazyModuleRef name fn)) →
  instanceCache (ng1 w i) !! key = None →
  ∃ r p w1,
    instantiate (S fuel) i key w = Ok (VLazyModuleRef r) w1
    ∧ log w1 = (log w ++ [EvBootstrap name p])%list
    ∧ tempInjectorRef w1 = Some i
    ∧ providers (ng1 w1 i) = providers (ng1 w i)
    ∧ instanceCache (ng1 w1 i) = <[key := VLazyModuleRef r]> (instanceCache (ng1 w i)).
Proof.
  intros Hp Hc. simpl. rewrite Hc, Hp.
  destruct (lazyModuleRefFactory_log name fn i w)
    as (r & p & promise & w' & Hrun & Hl & _ & Ht & Hi).
  unfold mbind at 1, M_bind at 1. rewrite Hrun.
  unfold cache_instance, set_ng1. munfold. simpl.
  eexists r, p, _. split; [reflexivity|]. simpl.
  rewrite ng1_set_injectors. simpl. unfold ng1. rewrite Hi. by repeat split.
Qed.


(** ** The keys without a module name *)

Lemma lazyModuleNameOf_nonempty uid : lazyModuleNameOf uid ≠ "".
Proof.
  unfold lazyModuleNameOf. by destruct UPGRADE_MODULE_NAME.
Qed.

Lemma app_ne_self (s t : string) : t ≠ "" → s ≠ s +:+ t.
Proof.
  intros Ht Heq. rewrite <- (string_app_nil_r s) in Heq at 1.
  apply String.app_inj in Heq. congruence.
Qed.

(** The first use of a factory of kind [FIdentity] whose dependency is a
    lazy module reference. *)
Lemma instantiate_alias fuel i name fn alias key w :
  providers (ng1 w i) !! alias = Some (PFactory (FIdentity key)) →
  providers (ng1 w i) !! key = Some (PFactory (FLazyModuleRef name fn)) →
  instanceCache (ng1 w i) !! alias = None →
  instanceCache (ng1 w i) !! key = None →
  ∃ r p w1,
    instantiate (S (S fuel)) i alias w = Ok (VLazyModuleRef r) w1
    ∧ log w1 = (log w ++ [EvBootstrap name p])%list
    ∧ instanceCache (ng1 w1 i) !! key = Some (VLazyModuleRef r)
    ∧ instanceCache (ng1 w1 i) !! alias = Some (VLazyModuleRef r).
Proof.
  intros Hpa Hpk Hca Hck.
  destruct (instantiate_lazy_ref fuel i name fn key w Hpk Hck)
    as (r & p & w1 & Hrun & Hl & Ht & Hp1 & Hc1).
  cbn [instantiate]. rewrite Hca, Hpa.
  unfold mbind at 1, M_bind at 1. cbn [instantiate] in Hrun. rewrite Hrun.
  unfold cache_instance, set_ng1. munfold. simpl.
  eexists r, p, _. split; [reflexivity|]. simpl.
  rewrite ng1_set_injectors. simpl. rewrite Hc1.
  split; [done|]. split; [|apply lookup_insert_eq].
  destruct (decide (alias = key)) as [->|Hne]; [congruence|].
  rewrite lookup_insert_ne by done. apply lookup_insert_eq.
Qed.

Lemma loadModule_serves i m name fn w c :
  keys_apart → name ≠ "" →
  m_invokeQueue m = lazy_invokeQueue name fn →
  m_configBlocks m = [CfgCountDowngradedModule] →
  count_is i w c →
  ∃ w', loadModule i m w = Ok tt w'
    ∧ no_bootstrap w w'
    ∧ providers (ng1 w' i) !! LAZY_MODULE_REF
        = Some (PFactory (FIdentity (LAZY_MODULE_REF +:+ name)))
    ∧ providers (ng1 w' i) !! (LAZY_MODULE_REF +:+ name)
        = Some (PFactory (FLazyModuleRef name fn))
    ∧ providers (ng1 w' i) !! INJECTOR_KEY
        = Some (PFactory (FIdentity (INJECTOR_KEY +:+ name)))
    ∧ providers (ng1 w' i) !! (INJECTOR_KEY +:+ name)
        = Some (PFactory (FLazyInjector name))
    ∧ (∀ s, instanceCache (ng1 w' i) !! (LAZY_MODULE_REF +:+ s)
            = instanceCache (ng1 w i) !! (LAZY_MODULE_REF +:+ s))
    ∧ (∀ s, instanceCache (ng1 w' i) !! (INJECTOR_KEY +:+ s)
            = instanceCache (ng1 w i) !! (INJECTOR_KEY +:+ s)).
Proof.
  intros ((Hk1 & Hk2 & Hk3 & Hk4 & Hk5) & Ha1 & Ha2 & Ha3) Hname Hq Hcfg Hc.
  pose proof (Ha3 "" "") as Hil. rewrite !string_app_nil_r in Hil.
  pose proof (λ s, Ha3 "" s) as Hil1. rewrite string_app_nil_r in Hil1.
  pose proof (λ s, Ha3 s "") as Hil2.
  assert (∀ s, INJECTOR_KEY +:+ s ≠ LAZY_MODULE_REF) as Hil3.
  { intros s. specialize (Hil2 s). by rewrite string_app_nil_r in Hil2. }
  pose proof (app_ne_self LAZY_MODULE_REF name Hname) as Hl.
  pose proof (app_ne_self INJECTOR_KEY name Hname) as Hi.
  unfold loadModule. rewrite Hq, Hcfg.
  unfold lazy_invokeQueue, for_each, run_invoke, run_config, provide_constant,
    provide_factory, set_ng1.
  munfold. simpl.
  rewrite !ng1_set_injectors. simpl.
  match goal with
  | |- context [getDowngradedModuleCount i ?w1] =>
      assert (Hc1 : count_is i w1 c)
  end.
  { unfold count_is. rewrite ng1_set_injectors. simpl.
    rewrite !lookup_insert_ne by done. exact Hc. }
  rewrite (getDowngradedModuleCount_count_is _ _ _ Hc1).
  rewrite !ng1_set_injectors. simpl.
  eexists. split; [reflexivity|]. rewrite ng1_set_injectors. simpl.
  split; [by repeat split|].
  split. { rewrite lookup_insert_ne by done. rewrite lookup_insert_ne by done.
           apply lookup_insert_eq. }
  split. { rewrite lookup_insert_ne by done. apply lookup_insert_eq. }
  split. { rewrite lookup_insert_ne by done. rewrite lookup_insert_ne by done.
           rewrite lookup_insert_ne by done. rewrite lookup_insert_ne by done.
           apply lookup_insert_eq. }
  split. { rewrite lookup_insert_ne by done. rewrite lookup_insert_ne by done.
           rewrite lookup_insert_ne by done. apply lookup_insert_eq. }
  split; intros s.
  - rewrite lookup_insert_ne by done. by rewrite lookup_insert_ne by done.
  - rewrite lookup_insert_ne by done. by rewrite lookup_insert_ne by done.
Qed.

(** X17: whatever was loaded before (no lazy module reference having
    been made yet), after a lazy module has been registered and loaded
    the key without module name stands for that module: its lookup
    bootstraps that module, once, and the lookup of the key with the
    module name then returns the same reference. *)
Theorem unnamed_key_follows_last_module (src : BootstrapSource)
    (i : IInjectorService) (w : World) (c : Z) :
  keys_apart → count_is i w c →
  (∀ s, instanceCache (ng1 w i) !! (LAZY_MODULE_REF +:+ s) = None) →
  ∃ name w1 w2 r p w3,
    downgradeModule src w = Ok name w1
    ∧ loadModules i [name] w1 = Ok tt w2
    ∧ injector_get i LAZY_MODULE_REF w2 = Ok (VLazyModuleRef r) w3
    ∧ log w3 = (log w ++ [EvBootstrap name p])%list
    ∧ injector_get i (LAZY_MODULE_REF +:+ name) w3 = Ok (VLazyModuleRef r) w3
    ∧ injector_get i LAZY_MODULE_REF w3 = Ok (VLazyModuleRef r) w3.
Proof.
  intros Hk Hc Hfresh.
  destruct (downgradeModule_ok src w)
    as (w1 & Hrun & _ & _ & m & Hm & Hq & Hcfg & Hinj).
  set (name := lazyModuleNameOf (N.succ (moduleUid w))) in *.
  pose proof (downgradeModule_no_bootstrap src w) as Hnb1.
  rewrite Hrun in Hnb1. simpl in Hnb1.
  assert (Hng : ng1 w1 i = ng1 w i) by (unfold ng1; by rewrite Hinj).
  destruct (loadModule_serves i m name _ w1 c Hk (lazyModuleNameOf_nonempty _) Hq Hcfg)
    as (w2 & Hload & Hnb2 & Hp1 & Hp2 & _ & _ & Hcache & _).
  { unfold count_is in *. by rewrite Hng. }
  assert (Hc1 : instanceCache (ng1 w2 i) !! LAZY_MODULE_REF = None).
  { specialize (Hcache ""). rewrite string_app_nil_r in Hcache.
    rewrite Hcache, Hng. specialize (Hfresh ""). by rewrite string_app_nil_r in Hfresh. }
  assert (Hc2 : instanceCache (ng1 w2 i) !! (LAZY_MODULE_REF +:+ name) = None).
  { by rewrite Hcache, Hng. }
  destruct (size_providers_two (providers (ng1 w2 i)) _ _ _ _
              (app_ne_self LAZY_MODULE_REF name (lazyModuleNameOf_nonempty _)) Hp1 Hp2)
    as [n Hn].
  destruct (instantiate_alias n i name _ _ _ w2 Hp1 Hp2 Hc1 Hc2)
    as (r & p & w3 & Hget & Hl & Hk3 & Ha3).
  exists name, w1, w2, r, p, w3.
  split; [done|]. split.
  { unfold loadModules. simpl. munfold. rewrite Hm, lookup_insert_eq.
    by rewrite Hload. }
  split. { unfold injector_get. by rewrite Hn. }
  split. { destruct Hnb1 as (Hl1 & _), Hnb2 as (Hl2 & _). by rewrite Hl, Hl2, Hl1. }
  split; unfold injector_get; by apply instantiate_cached.
Qed.

(** ** The injector key *)

(** X18: with the registrations of a lazy module, the lookup of the
    injector key throws the before-bootstrap error, and leaves the store
    as it is, as long as the bootstrap handler has not run; the failure is
    not remembered: once the handler has run the same lookup returns the
    injector made by the handler, as does every later one. *)
Theorem injector_key_after_bootstrap (i : IInjectorService) (name : string)
    (w : World) :
  providers (ng1 w i) !! INJECTOR_KEY
    = Some (PFactory (FIdentity (INJECTOR_KEY +:+ name))) →
  providers (ng1 w i) !! (INJECTOR_KEY +:+ name)
    = Some (PFactory (FLazyInjector name)) →
  instanceCache (ng1 w i) !! INJECTOR_KEY = None →
  instanceCache (ng1 w i) !! (INJECTOR_KEY +:+ name) = None →
  (lazyInjector w !! name = None →
     injector_get i INJECTOR_KEY w = Throw (Error before_bootstrap_message) w)
  ∧ (∀ result m,
       let w1 := world_of (bootstrapped name result (VModuleRef m) w) in
       ∃ w2,
         injector_get i INJECTOR_KEY w1
           = Ok (VInjector (NgAdapterInjector m)) w2
         ∧ log w2 = log w1
         ∧ injector_get i INJECTOR_KEY w2
             = Ok (VInjector (NgAdapterInjector m)) w2).
Proof.
  intros Hp1 Hp2 Hc1 Hc2.
  assert (Hne : INJECTOR_KEY ≠ INJECTOR_KEY +:+ name) by congruence.
  split.
  - intros Hl. destruct (size_providers_two _ _ _ _ _ Hne Hp1 Hp2) as [n Hn].
    unfold injector_get. rewrite Hn. cbn [instantiate].
    rewrite Hc1, Hp1. unfold mbind at 1, M_bind at 1.
    rewrite Hc2, Hp2. unfold mbind at 1, M_bind at 1.
    by rewrite (lazyInjectorFactory_unset _ _ Hl).
  - intros result m w1.
    pose proof (bootstrapped_stores name result m w) as Hl. fold w1 in Hl.
    assert (Hng : ng1 w1 i = ng1 w i).
    { unfold w1, bootstrapped. munfold. unfold injectorFactory. simpl.
      by destruct (tempInjectorRef w). }
    rewrite <- Hng in Hp1, Hp2, Hc1, Hc2.
    destruct (size_providers_two _ _ _ _ _ Hne Hp1 Hp2) as [n Hn].
    unfold injector_get at 1. rewrite Hn. cbn [instantiate].
    rewrite Hc1, Hp1. unfold mbind at 1, M_bind at 1.
    rewrite Hc2, Hp2. unfold mbind at 1, M_bind at 1.
    rewrite (lazyInjectorFactory_set _ _ _ Hl).
    unfold cache_instance, set_ng1. munfold. simpl.
    eexists. split; [reflexivity|]. split; [done|].
    unfold injector_get. apply instantiate_cached.
    rewrite !ng1_set_injectors. simpl. apply lookup_insert_eq.
Qed.

(** ** The hand-off cell and the bootstrap handler *)



(** ** Creation without a component factory *)

Lemma doDowngrade_state f frame d p m w :
  frames w !! f = Some frame →
  directives w !! lf_directive frame = Some d →
  resolveComponentFactory w m (component (d_info d)) = true →
  ∃ w', doDowngrade f (VInjector p) (VInjector m) w = Ok tt w'
        ∧ log w' = (log w ++ adapter_events frame d p m ++ evalAsync_events frame)%list
        ∧ frames w' = frames w
        ∧ directives w' = directives w
        ∧ inAngularZone w' = inAngularZone w
        ∧ resolveComponentFactory w' = resolveComponentFactory w.
Proof.
  intros Hf Hd Hcf.
  unfold doDowngrade, get_frame, get_directive. munfold.
  rewrite Hf. simpl. rewrite Hd. simpl. rewrite Hcf. simpl.
  unfold ParentInjectorPromise_resolve, get_pip, set_pip, element_data.
  munfold. simpl. rewrite lookup_insert_eq. simpl. rewrite Hf. simpl.
  unfold evalAsync_events.
  destruct (ranAsync frame); simpl; eexists; (split; [reflexivity|]); simpl;
    rewrite <- ?app_assoc; repeat split; reflexivity.
Qed.

Lemma downgradeFn_state f frame d p m w :
  frames w !! f = Some frame →
  directives w !! lf_directive frame = Some d →
  resolveComponentFactory w m (component (d_info d)) = true →
  ∃ w', downgradeFn f (VInjector p) (VInjector m) w = Ok tt w'
        ∧ log w' = (log w ++ zone_events d p (inAngularZone w)
                    ++ adapter_events frame d p m
                    ++ evalAsync_events frame)%list
        ∧ frames w' = frames w
        ∧ directives w' = <[lf_directive frame := zoned p d]> (directives w)
        ∧ inAngularZone w' = inAngularZone w
        ∧ resolveComponentFactory w' = resolveComponentFactory w.
Proof.
  intros Hf Hd Hcf.
  unfold downgradeFn, get_frame, get_directive. munfold.
  rewrite Hf. simpl. rewrite Hd. simpl.
  unfold zone_events, zoned.
  destruct (isNgUpgradeLite d) eqn:Hlite; simpl.
  { destruct (ngZone d) as [z|] eqn:Hz; simpl;
      unfold wrapCallback, get_directive; munfold; simpl;
      rewrite ?lookup_insert_eq, ?Hd; simpl; rewrite ?Hlite; simpl;
      destruct (inAngularZone w) eqn:Hin; simpl; rewrite ?Hz;
      unfold ngZone_run; simpl.
    1,2: match goal with
         | |- context [doDowngrade _ _ _ ?w2] =>
             destruct (doDowngrade_state f frame d p m w2)
               as (w3 & -> & Hl3 & Hf3 & Hd3 & Hz3 & Hr3);
               [done..|]
         end.
    3,4: match goal with
         | |- context [doDowngrade _ _ _ ?w2] =>
             destruct (doDowngrade_state f frame (with_ngZone p d) p m w2)
               as (w3 & -> & Hl3 & Hf3 & Hd3 & Hz3 & Hr3);
               [simpl; rewrite ?lookup_insert_eq; done..|]
         end.
    all: eexists; (split; [reflexivity|]); simpl.
    all: rewrite Hl3, Hf3, Hd3, Hr3, ?Hz3; simpl.
    all: rewrite <- ?app_assoc, ?Hlite; repeat split; try done.
    all: symmetry; apply insert_id; rewrite Hd; f_equal;
      destruct d; unfold with_ngZone; simpl in *; congruence.
  }
  destruct (doDowngrade_state f frame d p m w Hf Hd Hcf)
    as (w3 & -> & Hl3 & Hf3 & Hd3 & Hz3 & Hr3).
  exists w3. rewrite Hd3, (insert_id _ _ _ Hd). repeat split; try done.
  rewrite Hl3. simpl. by rewrite Hlite.
Qed.

(** X22: in Lite mode the directive takes its zone from the parent
    injector of the first component it creates and keeps it: the creation
    of a second component with another parent injector leaves the zone as
    it is and, outside the Angular zone, runs in the zone of the first. *)
Theorem zone_of_first_parent_injector (f1 f2 : nat) (frame1 frame2 : LinkFrame)
    (d : Directive) (p1 m1 p2 m2 : Injector) (w : World) :
  frames w !! f1 = Some frame1 → frames w !! f2 = Some frame2 →
  lf_directive frame2 = lf_directive frame1 →
  directives w !! lf_directive frame1 = Some d →
  isNgUpgradeLite d = true → ngZone d = None →
  resolveComponentFactory w m1 (component (d_info d)) = true →
  resolveComponentFactory w m2 (component (d_info d)) = true →
  ∃ w1 w2,
    downgradeFn f1 (VInjector p1) (VInjector m1) w = Ok tt w1
    ∧ directives w1 !! lf_directive frame1 = Some (with_ngZone p1 d)
    ∧ downgradeFn f2 (VInjector p2) (VInjector m2) w1 = Ok tt w2
    ∧ directives w2 !! lf_directive frame1 = Some (with_ngZone p1 d)
    ∧ log w2 = (log w1
                ++ (if inAngularZone w then [] else [EvNgZoneRun p1])
                ++ adapter_events frame2 d p2 m2
                ++ evalAsync_events frame2)%list.
Proof.
  intros Hf1 Hf2 Hdir Hd Hlite Hz Hcf1 Hcf2.
  destruct (downgradeFn_state f1 frame1 d p1 m1 w Hf1 Hd Hcf1)
    as (w1 & Hrun1 & _ & Hfr1 & Hd1 & Hz1 & Hr1).
  assert (Hd1' : directives w1 !! lf_directive frame1 = Some (with_ngZone p1 d)).
  { rewrite Hd1, lookup_insert_eq. unfold zoned. by rewrite Hlite, Hz. }
  destruct (downgradeFn_state f2 frame2 (with_ngZone p1 d) p2 m2 w1)
    as (w2 & Hrun2 & Hl2 & _ & Hd2 & _).
  { by rewrite Hfr1. }
  { by rewrite Hdir. }
  { by rewrite Hr1. }
  exists w1, w2. split; [done|]. split; [done|]. split; [done|]. split.
  - rewrite Hd2, Hdir, lookup_insert_eq. unfold zoned. simpl. by rewrite Hlite.
  - rewrite Hl2, Hz1. unfold zone_events. simpl. rewrite Hlite. simpl.
    by destruct (inAngularZone w).
Qed.

Lemma downgradeFn_no_factory f frame d p m w :
  frames w !! f = Some frame →
  directives w !! lf_directive frame = Some d →
  resolveComponentFactory w m (component (d_info d)) = false →
  ∃ w', downgradeFn f (VInjector p) (VInjector m) w
          = Throw (Error ("Expecting ComponentFactory for: "
                          +:+ getTypeName (component (d_info d)))) w'
        ∧ log w' = (log w ++ zone_events d p (inAngularZone w))%list
        ∧ elementData w' = elementData w
        ∧ parentInjectorPromises w' = parentInjectorPromises w
        ∧ frames w' = frames w
        ∧ promises w' = promises w
        ∧ microtasks w' = microtasks w.
Proof.
  intros Hf Hd Hcf.
  unfold downgradeFn, get_frame, get_directive. munfold.
  rewrite Hf. simpl. rewrite Hd. simpl.
  unfold zone_events.
  destruct (isNgUpgradeLite d) eqn:Hlite; simpl.
  { destruct (ngZone d) as [z|] eqn:Hz; simpl;
      unfold wrapCallback, get_directive; munfold; simpl;
      rewrite ?lookup_insert_eq, ?Hd; simpl; rewrite ?Hlite; simpl;
      destruct (inAngularZone w) eqn:Hin; simpl; rewrite ?Hz;
      unfold ngZone_run; simpl.
    1,2: match goal with
         | |- context [doDowngrade _ _ _ ?w2] =>
             rewrite (doDowngrade_no_factory f frame d (VInjector p) m w2) by done
         end.
    3,4: match goal with
         | |- context [doDowngrade _ _ _ ?w2] =>
             rewrite (doDowngrade_no_factory f frame (with_ngZone p d)
                        (VInjector p) m w2)
               by (simpl; rewrite ?lookup_insert_eq; done)
         end.
    all: eexists; (split; [reflexivity|]); simpl.
    all: rewrite ?app_nil_r; by repeat split. }
  rewrite (doDowngrade_no_factory f frame d (VInjector p) m w) by done.
  eexists. split; [reflexivity|]. rewrite app_nil_r. by repeat split.
Qed.

(** X20: when the module injector gives no component factory, nothing is
    created: no call of the adapter is recorded and nothing is stored on
    the element.  [link] with an ancestor injector throws the error to
    its caller; the deferred creation records the error as the rejection
    of the promise that [then] returned and the job ends normally. *)
Theorem creation_without_component_factory :
  (∀ directive scope element attrs p ngModel d w,
     directives w !! directive = Some d →
     hasMultipleDowngradedModules d = false →
     resolveComponentFactory w p (component (d_info d)) = false →
     ∃ w',
       link directive scope element attrs (VInjector p, ngModel) w
         = Throw (Error ("Expecting ComponentFactory for: "
                         +:+ getTypeName (component (d_info d)))) w'
       ∧ log w' = (log w ++ zone_events d p (inAngularZone w))%list
       ∧ elementData w' = elementData w
       ∧ parentInjectorPromises w' = parentInjectorPromises w)
  ∧ (∀ f frame d p m derived w,
       frames w !! f = Some frame →
       directives w !! lf_directive frame = Some d →
       resolveComponentFactory w m (component (d_info d)) = false →
       ∃ w',
         run_job (JReaction (RDowngrade f) derived
                    (VArray2 (VInjector p) (VInjector m))) w = Ok tt w'
         ∧ log w'
             = (log w ++ zone_events d p (inAngularZone w)
                ++ [EvRejected derived
                      (Error ("Expecting ComponentFactory for: "
                              +:+ getTypeName (component (d_info d))))])%list
         ∧ elementData w' = elementData w
         ∧ parentInjectorPromises w' = parentInjectorPromises w
         ∧ promises w' = promises w).
Proof.
  split.
  - intros directive scope element attrs p ngModel d w Hd Hmulti Hcf.
    rewrite (link_unfold _ _ _ _ _ _ _ _ Hd).
    unfold moduleInjectorFor. rewrite Hmulti. simpl.
    unfold finalParentInjector, finalModuleInjector, js_or. simpl.
    rewrite link_dispatch_plain.
    match goal with
    | |- context [downgradeFn ?f _ _ ?w0] =>
        destruct (downgradeFn_no_factory f
                    (new_frame directive scope element attrs ngModel false)
                    d p p w0)
          as (w' & Hrun & Hl & He & Hp & _)
    end.
    { simpl. apply lookup_insert_eq. }
    { done. }
    { done. }
    rewrite Hrun. exists w'. by repeat split.
  - intros f frame d p m derived w Hf Hd Hcf.
    destruct (downgradeFn_no_factory f frame d p m w Hf Hd Hcf)
      as (w1 & Hrun & Hl & He & Hp & _ & Hpr & _).
    unfold run_job, run_reaction. unfold mbind, M_bind. rewrite Hrun.
    unfold emit. munfold. eexists. split; [reflexivity|]. simpl.
    rewrite Hl, <- app_assoc. by repeat split.
Qed.

(** ** A second [resolve] *)

(** X21: a second [resolve] throws a [TypeError] (the element has been
    released), calls no callback and leaves the element data with the
    first injector, but it has replaced the injector of the promise:
    callbacks given to [then] afterwards are called with the second
    one. *)
Theorem parent_injector_promise_resolved_twice (this : nat)
    (self : ParentInjectorPromise) (element : nat) (first second : Injector)
    (w : World) :
  parentInjectorPromises w !! this = Some self →
  pip_element self = Some element →
  ∃ w1 message w2,
    ParentInjectorPromise_resolve this first w = Ok tt w1
    ∧ ParentInjectorPromise_resolve this second w1 = Throw (TypeError message) w2
    ∧ log w2 = log w1
    ∧ elementData w2 = elementData w1
    ∧ (elementData w2 !! element) ≫= (.!! pip_injectorKey self)
        = Some (VInjector first)
    ∧ (∀ cb, ParentInjectorPromise_then this cb w2 = invoke_callback second cb w2).
Proof.
  intros Hthis Helem.
  destruct (resolve_spec this self element first w Hthis Helem)
    as (w1 & Hrun & Hl & He & Hp & _).
  exists w1. unfold ParentInjectorPromise_resolve at 2, get_pip, set_pip.
  munfold. rewrite Hp, lookup_insert_eq. simpl.
  eexists _, _. split; [done|]. split; [reflexivity|]. simpl.
  split; [done|]. split; [done|]. split.
  - rewrite He, lookup_insert_eq. simpl. apply lookup_insert_eq.
  - intros cb. eapply then_resolved; simpl; [apply lookup_insert_eq|done].
Qed.

(** ** The module name and the kind of application *)

(** X13: whenever [link] looks up the module injector, a Lite
    application that counts two modules or more makes it throw when the
    component has no module name, and an application of type Dynamic or
    Static makes it throw when the component has a module name; nothing
    is recorded, bootstrapped or stored. *)
Theorem link_module_name_errors (directive scope element attrs : nat)
    (parentInjector ngModel : Value) (d : Directive) (w : World) (c : Z) :
  let i := d_injector d in
  let action :=
    "instantiating component '" +:+ getTypeName (component (d_info d)) +:+ "'" in
  directives w !! directive = Some d →
  negb (truthy parentInjector) || hasMultipleDowngradedModules d = true →
  count_is i w c →
  (* several lazy modules, no module name *)
  (instanceCache (ng1 w i) !! UPGRADE_APP_TYPE_KEY = Some (VNum 3) →
   str_or_empty (downgradedModule (d_info d)) = "" → (2 ≤ c)%Z →
   ∃ w', link directive scope element attrs (parentInjector, ngModel) w
           = Throw (Error (not_specified action)) w'
         ∧ log w' = log w ∧ promises w' = promises w
         ∧ lazyModuleRefs w' = lazyModuleRefs w
         ∧ elementData w' = elementData w)
  (* [UpgradeModule] or [UpgradeAdapter], and a module name *)
  ∧ (∀ t, instanceCache (ng1 w i) !! UPGRADE_APP_TYPE_KEY = Some (VNum t) →
     t = 1%Z ∨ t = 2%Z →
     str_or_empty (downgradedModule (d_info d)) ≠ "" →
     ∃ w', link directive scope element attrs (parentInjector, ngModel) w
             = Throw (Error (unexpectedly_specified action)) w'
           ∧ log w' = log w ∧ promises w' = promises w
           ∧ lazyModuleRefs w' = lazyModuleRefs w
           ∧ elementData w' = elementData w).
Proof.
  intros i action Hd Hcond Hcount.
  set (w0 := set_frames (<[fresh (dom (frames w)) :=
                            new_frame directive scope element attrs ngModel false]>
                           (frames w)) w).
  assert (Hlink : ∀ e,
            validateInjectionKey i (str_or_empty (downgradedModule (d_info d)))
              (LAZY_MODULE_REF +:+ str_or_empty (downgradedModule (d_info d)))
              action w0 = Throw e w0 →
            link directive scope element attrs (parentInjector, ngModel) w
              = Throw e w0).
  { intros e Hv. rewrite (link_unfold _ _ _ _ _ _ _ _ Hd).
    unfold moduleInjectorFor. rewrite Hcond.
    unfold mbind at 1, M_bind at 1. fold i action w0. by rewrite Hv. }
  assert (Hcount0 : getDowngradedModuleCount i w0 = Ok (VNum c) w0).
  { by apply getDowngradedModuleCount_count_is. }
  assert (Htype0 : ∀ t, instanceCache (ng1 w i) !! UPGRADE_APP_TYPE_KEY = Some t →
                        getUpgradeAppType i w0 = Ok t w0).
  { intros t Ht. by apply getUpgradeAppType_cached. }
  split.
  - intros Ht Hdm Hc. exists w0. split; [|done].
    apply Hlink.
    rewrite (validateInjectionKey_reads _ _ _ _ _ _ _ _ _ (Htype0 _ Ht) Hcount0).
    rewrite Hdm. simpl. by destruct (Z.leb_spec 2 c); [|lia].
  - intros t Ht Hcase Hdm. exists w0. split; [|done].
    apply Hlink.
    rewrite (validateInjectionKey_reads _ _ _ _ _ _ _ _ _ (Htype0 _ Ht) Hcount0).
    destruct (str_truthy (str_or_empty (downgradedModule (d_info d)))) eqn:Hs.
    + by destruct Hcase as [-> | ->].
    + by destruct (str_or_empty (downgradedModule (d_info d))).
Qed.

End Modules.

(** ** A component inside a component that is being created

    While the adapter of a component is at work, the element holds the
    unresolved [ParentInjectorPromise]; a downgraded component of its
    template is linked with that object as ancestor injector. *)

Section Nested.
Context `{Constants}.

Lemma fresh_promise_None (m : gmap nat PromiseState) : m !! fresh (dom m) = None.
Proof. apply not_elem_of_dom, is_fresh. Qed.

Lemma promise_then_pending p r rs w :
  promises w !! p = Some (Pending rs) →
  let derived := fresh (dom (promises w)) in
  promise_then p r w
    = Ok derived
        (set_promises (<[p := Pending (rs ++ [(r, derived)])]>
                         (<[derived := Pending []]> (promises w))) w).
Proof.
  intros Hp derived. unfold promise_then, new_promise, set_promise. munfold.
  simpl. fold derived.
  rewrite lookup_insert_ne by (apply fresh_promise_ne; by rewrite Hp).
  by rewrite Hp.
Qed.


Lemma subscribe_parent_injector_promise all index l w :
  let p := fresh (dom (promises w)) in
  let derived := fresh (dom (<[p := Pending []]> (promises w))) in
  subscribe_element all index (VParentInjectorPromise l) w
    = Ok tt
        (set_promises (<[p := Pending [(RAllElement all index, derived)]]>
                         (<[derived := Pending []]>
                            (<[p := Pending []]> (promises w))))
           (set_microtasks
              (microtasks w ++ [JResolveThenable p (VParentInjectorPromise l)]) w)).
Proof.
  intros p derived.
  unfold subscribe_element, Promise_resolve, resolve_promise, new_promise, enqueue.
  munfold. simpl. fold p.
  rewrite (promise_then_pending p _ []); [reflexivity|].
  simpl. apply lookup_insert_eq.
Qed.

Lemma enqueue_reactions (rs : list (Reaction * nat)) v w :
  for_each (λ rd, enqueue (JReaction rd.1 rd.2 v)) rs w
    = Ok tt (set_microtasks
               (microtasks w ++ ((λ rd, JReaction rd.1 rd.2 v) <$> rs)) w).
Proof.
  revert w. induction rs as [|rd rs IH]; intros w.
  - destruct w. simpl. by rewrite app_nil_r.
  - change (for_each (λ rd, enqueue (JReaction rd.1 rd.2 v)) (rd :: rs) w)
      with (for_each (λ rd, enqueue (JReaction rd.1 rd.2 v)) rs
              (set_microtasks (microtasks w ++ [JReaction rd.1 rd.2 v]) w)).
    rewrite IH. simpl. by rewrite <- app_assoc.
Qed.

Lemma fulfill_pending p v rs w :
  promises w !! p = Some (Pending rs) →
  fulfill p v w
    = Ok tt (set_microtasks
               (microtasks w ++ ((λ rd, JReaction rd.1 rd.2 v) <$> rs))
               (set_promises (<[p := Fulfilled v]> (promises w)) w)).
Proof.
  intros Hp. unfold fulfill, set_promise. munfold. rewrite Hp.
  by rewrite enqueue_reactions.
Qed.

Lemma run_microtasks_cons fuel j rest w :
  microtasks w = j :: rest →
  run_microtasks (S fuel) w
    = match run_job j (set_microtasks rest w) with
      | Ok _ w' => run_microtasks fuel w'
      | Throw e w' => Throw e w'
      end.
Proof. intros Hq. simpl. rewrite Hq. reflexivity. Qed.

Lemma run_microtasks_nil fuel w :
  microtasks w = [] → run_microtasks fuel w = Ok tt w.
Proof. intros Hq. destruct fuel; simpl; by rewrite ?Hq. Qed.

(** The job of [Promise.resolve(thenable)] for a resolved
    [ParentInjectorPromise]: [then] calls back at once. *)
Lemma run_thenable_job p l self injector rs w :
  parentInjectorPromises w !! l = Some self →
  pip_injector self = Some injector →
  promises w !! p = Some (Pending rs) →
  run_job (JResolveThenable p (VParentInjectorPromise l)) w
    = Ok tt
        (set_microtasks
           (microtasks w ++ ((λ rd, JReaction rd.1 rd.2 (VInjector injector)) <$> rs))
           (set_promises (<[p := Fulfilled (VInjector injector)]> (promises w))
              (set_log (log w ++ [EvCallback (CbResolve p) injector]) w))).
Proof.
  intros Hl Hinj Hp. unfold run_job, ParentInjectorPromise_then, get_pip.
  munfold. rewrite Hl, Hinj. unfold invoke_callback, resolve_promise. munfold.
  simpl. rewrite (fulfill_pending p _ rs) by done. reflexivity.
Qed.


Lemma fulfill_pending_nil p v w :
  promises w !! p = Some (Pending []) →
  fulfill p v w = Ok tt (set_promises (<[p := Fulfilled v]> (promises w)) w).
Proof. intros Hp. unfold fulfill, set_promise. munfold. by rewrite Hp. Qed.

(** The job that delivers the first value of a join. *)
Lemma run_first_element_job all derived v w :
  joins w !! all = Some (None, None) →
  promises w !! derived = Some (Pending []) →
  run_job (JReaction (RAllElement all 0) derived v) w
    = Ok tt (set_promises (<[derived := Fulfilled VUndefined]> (promises w))
               (set_joins (<[all := (Some v, None)]> (joins w)) w)).
Proof.
  intros Hj Hp. unfold run_job, run_reaction, all_element. munfold.
  rewrite Hj. simpl. unfold resolve_promise. simpl.
  by rewrite fulfill_pending_nil.
Qed.

(** The job that delivers the second value, the first being there. *)
Lemma run_second_element_job all derived va v rs w :
  joins w !! all = Some (Some va, None) →
  promises w !! all = Some (Pending rs) →
  promises w !! derived = Some (Pending []) →
  all ≠ derived →
  run_job (JReaction (RAllElement all 1) derived v) w
    = Ok tt (set_promises (<[derived := Fulfilled VUndefined]>
                             (<[all := Fulfilled (VArray2 va v)]> (promises w)))
               (set_microtasks
                  (microtasks w ++ ((λ rd, JReaction rd.1 rd.2 (VArray2 va v)) <$> rs))
                  (set_joins (<[all := (Some va, Some v)]> (joins w)) w))).
Proof.
  intros Hj Hall Hp Hne. unfold run_job, run_reaction, all_element. munfold.
  rewrite Hj. simpl. rewrite (fulfill_pending all _ rs) by done.
  unfold resolve_promise. simpl.
  rewrite fulfill_pending_nil; [reflexivity|].
  simpl. by rewrite lookup_insert_ne.
Qed.

Ltac fresh_apart :=
  repeat match goal with
         | H : <[_ := _]> _ !! _ = None |- _ =>
             let H1 := fresh "Hfresh" in
             let H2 := fresh "Hne" in
             apply lookup_insert_None in H as [H1 H2]
         end.

(** [Promise.all([o, o]).then(r)] for a [ParentInjectorPromise] [o]: the
    promises made and the jobs queued. *)
Lemma join_of_parent_injector_promise l r w :
  ∃ all p dp q dq derived,
    NoDup [all; p; dp; q; dq; derived]
    ∧ (all ← Promise_all (VParentInjectorPromise l) (VParentInjectorPromise l);
       _ ← promise_then all r; mret tt) w
      = Ok tt
          (set_promises
             (<[all := Pending [(r, derived)]]>
                (<[derived := Pending []]>
                   (<[q := Pending [(RAllElement all 1, dq)]]>
                      (<[dq := Pending []]>
                         (<[q := Pending []]>
                            (<[p := Pending [(RAllElement all 0, dp)]]>
                               (<[dp := Pending []]>
                                  (<[p := Pending []]>
                                     (<[all := Pending []]> (promises w))))))))))
             (set_microtasks
                ((microtasks w ++ [JResolveThenable p (VParentInjectorPromise l)])
                 ++ [JResolveThenable q (VParentInjectorPromise l)])
                (set_joins (<[all := (None, None)]> (joins w)) w))).
Proof.
  set (P := promises w).
  set (all := fresh (dom P)).
  set (P1 := <[all := Pending []]> P).
  set (p := fresh (dom P1)).
  set (dp := fresh (dom (<[p := Pending []]> P1))).
  set (P2 := <[p := Pending [(RAllElement all 0, dp)]]>
               (<[dp := Pending []]> (<[p := Pending []]> P1))).
  set (q := fresh (dom P2)).
  set (dq := fresh (dom (<[q := Pending []]> P2))).
  set (P3 := <[q := Pending [(RAllElement all 1, dq)]]>
               (<[dq := Pending []]> (<[q := Pending []]> P2))).
  set (derived := fresh (dom P3)).
  exists all, p, dp, q, dq, derived.
  pose proof (fresh_promise_None P1) as H1.
  pose proof (fresh_promise_None (<[p := Pending []]> P1)) as H2.
  pose proof (fresh_promise_None P2) as H3.
  pose proof (fresh_promise_None (<[q := Pending []]> P2)) as H4.
  pose proof (fresh_promise_None P3) as H5.
  fold p in H1. fold dp in H2. fold q in H3. fold dq in H4. fold derived in H5.
  unfold P3, P2, P1 in H1, H2, H3, H4, H5. fresh_apart.
  split.
  - repeat (apply NoDup_cons; split;
            [rewrite ?elem_of_cons, elem_of_nil; intuition congruence|]).
    apply NoDup_nil_2.
  - unfold Promise_all, new_promise. munfold. simpl.
    rewrite (subscribe_parent_injector_promise all 0 l). simpl.
    rewrite (subscribe_parent_injector_promise all 1 l). simpl.
    rewrite (promise_then_pending all r []); [reflexivity|].
    simpl. fold P all P1 p dp P2 q dq.
    unfold P2, P1. rewrite !lookup_insert_ne by done. apply lookup_insert_eq.
Qed.

Lemma resolve_without_callbacks this self element injector w :
  parentInjectorPromises w !! this = Some self →
  pip_element self = Some element →
  pip_callbacks self = [] →
  ∃ objects,
    ParentInjectorPromise_resolve this injector w
      = Ok tt
          (set_parentInjectorPromises objects
             (set_elementData
                (<[element := <[pip_injectorKey self := VInjector injector]>
                                (default ∅ (elementData w !! element))]>
                   (elementData w)) w))
    ∧ objects !! this
        = Some {| pip_element := None; pip_injectorKey := pip_injectorKey self;
                  pip_callbacks := []; pip_injector := Some injector |}.
Proof.
  intros Hthis Hel Hcbs.
  unfold ParentInjectorPromise_resolve, get_pip, set_pip, element_data. munfold.
  rewrite Hthis, Hel, Hcbs. simpl.
  eexists. split; [reflexivity|]. apply lookup_insert_eq.
Qed.

Ltac ids_apart H :=
  repeat match type of H with
         | NoDup (_ :: _) =>
             let Hn := fresh "Hn" in
             apply NoDup_cons in H as [Hn H];
             repeat (apply not_elem_of_cons in Hn as [? Hn])
         end.

Ltac lookup_chain :=
  repeat (rewrite lookup_insert_eq || rewrite lookup_insert_ne by congruence).

(** X23: a component linked with an unresolved [ParentInjectorPromise] as
    ancestor injector (and without a second downgraded module) is not
    created by [link]: two jobs are queued.  Once the promise has been
    resolved, the microtask queue (five jobs) calls the two callbacks that
    [Promise.all] gave to [then] and then creates the component, with the
    injector of the resolution as parent injector and as module injector;
    the queue is empty afterwards. *)
Theorem child_waits_for_parent_injector
    (directive scope element attrs l parentElement : nat) (ngModel : Value)
    (d : Directive) (self : ParentInjectorPromise) (injector : Injector)
    (w : World) :
  directives w !! directive = Some d →
  hasMultipleDowngradedModules d = false →
  parentInjectorPromises w !! l = Some self →
  pip_element self = Some parentElement →
  pip_injector self = None →
  pip_callbacks self = [] →
  microtasks w = [] →
  resolveComponentFactory w injector (component (d_info d)) = true →
  let frame := new_frame directive scope element attrs ngModel true in
  ∃ w1 w2 w3 p q,
    link directive scope element attrs (VParentInjectorPromise l, ngModel) w
      = Ok tt w1
    ∧ log w1 = log w
    ∧ elementData w1 = elementData w
    ∧ ParentInjectorPromise_resolve l injector w1 = Ok tt w2
    ∧ log w2 = log w
    ∧ (∀ fuel, run_microtasks (5 + fuel) w2 = Ok tt w3)
    ∧ microtasks w3 = []
    ∧ log w3 = (log w
                ++ [EvCallback (CbResolve p) injector;
                    EvCallback (CbResolve q) injector]
                ++ creation_events frame d injector injector (inAngularZone w))%list
    ∧ (elementData w3 !! element) ≫= (.!! controllerKey INJECTOR_KEY)
        = Some (VInjector (ComponentInjector element injector)).
Proof.
  intros Hd Hmult Hself Hel Hinj Hcbs Hq Hcf frame.
  pose proof (link_unfold directive scope element attrs
                (VParentInjectorPromise l) ngModel d w Hd) as Hlink.
  cbv zeta in Hlink.
  unfold moduleInjectorFor in Hlink. rewrite Hmult in Hlink.
  change (negb (truthy (VParentInjectorPromise l)) || false) with false in Hlink.
  cbv iota in Hlink. unfold mret at 1, M_ret at 1 in Hlink.
  change (finalParentInjector (VParentInjectorPromise l) VUndefined)
    with (VParentInjectorPromise l) in Hlink.
  change (finalModuleInjector (VParentInjectorPromise l) VUndefined)
    with (VParentInjectorPromise l) in Hlink.
  rewrite link_dispatch_thenable in Hlink by (simpl; auto).
  set (f := fresh (dom (frames w))) in *.
  match type of Hlink with
  | context [(_ ≫= _) ?w0] =>
      destruct (join_of_parent_injector_promise l (RDowngrade f) w0)
        as (all & p & dp & q & dq & derived & Hids & Hjoin)
  end.
  rewrite Hjoin in Hlink. clear Hjoin.
  simpl in Hlink. rewrite Hq in Hlink. simpl in Hlink.
  ids_apart Hids.
  match type of Hlink with _ = Ok tt ?W => set (w1 := W) in * end.
  destruct (resolve_without_callbacks l self parentElement injector w1)
    as (objects & Hres & Hobj); [exact Hself|exact Hel|exact Hcbs|].
  match type of Hres with _ = Ok tt ?W => set (w2 := W) in * end.
  set (resolved := {| pip_element := None; pip_injectorKey := pip_injectorKey self;
                      pip_callbacks := []; pip_injector := Some injector |}) in *.
  set (v := VInjector injector).
  assert (Hjobs : ∃ w4,
    (∀ fuel, run_microtasks (5 + fuel) w2 = run_microtasks (S fuel) w4)
    ∧ microtasks w4 = [JReaction (RDowngrade f) derived (VArray2 v v)]
    ∧ promises w4 !! derived = Some (Pending [])
    ∧ frames w4 !! f = Some frame
    ∧ directives w4 = directives w
    ∧ resolveComponentFactory w4 = resolveComponentFactory w
    ∧ inAngularZone w4 = inAngularZone w
    ∧ log w4 = (log w ++ [EvCallback (CbResolve p) injector;
                          EvCallback (CbResolve q) injector])%list).
  { eexists. split.
    - intros fuel. change (5 + fuel) with (S (S (S (S (S fuel))))).
      (* the two jobs of [Promise.resolve] *)
      rewrite (run_microtasks_cons _ (JResolveThenable p (VParentInjectorPromise l))
                 [JResolveThenable q (VParentInjectorPromise l)]) by reflexivity.
      rewrite (run_thenable_job p l resolved injector [(RAllElement all 0, dp)]);
        [|exact Hobj|reflexivity|simpl; by lookup_chain].
      rewrite (run_microtasks_cons _ (JResolveThenable q (VParentInjectorPromise l))
                 [JReaction (RAllElement all 0) dp v]) by reflexivity.
      rewrite (run_thenable_job q l resolved injector [(RAllElement all 1, dq)]);
        [|exact Hobj|reflexivity|simpl; by lookup_chain].
      (* the two jobs of the join *)
      rewrite (run_microtasks_cons _ (JReaction (RAllElement all 0) dp v)
                 [JReaction (RAllElement all 1) dq v]) by reflexivity.
      rewrite (run_first_element_job all dp v);
        [|simpl; by lookup_chain|simpl; by lookup_chain].
      rewrite (run_microtasks_cons _ (JReaction (RAllElement all 1) dq v) [])
        by reflexivity.
      rewrite (run_second_element_job all dq v v [(RDowngrade f, derived)]);
        [|simpl; by lookup_chain|simpl; by lookup_chain|simpl; by lookup_chain
         |congruence].
      reflexivity.
    - simpl. split; [reflexivity|]. split; [by lookup_chain|].
      split; [by lookup_chain|]. repeat split.
      by rewrite <- app_assoc. }
  destruct Hjobs as (w4 & Hfour & Hq4 & Hp4 & Hf4 & Hd4 & Hcf4 & Hz4 & Hl4).
  (* the job of the handler given to [then] *)
  destruct (downgradeFn_spec f frame d injector injector (set_microtasks [] w4))
    as (w5 & Hdown & Hl5 & _ & Hq5 & Hp5 & _ & Hdata);
    [exact Hf4|simpl; by rewrite Hd4|simpl; by rewrite Hcf4|].
  simpl in Hl5, Hq5, Hp5. rewrite Hz4, Hl4 in Hl5.
  exists w1, w2, (set_promises (<[derived := Fulfilled VUndefined]> (promises w5)) w5),
    p, q.
  split; [exact Hlink|]. split; [reflexivity|]. split; [reflexivity|].
  split; [exact Hres|]. split; [reflexivity|]. split; [|split; [|split]].
  - intros fuel. rewrite Hfour.
    rewrite (run_microtasks_cons _ _ [] _ Hq4).
    unfold run_job, run_reaction. munfold. unfold v. rewrite Hdown.
    unfold resolve_promise. simpl.
    rewrite fulfill_pending_nil by (by rewrite Hp5).
    by apply run_microtasks_nil.
  - exact Hq5.
  - simpl. rewrite Hl5. by rewrite <- app_assoc.
  - exact Hdata.
Qed.

End Nested.


(** * Closed instances *)

Section Instances.
Local Existing Instance angular_constants.

Example one_module_directive fn :
  directives (linking_world fn) !! 0 = Some heroes_directive
  ∧ fresh (dom (frames (linking_world fn))) = 0.
Proof. destruct fn; split; vm_compute; reflexivity. Qed.


(** The creation follows in the microtasks, with the bootstrapped injector
    as parent and module injector, and one deferred evaluation. *)
Example first_link_then_microtasks :
  log (world_of ((first_link (ResolvesImmediately (ModuleInjector 7));;
                  run_microtasks 10) empty_world))
  = [ EvBootstrap "$$UpgradeModule.lazy1" 0;
      EvNgZoneRun (NgAdapterInjector (ModuleInjector 7));
      EvNewAdapter 2 3 1 VNull (NgAdapterInjector (ModuleInjector 7)) 0
                   (NgAdapterInjector (ModuleInjector 7)) (component heroes);
      EvCompileContents 2; EvCreateComponent 2; EvSetupInputs 2 true None;
      EvSetupOutputs 2; EvRegisterCleanup 2; EvEvalAsync 1 ].
Proof. vm_compute. reflexivity. Qed.

(** A second component, linked after the bootstrap, is created within
    [link] and schedules nothing. *)
Example second_link_is_synchronous :
  let w := world_of ((first_link (ResolvesImmediately (ModuleInjector 7));;
                      run_microtasks 10) empty_world) in
  let w' := world_of (link 0 11 12 13 (VNull, VNull) w) in
  log w' = (log w ++
    [ EvNgZoneRun (NgAdapterInjector (ModuleInjector 7));
      EvNewAdapter 12 13 11 VNull (NgAdapterInjector (ModuleInjector 7)) 0
                   (NgAdapterInjector (ModuleInjector 7)) (component heroes);
      EvCompileContents 12; EvCreateComponent 12; EvSetupInputs 12 true None;
      EvSetupOutputs 12; EvRegisterCleanup 12 ])%list
  ∧ microtasks w' = [].
Proof. vm_compute. split; reflexivity. Qed.

(** Scenario B: the bootstrap promise is resolved on a later tick. *)
Example late_bootstrap :
  let w1 := world_of ((first_link ResolvesLater;; run_microtasks 10) empty_world) in
  let w2 := world_of ((fulfill 0 (VModuleRef (ModuleInjector 7));;
                       run_microtasks 10) w1) in
  log w1 = [EvBootstrap "$$UpgradeModule.lazy1" 0]
  ∧ microtasks w1 = []
  ∧ log w2
    = [ EvBootstrap "$$UpgradeModule.lazy1" 0;
        EvNgZoneRun (NgAdapterInjector (ModuleInjector 7));
        EvNewAdapter 2 3 1 VNull (NgAdapterInjector (ModuleInjector 7)) 0
                     (NgAdapterInjector (ModuleInjector 7)) (component heroes);
        EvCompileContents 2; EvCreateComponent 2; EvSetupInputs 2 true None;
        EvSetupOutputs 2; EvRegisterCleanup 2; EvEvalAsync 1 ]
  ∧ evalAsync_calls 1 (log w2) = 1.
Proof. vm_compute. repeat split; reflexivity. Qed.

(** Scenario C: two lazy modules and no module name. *)
Example two_modules_need_a_name :
  let w := world_of (two_modules empty_world) in
  validateInjectionKey 0 "" "$$angularLazyModuleRef" "instantiating component 'Heroes'" w
  = Throw (Error (not_specified "instantiating component 'Heroes'")) w.
Proof. vm_compute. reflexivity. Qed.

(** ** Instances of the theorems *)

Lemma link_injector_selection_witness :
  (truthy (VInjector (ModuleInjector 7)) = true
   ∧ hasMultipleDowngradedModules heroes_directive = false)
  ∧ moduleInjectorFor heroes_directive (VInjector (ModuleInjector 7))
      (linking_world resolved_fn)
    = Ok VUndefined (linking_world resolved_fn).
Proof.
  split; [split; reflexivity|].
  apply (proj1 (link_injector_selection heroes_directive
                  (VInjector (ModuleInjector 7)) (linking_world resolved_fn))).
  split; reflexivity.
Defined.



Lemma parent_injector_promise_contract_witness :
  let w := world_of (ParentInjectorPromise_new 2 empty_world) in
  (∃ self, parentInjectorPromises w !! 0 = Some self ∧ pip_injector self = None)
  ∧ ∃ w', ParentInjectorPromise_then 0 (CbOpaque 5) w = Ok tt w'
          ∧ log w' = log w.
Proof.
  intros w.
  assert (Hself : parentInjectorPromises w !! 0
                  = Some {| pip_element := Some 2;
                            pip_injectorKey := controllerKey INJECTOR_KEY;
                            pip_callbacks := []; pip_injector := None |})
    by (vm_compute; reflexivity).
  split; [eexists; split; [exact Hself|reflexivity]|].
  destruct parent_injector_promise_contract as (_ & Hthen & _).
  destruct (Hthen 0 _ (CbOpaque 5) w Hself eq_refl) as (w' & Hrun & Hl & _).
  by exists w'.
Defined.

Lemma validateInjectionKey_lite_witness :
  let w := world_of (two_modules empty_world) in
  getUpgradeAppType 0 w = Ok (VNum 3) w
  ∧ getDowngradedModuleCount 0 w = Ok (VNum 2) w
  ∧ validateInjectionKey 0 "" "$$angularLazyModuleRef" "injecting" w
    = Throw (Error (not_specified "injecting")) w
  ∧ validateInjectionKey 0 "$$UpgradeModule.lazy1"
      "$$angularLazyModuleRef$$UpgradeModule.lazy1" "injecting" w
    = Ok tt w
  ∧ validateInjectionKey 0 "$$UpgradeModule.lazy3"
      "$$angularLazyModuleRef$$UpgradeModule.lazy3" "injecting" w
    = Throw (Error (unable_to_find "injecting")) w.
Proof.
  intros w.
  assert (Ht : getUpgradeAppType 0 w = Ok (VNum 3) w) by (vm_compute; reflexivity).
  assert (Hn : getDowngradedModuleCount 0 w = Ok (VNum 2) w)
    by (vm_compute; reflexivity).
  split; [exact Ht|]. split; [exact Hn|].
  split; [|split].
  - apply (validateInjectionKey_lite 0 "" "$$angularLazyModuleRef" "injecting"
             w w (VNum 2) w Ht Hn); reflexivity.
  - apply (validateInjectionKey_lite 0 "$$UpgradeModule.lazy1"
             "$$angularLazyModuleRef$$UpgradeModule.lazy1" "injecting"
             w w (VNum 2) w Ht Hn); [vm_compute; reflexivity|by left].
  - apply (validateInjectionKey_lite 0 "$$UpgradeModule.lazy3"
             "$$angularLazyModuleRef$$UpgradeModule.lazy3" "injecting"
             w w (VNum 2) w Ht Hn); [vm_compute; reflexivity|by left].
Defined.

Lemma validateInjectionKey_legacy_witness :
  let w := world_of (static_application empty_world) in
  (VNum 2 = VNum 1 ∨ VNum 2 = VNum 2)
  ∧ getUpgradeAppType 0 w = Ok (VNum 2) w
  ∧ getDowngradedModuleCount 0 w = Ok (VNum 0) w
  ∧ validateInjectionKey 0 "" "$$angularLazyModuleRef" "injecting" w = Ok tt w
  ∧ validateInjectionKey 0 "$$UpgradeModule.lazy1"
      "$$angularLazyModuleRef$$UpgradeModule.lazy1" "injecting" w
    = Throw (Error (unexpectedly_specified "injecting")) w.
Proof.
  intros w.
  assert (Ht : getUpgradeAppType 0 w = Ok (VNum 2) w) by (vm_compute; reflexivity).
  assert (Hn : getDowngradedModuleCount 0 w = Ok (VNum 0) w)
    by (vm_compute; reflexivity).
  split; [by right|]. split; [exact Ht|]. split; [exact Hn|].
  split.
  - apply (validateInjectionKey_legacy 0 "" "$$angularLazyModuleRef" "injecting"
             w (VNum 2) w (VNum 0) w (or_intror eq_refl) Ht Hn). reflexivity.
  - apply (validateInjectionKey_legacy 0 "$$UpgradeModule.lazy1"
             "$$angularLazyModuleRef$$UpgradeModule.lazy1" "injecting"
             w (VNum 2) w (VNum 0) w (or_intror eq_refl) Ht Hn). discriminate.
Defined.

Lemma angular_count_key_distinct : count_key_distinct.
Proof. repeat split; try discriminate; intros s; discriminate. Qed.

Lemma downgradeModule_names_and_count_witness :
  count_key_distinct
  ∧ ∃ names w' w'',
      downgradeModules [SrcFunction 0 ResolvesLater; SrcModuleFactory ResolvesLater]
        empty_world = Ok names w'
      ∧ names = ["$$UpgradeModule.lazy1"; "$$UpgradeModule.lazy2"]
      ∧ count_is 0 w' 0
      ∧ loadModules 0 names w' = Ok tt w''
      ∧ getDowngradedModuleCount 0 w'' = Ok (VNum 2) w''.
Proof.
  split; [exact angular_count_key_distinct|].
  destruct (downgradeModule_names_and_count
              [SrcFunction 0 ResolvesLater; SrcModuleFactory ResolvesLater]
              empty_world)
    as (names & w' & Hrun & Hlen & Huid & Hnames & _ & _ & Hcount).
  assert (Hc : count_is 0 w' 0).
  { assert (Hi : injectors (world_of (downgradeModules
                   [SrcFunction 0 ResolvesLater; SrcModuleFactory ResolvesLater]
                   empty_world)) = ∅) by (vm_compute; reflexivity).
    rewrite Hrun in Hi. simpl in Hi.
    left. unfold ng1. rewrite Hi. repeat split. }
  destruct (Hcount 0 angular_count_key_distinct Hc) as (w'' & Hload & Hget).
  exists names, w', w''. repeat split; try done.
  destruct names as [|n1 [|n2 [|n3 names]]]; try discriminate Hlen.
  pose proof (Hnames 0 ltac:(simpl; lia)) as H0.
  pose proof (Hnames 1 ltac:(simpl; lia)) as H1.
  simpl in H0, H1. injection H0 as ->. injection H1 as ->.
  reflexivity.
Defined.


(** ** Instances of the further properties *)

Lemma directiveNormalize_prefix_witness :
  ascii_only "data-my-comp" = true
  ∧ directiveNormalize "data-my-comp" = replace_special_chars "my-comp".
Proof.
  split; [reflexivity|].
  apply (proj1 (directiveNormalize_prefix "data-my-comp" eq_refl)
           "data" "-"%char "my-comp");
    [reflexivity | right; reflexivity | reflexivity].
Defined.

Lemma directiveNormalize_plain_witness :
  string_forall (λ c, negb (is_special c)) "ng2Heroes" = true
  ∧ directiveNormalize "ng2Heroes" = "ng2Heroes".
Proof.
  split; [reflexivity|]. apply directiveNormalize_plain. reflexivity.
Defined.

Lemma directiveNormalize_camelCase_witness :
  ascii_only ("my" +:+ String "-" "_" +:+ "comp") = true
  ∧ replace_special_chars ("my" +:+ String "-" "_" +:+ "comp")
    = "my" +:+ String (toUpperCase "c") (replace_special_chars "omp").
Proof.
  split; [reflexivity|].
  apply (proj1 (directiveNormalize_camelCase "my" "-"%char "_" "comp"
                  eq_refl eq_refl eq_refl eq_refl) "c"%char "omp");
    reflexivity.
Defined.

Lemma directiveNormalize_separators_witness :
  ascii_only "x-my-comp-" = true
  ∧ directiveNormalize "x-my-comp-" = "myComp" +:+ String "-" ""
  ∧ ends_line "" = true.
Proof.
  split; [reflexivity|]. split; [reflexivity|].
  apply (directiveNormalize_separators "x-my-comp-" eq_refl "myComp" "-"%char "");
    reflexivity.
Defined.

Lemma angular1_not_loaded_witness :
  ∃ s, angular1.load angular1.NoWindow (λ _ _ _, VUndefined) = inr s
       ∧ angular1.module (VObject 1) VNull s
         = (inl (Error "AngularJS v1.x is not loaded!"), s).
Proof.
  destruct (angular1_not_loaded angular1.NoWindow (λ _ _ _, VUndefined)
              (angular1.module (VObject 1) VNull) angular1.Module_
              [VObject 1; VNull] (or_introl eq_refl) eq_refl)
    as (s & Hload & _ & _ & Hcall).
  exists s. split; [exact Hload|exact Hcall].
Defined.

Lemma angular1_global_last_set_witness :
  let s := {| angular1.angular := angular1.NoNg; angular1.version := VUndefined;
              angular1.answers := λ _ _ _, VObject 5; angular1.calls := [] |} in
  let s' := angular1.setAngularJSGlobal (angular1.Library 7 (VObject 9))
              (angular1.setAngularLib angular1.Null s) in
  is_entry_point (angular1.module (VObject 1) VNull) angular1.Module_
    [VObject 1; VNull]
  ∧ angular1.getAngularJSGlobal s' = angular1.Library 7 (VObject 9)
  ∧ angular1.version s' = VObject 9.
Proof.
  intros s s'. split; [reflexivity|].
  destruct (angular1_global_last_set (angular1.module (VObject 1) VNull)
              angular1.Module_ [VObject 1; VNull] s angular1.Null
              (angular1.Library 7 (VObject 9)) eq_refl)
    as (Hget & _ & Hversion & _).
  split; [exact Hget|exact Hversion].
Defined.


Lemma link_outside_upgrade_application_witness :
  let w := world_of (directiveFactory heroes 0 empty_world) in
  let d := {| d_info := heroes; d_injector := 0; isNgUpgradeLite := false;
              hasMultipleDowngradedModules := false; ngZone := None |} in
  directives w !! 0 = Some d
  ∧ count_is 0 w 0
  ∧ ∃ w', link 0 1 2 3 (VNull, VNull) w
            = Throw (Error (not_a_valid_application
                       ("instantiating component '"
                        +:+ getTypeName (component (d_info d)) +:+ "'"))) w'
          ∧ log w' = log w.
Proof.
  intros w d.
  assert (Hd : directives w !! 0 = Some d) by (vm_compute; reflexivity).
  assert (Hp : providers (ng1 w (d_injector d)) !! UPGRADE_APP_TYPE_KEY = None)
    by (vm_compute; reflexivity).
  assert (Hi : instanceCache (ng1 w (d_injector d)) !! UPGRADE_APP_TYPE_KEY = None)
    by (vm_compute; reflexivity).
  assert (Hc : count_is 0 w 0).
  { left. repeat split; vm_compute; reflexivity. }
  split; [exact Hd|]. split; [exact Hc|].
  destruct (link_outside_upgrade_application 0 1 2 3 VNull VNull d w 0
              Hd eq_refl Hp Hi Hc) as (w' & Hrun & Hl & _).
  exists w'. split; [exact Hrun|exact Hl].
Defined.

Lemma link_module_name_errors_witness :
  let w := world_of ((two_modules;; directiveFactory heroes 0) empty_world) in
  let d := {| d_info := heroes; d_injector := 0; isNgUpgradeLite := true;
              hasMultipleDowngradedModules := true; ngZone := None |} in
  directives w !! 0 = Some d
  ∧ count_is 0 w 2
  ∧ ∃ w', link 0 1 2 3 (VInjector (ModuleInjector 7), VNull) w
            = Throw (Error (not_specified
                       ("instantiating component '"
                        +:+ getTypeName (component (d_info d)) +:+ "'"))) w'
          ∧ log w' = log w.
Proof.
  intros w d.
  assert (Hd : directives w !! 0 = Some d) by (vm_compute; reflexivity).
  assert (Hc : count_is 0 w 2) by (right; vm_compute; reflexivity).
  assert (Ht : instanceCache (ng1 w (d_injector d)) !! UPGRADE_APP_TYPE_KEY
               = Some (VNum 3)) by (vm_compute; reflexivity).
  split; [exact Hd|]. split; [exact Hc|].
  destruct (link_module_name_errors 0 1 2 3 (VInjector (ModuleInjector 7)) VNull
              d w 2 Hd eq_refl Hc) as [Hlite _].
  destruct (Hlite Ht eq_refl ltac:(lia)) as (w' & Hrun & Hl & _).
  exists w'. split; [exact Hrun|exact Hl].
Defined.

Lemma angular_keys_apart : keys_apart.
Proof.
  split; [exact angular_count_key_distinct|].
  repeat split; intros; discriminate.
Qed.

Lemma empty_count_is : count_is 0 empty_world 0.
Proof. left. repeat split. Qed.

Lemma registration_bootstraps_nothing_witness :
  count_key_distinct
  ∧ count_is 0 empty_world 0
  ∧ ∃ names w1 w2,
      downgradeModules [SrcFunction 0 resolved_fn] empty_world = Ok names w1
      ∧ loadModules 0 names w1 = Ok tt w2
      ∧ log w2 = log empty_world.
Proof.
  split; [exact angular_count_key_distinct|]. split; [exact empty_count_is|].
  destruct (registration_bootstraps_nothing [SrcFunction 0 resolved_fn] 0
              empty_world 0 angular_count_key_distinct empty_count_is)
    as (names & w1 & w2 & Hreg & Hload & Hl & _).
  exists names, w1, w2. split; [exact Hreg|]. split; [exact Hload|exact Hl].
Defined.

Lemma directive_flags_after_loading_witness :
  let srcs := [SrcFunction 0 ResolvesLater; SrcModuleFactory ResolvesLater] in
  srcs ≠ []
  ∧ ∃ names w1 w2 d w3,
      downgradeModules srcs empty_world = Ok names w1
      ∧ loadModules 0 names w1 = Ok tt w2
      ∧ directiveFactory heroes 0 w2 = Ok d w3
      ∧ directives w3 !! d
          = Some {| d_info := heroes; d_injector := 0; isNgUpgradeLite := true;
                    hasMultipleDowngradedModules := bool_decide (1 < length srcs);
                    ngZone := None |}.
Proof.
  intros srcs. split; [discriminate|].
  exact (directive_flags_after_loading srcs 0 empty_world heroes
           angular_count_key_distinct empty_count_is ltac:(discriminate)).
Defined.


Lemma empty_no_references :
  ∀ s, instanceCache (ng1 empty_world 0) !! (LAZY_MODULE_REF +:+ s) = None.
Proof. intros s. apply lookup_empty. Qed.

Lemma unnamed_key_follows_last_module_witness :
  keys_apart
  ∧ ∃ name w1 w2 r p w3,
      downgradeModule (SrcFunction 0 resolved_fn) empty_world = Ok name w1
      ∧ loadModules 0 [name] w1 = Ok tt w2
      ∧ injector_get 0 LAZY_MODULE_REF w2 = Ok (VLazyModuleRef r) w3
      ∧ log w3 = (log empty_world ++ [EvBootstrap name p])%list
      ∧ injector_get 0 (LAZY_MODULE_REF +:+ name) w3 = Ok (VLazyModuleRef r) w3.
Proof.
  split; [exact angular_keys_apart|].
  destruct (unnamed_key_follows_last_module (SrcFunction 0 resolved_fn) 0
              empty_world 0 angular_keys_apart empty_count_is empty_no_references)
    as (name & w1 & w2 & r & p & w3 & H1 & H2 & H3 & H4 & H5 & _).
  exists name, w1, w2, r, p, w3.
  split; [exact H1|]. split; [exact H2|]. split; [exact H3|].
  split; [exact H4|exact H5].
Defined.

Lemma injector_key_after_bootstrap_witness :
  let w := linking_world resolved_fn in
  let name := "$$UpgradeModule.lazy1" in
  lazyInjector w !! name = None
  ∧ injector_get 0 INJECTOR_KEY w = Throw (Error before_bootstrap_message) w
  ∧ ∃ w2,
      injector_get 0 INJECTOR_KEY
        (world_of (bootstrapped name 0 (VModuleRef (ModuleInjector 7)) w))
      = Ok (VInjector (NgAdapterInjector (ModuleInjector 7))) w2.
Proof.
  intros w name.
  assert (Hp1 : providers (ng1 w 0) !! INJECTOR_KEY
                = Some (PFactory (FIdentity (INJECTOR_KEY +:+ name))))
    by (vm_compute; reflexivity).
  assert (Hp2 : providers (ng1 w 0) !! (INJECTOR_KEY +:+ name)
                = Some (PFactory (FLazyInjector name)))
    by (vm_compute; reflexivity).
  assert (Hc1 : instanceCache (ng1 w 0) !! INJECTOR_KEY = None)
    by (vm_compute; reflexivity).
  assert (Hc2 : instanceCache (ng1 w 0) !! (INJECTOR_KEY +:+ name) = None)
    by (vm_compute; reflexivity).
  assert (Hl : lazyInjector w !! name = None) by (vm_compute; reflexivity).
  destruct (injector_key_after_bootstrap 0 name w Hp1 Hp2 Hc1 Hc2)
    as [Hbefore Hafter].
  split; [exact Hl|]. split; [exact (Hbefore Hl)|].
  destruct (Hafter 0 (ModuleInjector 7)) as (w2 & Hget & _).
  exists w2. exact Hget.
Defined.

Lemma parent_injector_promise_resolved_twice_witness :
  let w := world_of (ParentInjectorPromise_new 2 empty_world) in
  let self := {| pip_element := Some 2;
                 pip_injectorKey := controllerKey INJECTOR_KEY;
                 pip_callbacks := []; pip_injector := None |} in
  parentInjectorPromises w !! 0 = Some self
  ∧ ∃ w1 message w2,
      ParentInjectorPromise_resolve 0 (ModuleInjector 1) w = Ok tt w1
      ∧ ParentInjectorPromise_resolve 0 (ModuleInjector 2) w1
        = Throw (TypeError message) w2
      ∧ (elementData w2 !! 2) ≫= (.!! pip_injectorKey self)
        = Some (VInjector (ModuleInjector 1)).
Proof.
  intros w self.
  assert (Hself : parentInjectorPromises w !! 0 = Some self)
    by (vm_compute; reflexivity).
  split; [exact Hself|].
  destruct (parent_injector_promise_resolved_twice 0 self 2 (ModuleInjector 1)
              (ModuleInjector 2) w Hself eq_refl)
    as (w1 & message & w2 & H1 & H2 & _ & _ & H3 & _).
  exists w1, message, w2. split; [exact H1|]. split; [exact H2|exact H3].
Defined.

Lemma zone_of_first_parent_injector_witness :
  let frame1 := new_frame 0 1 2 3 VNull false in
  let frame2 := new_frame 0 1 4 5 VNull false in
  let w := set_frames (<[1 := frame2]> (<[0 := frame1]> ∅))
             (linking_world ResolvesLater) in
  directives w !! 0 = Some heroes_directive
  ∧ ∃ w1 w2,
      downgradeFn 0 (VInjector (ModuleInjector 1)) (VInjector (ModuleInjector 1)) w
        = Ok tt w1
      ∧ downgradeFn 1 (VInjector (ModuleInjector 2)) (VInjector (ModuleInjector 2)) w1
        = Ok tt w2
      ∧ directives w2 !! 0 = Some (with_ngZone (ModuleInjector 1) heroes_directive).
Proof.
  intros frame1 frame2 w.
  assert (Hf1 : frames w !! 0 = Some frame1) by (vm_compute; reflexivity).
  assert (Hf2 : frames w !! 1 = Some frame2) by (vm_compute; reflexivity).
  assert (Hd : directives w !! lf_directive frame1 = Some heroes_directive)
    by (vm_compute; reflexivity).
  split; [exact Hd|].
  destruct (zone_of_first_parent_injector 0 1 frame1 frame2 heroes_directive
              (ModuleInjector 1) (ModuleInjector 1) (ModuleInjector 2)
              (ModuleInjector 2) w Hf1 Hf2 eq_refl Hd eq_refl eq_refl
              eq_refl eq_refl)
    as (w1 & w2 & H1 & _ & H2 & H3 & _).
  exists w1, w2. split; [exact H1|]. split; [exact H2|exact H3].
Defined.

Lemma child_waits_for_parent_injector_witness :
  let w := world_of (ParentInjectorPromise_new 2 (linking_world resolved_fn)) in
  let self := {| pip_element := Some 2;
                 pip_injectorKey := controllerKey INJECTOR_KEY;
                 pip_callbacks := []; pip_injector := None |} in
  let parent := ComponentInjector 2 (ModuleInjector 7) in
  directives w !! 0 = Some heroes_directive
  ∧ parentInjectorPromises w !! 0 = Some self
  ∧ microtasks w = []
  ∧ ∃ w1 w2 w3,
      link 0 1 4 5 (VParentInjectorPromise 0, VNull) w = Ok tt w1
      ∧ log w1 = log w
      ∧ ParentInjectorPromise_resolve 0 parent w1 = Ok tt w2
      ∧ run_microtasks 5 w2 = Ok tt w3
      ∧ (elementData w3 !! 4) ≫= (.!! controllerKey INJECTOR_KEY)
          = Some (VInjector (ComponentInjector 4 parent)).
Proof.
  intros w self parent.
  assert (Hd : directives w !! 0 = Some heroes_directive)
    by (vm_compute; reflexivity).
  assert (Hself : parentInjectorPromises w !! 0 = Some self)
    by (vm_compute; reflexivity).
  assert (Hq : microtasks w = []) by (vm_compute; reflexivity).
  split; [exact Hd|]. split; [exact Hself|]. split; [exact Hq|].
  destruct (child_waits_for_parent_injector 0 1 4 5 0 2 VNull heroes_directive
              self parent w Hd eq_refl Hself eq_refl eq_refl eq_refl Hq eq_refl)
    as (w1 & w2 & w3 & p & q & Hlink & Hl1 & _ & Hres & _ & Hrun & _ & _ & Hdata).
  exists w1, w2, w3. split; [exact Hlink|]. split; [exact Hl1|].
  split; [exact Hres|]. split; [exact (Hrun 0)|exact Hdata].
Defined.

Lemma validateInjectionKey_other_application_witness :
  providers (ng1 empty_world 0) !! UPGRADE_APP_TYPE_KEY = None
  ∧ validateInjectionKey 0 "" LAZY_MODULE_REF "injecting" empty_world
    = Throw (Error (not_a_valid_application "injecting")) empty_world.
Proof.
  assert (Hp : providers (ng1 empty_world 0) !! UPGRADE_APP_TYPE_KEY = None)
    by (vm_compute; reflexivity).
  assert (Hc : instanceCache (ng1 empty_world 0) !! UPGRADE_APP_TYPE_KEY = None)
    by (vm_compute; reflexivity).
  split; [exact Hp|].
  exact (proj2 (validateInjectionKey_other_application 0 "" LAZY_MODULE_REF
                  "injecting" empty_world) 0%Z Hp Hc empty_count_is).
Defined.

Lemma creation_without_component_factory_witness :
  directives undeclared_world !! 0 = Some heroes_directive
  ∧ resolveComponentFactory undeclared_world (ModuleInjector 7)
      (component heroes) = false
  ∧ ∃ w',
      link 0 1 2 3 (VInjector (ModuleInjector 7), VNull) undeclared_world
        = Throw (Error ("Expecting ComponentFactory for: "
                        +:+ getTypeName (component heroes))) w'
      ∧ elementData w' = elementData undeclared_world.
Proof.
  assert (Hd : directives undeclared_world !! 0 = Some heroes_directive)
    by (vm_compute; reflexivity).
  split; [exact Hd|]. split; [reflexivity|].
  destruct (proj1 creation_without_component_factory 0 1 2 3 (ModuleInjector 7)
              VNull heroes_directive undeclared_world Hd eq_refl eq_refl)
    as (w' & Hlink & _ & Hdata & _).
  exists w'. split; [exact Hlink|exact Hdata].
Defined.

End Instances.
